(** * SAC mass-upload template generator: the generation engine

    A shallow embedding of [backend/sac_generator.py] (class [SACGenerator]):
    dimension tables, leaf extraction with the parent-subtree traversal,
    filters, the date range, workbook assembly and the batch driver,
    followed by the properties of the specification proved on it.

    Conventions.
    - A pandas [DataFrame] read with [dtype=str] is a list of column names
      and a list of rows; a cell is [Some s] for text and [None] for NaN.
      Column names are distinct ([read_csv] renames duplicates), so a
      column is addressed by the first position of its name.
    - A Python [set] is a [gset]; [set.pop()] removes an arbitrary element,
      which is modelled twice: by a step relation that may pop any element,
      and by a function that pops the first element of [elements].
    - A Python exception is a value of [exn]; code that can raise returns
      a [result]. *)

From Equations.Prop Require Import Equations Logic.
From Stdlib Require Import Ascii Sorted.
From stdpp Require Import gmap strings list pretty.

Set Warnings "-clear-no-such-hyp".

Local Open Scope Z_scope.

(** ** Exceptions and results *)

Inductive exn : Type :=
| DimensionError (message : string)
| CSVError (message : string)
| TemplateError (message : string)
| ExcelGenerationError (message : string)
| KeyError (key : string)
| ValueError (message : string)
| PermissionError (message : string)
| OtherError (message : string).

Inductive result (A : Type) : Type :=
| Ok (a : A)
| Raise (e : exn).
Arguments Ok {A} a.
Arguments Raise {A} e.

(** [except SACGeneratorError]: the classes derived from the base class. *)
Definition is_sac_error (e : exn) : bool :=
  match e with
  | DimensionError _ | CSVError _ | TemplateError _ | ExcelGenerationError _ => true
  | _ => false
  end.

(** [e.message] for the generator's own exceptions, [str(e)] for the others. *)
Definition exn_message (e : exn) : string :=
  match e with
  | DimensionError m | CSVError m | TemplateError m | ExcelGenerationError m => m
  | KeyError k => "'" +:+ k +:+ "'"
  | ValueError m | PermissionError m | OtherError m => m
  end.

(** ** Strings *)

(** [s.endswith(suffix)] *)
Definition ends_with (suffix s : string) : bool :=
  let n := String.length s in
  let m := String.length suffix in
  (m <=? n)%nat && String.eqb (String.substring (n - m) m s) suffix.

(** ** Tables *)

Record DataFrame : Type := mkDF {
  columns : list string;
  rows : list (list (option string))
}.

(** [df.empty]: one of the two axes has length zero. *)
Definition df_empty (df : DataFrame) : bool :=
  match columns df, rows df with
  | [], _ | _, [] => true
  | _, _ => false
  end.

(** [name in df.columns] *)
Definition has_column (name : string) (df : DataFrame) : bool :=
  bool_decide (name ∈ columns df).

Fixpoint col_pos (name : string) (cols : list string) : option nat :=
  match cols with
  | [] => None
  | c :: cols' => if String.eqb c name then Some 0%nat else S <$> col_pos name cols'
  end.

(** The cell of row [r] in column [name]; NaN when the row is short. *)
Definition cell_at (cols : list string) (name : string) (r : list (option string))
  : option string :=
  match col_pos name cols with
  | Some i => default None (r !! i)
  | None => None
  end.

Definition row_id (df : DataFrame) (r : list (option string)) : option string :=
  cell_at (columns df) "ID" r.

(** [df[mask]]: the rows selected by a boolean mask, in order. *)
Definition select_rows (keep : list (option string) → bool) (df : DataFrame) : DataFrame :=
  mkDF (columns df) (filter (λ r, keep r = true) (rows df)).

(** ** Hierarchy: parent columns and leaf members *)

(** [find_parent_columns] *)
Definition find_parent_columns (df : DataFrame) : list string :=
  filter (λ col, ends_with "_PARENTID" col = true) (columns df).

(** [df[col] == current], elementwise: NaN equals nothing. *)
Definition cell_eq (c current : option string) : bool :=
  match c, current with
  | Some a, Some b => String.eqb a b
  | _, _ => false
  end.

(** [df[df[col] == current]['ID'].tolist()] *)
Definition children_of (df : DataFrame) (col : string) (current : option string)
  : list (option string) :=
  row_id df <$> filter (λ r, cell_eq (cell_at (columns df) col r) current = true) (rows df).

(** The loop [for child in children] on the pair
    [(descendants, to_process)]. *)
Definition visit_children (children : list (option string))
    (st : gset (option string) * gset (option string))
  : gset (option string) * gset (option string) :=
  foldl (λ st child,
           if decide (child ∈ st.1) then st
           else ({[child]} ∪ st.1, {[child]} ∪ st.2))
        st children.

(** The loop [for col in parent_cols] for one popped [current]. *)
Definition expand (df : DataFrame) (parent_cols : list string) (current : option string)
    (st : gset (option string) * gset (option string))
  : gset (option string) * gset (option string) :=
  foldl (λ st col, visit_children (children_of df col current) st) st parent_cols.

(** One iteration of [while to_process], for an arbitrary choice of
    [to_process.pop()]. *)
Definition bfs_step (df : DataFrame) (parent_cols : list string)
    (st st' : gset (option string) * gset (option string)) : Prop :=
  ∃ current, current ∈ st.2 ∧
    st' = expand df parent_cols current (st.1, st.2 ∖ {[current]}).

(** The IDs of the table, and the quantity that decreases at each
    iteration: pending IDs, plus twice the IDs not yet discovered. *)
Definition table_ids (df : DataFrame) : gset (option string) :=
  list_to_set (row_id df <$> rows df).

Definition bfs_measure (df : DataFrame)
    (st : gset (option string) * gset (option string)) : nat :=
  (size st.2 + 2 * size (table_ids df ∖ st.1))%nat.

(** The children of [current] in all parent columns. *)
Definition all_children (df : DataFrame) (parent_cols : list string)
    (current : option string) : list (option string) :=
  concat ((λ col, children_of df col current) <$> parent_cols).

(** Equations between sets, decided by cases on the memberships. *)
Ltac split_mem :=
  repeat match goal with
         | |- context [?y ∈ ?s] =>
             lazymatch goal with
             | H : y ∈ s |- _ => fail
             | H : y ∉ s |- _ => fail
             | _ => destruct (decide (y ∈ s))
             end
         | |- context [?y = ?z] =>
             lazymatch goal with
             | H : y = z |- _ => fail
             | H : y ≠ z |- _ => fail
             | _ => destruct (decide (y = z))
             end
         end.
Ltac set_cases := apply set_eq; intros ?x; set_unfold; split_mem; naive_solver.

Lemma visit_children_spec children d w :
  visit_children children (d, w)
  = (d ∪ list_to_set children, w ∪ (list_to_set children ∖ d)).
Proof.
  unfold visit_children. revert d w.
  induction children as [|c l IH]; intros d w; simpl.
  - f_equal; set_cases.
  - destruct (decide (c ∈ d)) as [Hin|Hout]; rewrite IH; f_equal; set_cases.
Qed.

Lemma expand_spec df parent_cols current d w :
  expand df parent_cols current (d, w)
  = (d ∪ list_to_set (all_children df parent_cols current),
     w ∪ (list_to_set (all_children df parent_cols current) ∖ d)).
Proof.
  revert d w.
  induction parent_cols as [|col cols IH]; intros d w.
  - unfold expand, all_children; simpl. f_equal; set_cases.
  - change (expand df (col :: cols) current (d, w))
      with (expand df cols current (visit_children (children_of df col current) (d, w))).
    change (all_children df (col :: cols) current)
      with (children_of df col current ++ all_children df cols current).
    rewrite visit_children_spec, IH, list_to_set_app_L.
    generalize (list_to_set (children_of df col current) : gset (option string)).
    generalize (list_to_set (all_children df cols current) : gset (option string)).
    intros A B. f_equal; set_cases.
Qed.

Lemma children_of_ids df col current x :
  x ∈ children_of df col current → x ∈ table_ids df.
Proof.
  unfold children_of, table_ids. rewrite elem_of_list_to_set.
  intros (r & -> & Hr)%list_elem_of_fmap.
  apply list_elem_of_fmap. exists r. split; [done|].
  by apply list_elem_of_filter in Hr as [_ Hr].
Qed.

Lemma all_children_ids df parent_cols current x :
  x ∈ all_children df parent_cols current → x ∈ table_ids df.
Proof.
  unfold all_children.
  induction parent_cols as [|col cols IH]; simpl.
  - by intros ?%elem_of_nil.
  - intros [H|H]%elem_of_app; [by eapply children_of_ids | by apply IH].
Qed.

(** Popping any pending ID and expanding it decreases the measure. *)
Lemma expand_decreases df parent_cols current d w :
  current ∈ w →
  (bfs_measure df (expand df parent_cols current (d, w ∖ {[current]}))
   < bfs_measure df (d, w))%nat.
Proof.
  intros Hc. rewrite expand_spec. unfold bfs_measure; simpl.
  set (C := list_to_set (all_children df parent_cols current) : gset (option string)).
  set (I := table_ids df).
  assert (HC : C ⊆ I).
  { intros x Hx. unfold C in Hx. rewrite elem_of_list_to_set in Hx.
    by eapply all_children_ids. }
  assert (Hw : size w = S (size (w ∖ {[current]}))).
  { assert (Heq : w = {[current]} ∪ w ∖ {[current]})
      by (apply union_difference_L; set_solver).
    rewrite Heq at 1. rewrite size_union by set_solver.
    by rewrite size_singleton. }
  assert (Hu : (size (w ∖ {[current]} ∪ C ∖ d)
                ≤ size (w ∖ {[current]}) + size (C ∖ d))%nat).
  { rewrite size_union_alt. apply Nat.add_le_mono_l, subseteq_size. set_solver. }
  assert (Hi : size (I ∖ d) = (size (C ∖ d) + size (I ∖ (d ∪ C)))%nat).
  { rewrite <- size_union by set_solver. f_equal.
    apply set_eq; intros x. rewrite elem_of_union, !elem_of_difference, elem_of_union.
    destruct (decide (x ∈ C)); [|tauto].
    assert (x ∈ I) by set_solver. tauto. }
  lia.
Qed.

(** The loop [while to_process], popping the first pending ID. *)
Equations? bfs_loop (df : DataFrame) (parent_cols : list string)
    (st : gset (option string) * gset (option string))
  : gset (option string) by wf (bfs_measure df st) lt :=
  bfs_loop df parent_cols st with inspect (elements st.2) := {
    | exist _ nil _ => st.1
    | exist _ (cons current _) Hel =>
        bfs_loop df parent_cols
          (expand df parent_cols current (st.1, st.2 ∖ {[current]}))
  }.
Proof.
  destruct st as [d w]. apply expand_decreases; simpl in *.
  apply elem_of_elements. rewrite Hel. left.
Qed.

(** [filters.get("parent_filter")]: absent, a string, or a list of strings. *)
Inductive parent_filter : Type :=
| PFNone
| PFStr (s : string)
| PFList (l : list string).

(** [if parent_filter:] followed by the wrapping of a string in a list. *)
Definition parent_filter_roots (pf : parent_filter) : option (list string) :=
  match pf with
  | PFNone => None
  | PFStr s => if String.eqb s EmptyString then None else Some [s]
  | PFList [] => None
  | PFList l => Some l
  end.

(** The set [descendants] once [while to_process] has ended, starting
    from [to_process = roots]. *)
Definition descendants (df : DataFrame) (parent_cols : list string)
    (roots : gset (option string)) : gset (option string) :=
  bfs_loop df parent_cols (∅, roots).

(** [df[df['ID'].isin(descendants)]] when a parent filter is given. *)
Definition restrict_subtree (df : DataFrame) (parent_cols : list string)
    (pf : parent_filter) : DataFrame :=
  match parent_filter_roots pf with
  | Some roots =>
      let d := descendants df parent_cols (list_to_set (Some <$> roots)) in
      select_rows (λ r, bool_decide (row_id df r ∈ d)) df
  | None => df
  end.

(** [df[col]] and [.dropna()] *)
Definition col_values (df : DataFrame) (col : string) : list (option string) :=
  cell_at (columns df) col <$> rows df.

Definition dropna (l : list (option string)) : list string := omap id l.

(** The set [all_parent_ids]. *)
Definition all_parent_ids (df : DataFrame) (parent_cols : list string) : gset string :=
  foldl (λ acc col, acc ∪ list_to_set (dropna (col_values df col))) ∅ parent_cols.

(** [df['ID'].isin(ids)] for a set of strings: NaN is in no such set. *)
Definition id_isin (df : DataFrame) (ids : gset string) (r : list (option string)) : bool :=
  match row_id df r with
  | Some v => bool_decide (v ∈ ids)
  | None => false
  end.

(** [get_leaf_members].  The table is never [None] here; ['ID'] is read
    as soon as a parent column exists, and its absence is a [KeyError]. *)
Definition get_leaf_members (df : DataFrame) (pf : parent_filter) : result DataFrame :=
  if df_empty df then Ok df
  else
    let parent_cols := find_parent_columns df in
    match parent_cols with
    | [] => Ok df
    | _ :: _ =>
        if has_column "ID" df then
          let df1 := restrict_subtree df parent_cols pf in
          let parents := all_parent_ids df1 parent_cols in
          Ok (select_rows (λ r, negb (id_isin df1 parents r)) df1)
        else Raise (KeyError "ID")
    end.

(** ** Strings, continued

    Strings are sequences of bytes; case conversion and digits are those
    of ASCII, on which they agree with Python's. *)

Definition is_upper (c : ascii) : bool :=
  let n := nat_of_ascii c in (65 <=? n)%nat && (n <=? 90)%nat.
Definition is_lower (c : ascii) : bool :=
  let n := nat_of_ascii c in (97 <=? n)%nat && (n <=? 122)%nat.
Definition is_digit (c : ascii) : bool :=
  let n := nat_of_ascii c in (48 <=? n)%nat && (n <=? 57)%nat.
Definition is_ascii_alnum (c : ascii) : bool :=
  is_upper c || is_lower c || is_digit c.
(** The characters [str.strip()] removes among the first 128. *)
Definition is_space (c : ascii) : bool :=
  let n := nat_of_ascii c in
  ((9 <=? n)%nat && (n <=? 13)%nat) || ((28 <=? n)%nat && (n <=? 32)%nat).

Definition ascii_upper (c : ascii) : ascii :=
  if is_lower c then ascii_of_nat (nat_of_ascii c - 32) else c.
Definition ascii_lower (c : ascii) : ascii :=
  if is_upper c then ascii_of_nat (nat_of_ascii c + 32) else c.

Fixpoint str_map (f : ascii → ascii) (s : string) : string :=
  match s with
  | EmptyString => EmptyString
  | String c s' => String (f c) (str_map f s')
  end.

(** [s.upper()], [s.lower()] *)
Definition str_upper : string → string := str_map ascii_upper.
Definition str_lower : string → string := str_map ascii_lower.

(** [s.replace(a, b)] for single characters. *)
Definition replace_char (a b : ascii) : string → string :=
  str_map (λ c, if Ascii.eqb c a then b else c).

(** [sub in s] *)
Fixpoint str_contains (sub s : string) : bool :=
  String.prefix sub s
  || match s with
     | EmptyString => false
     | String _ s' => str_contains sub s'
     end.

(** [s[:n]] and [s[n:]] *)
Definition str_take (n : nat) (s : string) : string := String.substring 0 n s.
Definition str_drop (n : nat) (s : string) : string :=
  String.substring n (String.length s) s.

Fixpoint lstrip (s : string) : string :=
  match s with
  | String c s' => if is_space c then lstrip s' else s
  | EmptyString => EmptyString
  end.

Definition str_rev (s : string) : string :=
  String.string_of_list_ascii (rev (String.list_ascii_of_string s)).

(** [s.strip()] *)
Definition str_strip (s : string) : string :=
  str_rev (lstrip (str_rev (lstrip s))).

(** Python truth value of a string. *)
Definition str_truthy (s : string) : bool := negb (String.eqb s EmptyString).

(** The digits of [int(s)]: decimal digits, single underscores allowed
    between them.  [acc] is [None] before the first digit; [after_digit]
    tells whether the previous character was a digit. *)
Fixpoint int_digits (s : string) (acc : option Z) (after_digit : bool) : option Z :=
  match s with
  | EmptyString => if after_digit then acc else None
  | String c s' =>
      if is_digit c then
        int_digits s' (Some (10 * default 0 acc + Z.of_nat (nat_of_ascii c - 48))) true
      else if Ascii.eqb c "_"%char then
        if after_digit then int_digits s' acc false else None
      else None
  end.

(** [int(s)] for a string: surrounding white space, an optional sign,
    decimal digits; anything else is a [ValueError]. *)
Definition py_int (s : string) : result Z :=
  let body := str_strip s in
  let '(sign, ds) :=
    match body with
    | String "-"%char ds => (-1, ds)
    | String "+"%char ds => (1, ds)
    | _ => (1, body)
    end in
  match int_digits ds None false with
  | Some n => Ok (sign * n)
  | None => Raise (ValueError ("invalid literal for int() with base 10: '" +:+ s +:+ "'"))
  end.

(** [f"{n}"] and [f"{n:02d}"] for an integer. *)
Definition fmt_int (n : Z) : string := pretty n.
Definition fmt_02d (n : Z) : string :=
  if decide (0 ≤ n < 10) then "0" +:+ pretty n else pretty n.

(** ** Sorting

    [sorted(values, key=...)] is stable; the insertion sort below is the
    stable sort for a total preorder [le]. *)

Fixpoint insert_sorted {A : Type} (le : A → A → bool) (x : A) (l : list A) : list A :=
  match l with
  | [] => [x]
  | y :: l' => if le x y then x :: l else y :: insert_sorted le x l'
  end.

Definition sort_by {A : Type} (le : A → A → bool) (l : list A) : list A :=
  foldr (insert_sorted le) [] l.

(** ** Configuration documents *)

(** The filter spec of a dimension.  A key that is absent behaves like an
    empty list, resp. like no parent filter. *)
Record Filters : Type := mkFilters {
  exclude_description : list string;
  id_list : list string;
  flt_parent_filter : parent_filter
}.

Definition no_filters : Filters := mkFilters [] [] PFNone.

(** A template's override of a dimension's filters: the keys it carries. *)
Record Override : Type := mkOverride {
  ov_exclude_description : option (list string);
  ov_id_list : option (list string);
  ov_parent_filter : option parent_filter
}.

(** [filters.update(override)] *)
Definition update_filters (f : Filters) (o : Override) : Filters :=
  mkFilters (default (exclude_description f) (ov_exclude_description o))
            (default (id_list f) (ov_id_list o))
            (default (flt_parent_filter f) (ov_parent_filter o)).

Record Dimension : Type := mkDimension {
  dim_name : option string;
  sac_name : option string;
  has_hierarchy : option bool;
  filters : Filters;
  extract_column : option string;
  numeric_sort : bool;
  table_name : option string
}.

(** The dict [{}] that [dimensions.get(col, {})] falls back to. *)
Definition empty_dimension : Dimension :=
  mkDimension None None None no_filters None false None.

Record Template : Type := mkTemplate {
  tpl_name : option string;
  tpl_columns : list string;
  dimension_overrides : list (string * Override);
  output_file : option string;
  tpl_data_rows : option Z
}.

(** [project.json]: the manual date range, the version settings and the
    default number of data rows.  Colours are not modelled. *)
Record Project : Type := mkProject {
  start_month : option string;
  end_month : option string;
  version_id : option string;
  start_column : option string;
  end_column : option string;
  settings_data_rows : option Z
}.

(** ** Workbooks *)

Record DataValidation : Type := mkDV {
  dv_type : string;
  dv_formula1 : string;
  dv_allow_blank : bool;
  dv_error : string;
  dv_prompt : string;
  dv_sqref : string
}.

(** The sheet [Upload_to_SAC]: its header row, the number of dimension
    columns, the rows created as data-entry rows, the rows that carry the
    thick border, and the validations attached to it. *)
Record UploadSheet : Type := mkUpload {
  us_headers : list string;
  us_dim_columns : nat;
  us_data_entry_rows : list Z;
  us_border_rows : list Z;
  us_validations : list DataValidation
}.

(** A lookup sheet: title of the sheet, title cell, the rows
    [(Description, ID)] from row 3 on, and the named table if there is
    one, as [(displayName, ref)]. *)
Record DimensionSheet : Type := mkDimSheet {
  ds_title : string;
  ds_heading : string;
  ds_rows : list (option string * option string);
  ds_table : option (string * string)
}.

Record Workbook : Type := mkWorkbook {
  wb_upload : UploadSheet;
  wb_sheets : list DimensionSheet
}.

(** ** The environment

    What the generator obtains from outside its own code: the file
    system, pandas, [re], openpyxl and two Python built-ins. *)

Inductive csv_read : Type :=
| ReadOk (df : DataFrame)
| ReadEmptyData
| ReadParserError (msg : string)
  (** [UnicodeDecodeError] with its text, and the table read with
      latin-1 if that second attempt succeeds. *)
| ReadUnicodeError (msg : string) (latin1 : option DataFrame)
| ReadOtherError (msg : string).

Record Env : Type := mkEnv {
  (** [os.path.exists] *)
  path_exists : string → bool;
  (** [pd.read_csv(path, dtype=str, ...)] with UTF-8 *)
  read_csv : string → csv_read;
  (** [re.compile(pattern, re.IGNORECASE)] and the test
      [search(text) is not None] of the compiled pattern, as used by
      [Series.str.contains(pattern, case=False)] *)
  re_compile : string → result (string → bool);
  (** [int(float(x))] *)
  int_of_float : string → result Z;
  (** [repr] of a list of strings and [None]s *)
  repr_list : list (option string) → string;
  (** [get_column_letter] *)
  get_column_letter : nat → string;
  (** an exception raised by openpyxl while the sheets are assembled *)
  assembly_fault : Workbook → option exn;
  (** [wb.save(path)]: [None] when the file is written *)
  save : string → Workbook → option exn
}.

(** [os.path.join(dir, name)] *)
Definition path_join (dir name : string) : string := dir +:+ "/" +:+ name.

Definition downloads_dir : string := "downloads".
Definition output_dir : string := "output".

(** ** The generator's state and its computations

    [log_warnings] holds the records written with [logger.warning]; the
    other log levels and the console output are not modelled. *)

Record GenState : Type := mkState {
  errors : list string;
  warnings : list string;
  log_warnings : list string;
  dimension_data : gmap string DataFrame;
  date_range : list string
}.

Definition initial_state : GenState := mkState [] [] [] ∅ [].

(** A computation: it ends with a value or an exception, and the state
    it leaves in either case. *)
Definition M (A : Type) : Type := GenState → result A * GenState.

Definition ret {A} (a : A) : M A := λ st, (Ok a, st).
Definition raise {A} (e : exn) : M A := λ st, (Raise e, st).
Definition bind {A B} (c : M A) (k : A → M B) : M B :=
  λ st, match c st with
        | (Ok a, st') => k a st'
        | (Raise e, st') => (Raise e, st')
        end.
(** [try: c except <handles>: h] *)
Definition try_except {A} (c : M A) (handles : exn → bool) (h : exn → M A) : M A :=
  λ st, match c st with
        | (Raise e, st') => if handles e then h e st' else (Raise e, st')
        | r => r
        end.
Definition lift {A} (r : result A) : M A := λ st, (r, st).
Definition get_state : M GenState := λ st, (Ok st, st).
Definition modify (f : GenState → GenState) : M unit := λ st, (Ok tt, f st).

Notation "'let*' x ':=' c 'in' k" := (bind c (λ x, k))
  (at level 10, x pattern, c at level 100, k at level 200).
Notation "c ';;' k" := (bind c (λ _, k))
  (at level 100, k at level 200, right associativity).

Definition add_error (msg : string) : M unit :=
  modify (λ st, mkState (errors st ++ [msg]) (warnings st) (log_warnings st)
                        (dimension_data st) (date_range st)).
Definition add_warning (msg : string) : M unit :=
  modify (λ st, mkState (errors st) (warnings st ++ [msg]) (log_warnings st)
                        (dimension_data st) (date_range st)).
Definition logger_warning (msg : string) : M unit :=
  modify (λ st, mkState (errors st) (warnings st) (log_warnings st ++ [msg])
                        (dimension_data st) (date_range st)).
Definition set_dimension_data (d : gmap string DataFrame) : M unit :=
  modify (λ st, mkState (errors st) (warnings st) (log_warnings st) d (date_range st)).
Definition set_date_range (l : list string) : M unit :=
  modify (λ st, mkState (errors st) (warnings st) (log_warnings st)
                        (dimension_data st) l).

(** ** Date range *)

(** [(year, month) <= (end_year, end_m)] on tuples. *)
Definition month_le (year month end_year end_m : Z) : Prop :=
  year < end_year ∨ (year = end_year ∧ month ≤ end_m).

Global Instance month_le_dec year month end_year end_m :
  Decision (month_le year month end_year end_m).
Proof. unfold month_le. apply _. Defined.

(** [f"{year}{month:02d}"] *)
Definition month_token (year month : Z) : string := fmt_int year +:+ fmt_02d month.

(** What decreases along the loop: months left until the end of
    [end_year], a month above 12 counting as 12. *)
Definition months_left (end_year year month : Z) : nat :=
  Z.to_nat (12 * (end_year - year) + 13 - Z.min month 12).

(** The loop [while (year, month) <= (end_year, end_m)] with the list it
    appends to. *)
Equations? month_loop (end_year end_m year month : Z) : list string
    by wf (months_left end_year year month) lt :=
  month_loop end_year end_m year month
    with decide (month_le year month end_year end_m) := {
    | right _ => []
    | left Hle with decide (month + 1 > 12) := {
        | left _ => month_token year month :: month_loop end_year end_m (year + 1) 1
        | right _ => month_token year month :: month_loop end_year end_m year (month + 1)
      }
  }.
Proof.
  all: unfold months_left, month_le in *; lia.
Qed.

Definition default_date_range : list string :=
  ["202501"; "202502"; "202503"; "202504"; "202505"; "202506";
   "202507"; "202508"; "202509"; "202510"; "202511"; "202512"].

(** The lines shared by the two branches: split the two [YYYYMM] strings
    with [int(s[:4])] and [int(s[4:])], then run the loop. *)
Definition expand_range (start_s end_s : string) : result (list string) :=
  match py_int (str_take 4 start_s), py_int (str_drop 4 start_s) with
  | Raise e, _ => Raise e
  | Ok _, Raise e => Raise e
  | Ok start_year, Ok start_m =>
      match py_int (str_take 4 end_s), py_int (str_drop 4 end_s) with
      | Raise e, _ => Raise e
      | Ok _, Raise e => Raise e
      | Ok end_year, Ok end_m => Ok (month_loop end_year end_m start_year start_m)
      end
  end.

(** Python truth value of an optional string. *)
Definition opt_truthy (o : option string) : bool :=
  match o with Some s => str_truthy s | None => false end.

(** ** Results *)

Inductive ResultStatus : Type := SUCCESS | WARNING | ERROR.

Record OperationResult (D : Type) : Type := mkResult {
  status : ResultStatus;
  message : string;
  data : option D;
  op_errors : list string;
  op_warnings : list string
}.
Arguments mkResult {D} _ _ _ _ _.
Arguments status {D} _.
Arguments message {D} _.
Arguments data {D} _.
Arguments op_errors {D} _.
Arguments op_warnings {D} _.

(** The property [success]. *)
Definition success {D} (r : OperationResult D) : bool :=
  match status r with SUCCESS | WARNING => true | ERROR => false end.

(** [OperationResult.ok] and [OperationResult.fail] *)
Definition op_ok {D} (msg : string) (d : option D) (ws : list string) : OperationResult D :=
  mkResult (match ws with [] => SUCCESS | _ :: _ => WARNING end) msg d [] ws.
Definition op_fail {D} (msg : string) (errs : list string) : OperationResult D :=
  mkResult ERROR msg None (match errs with [] => [msg] | _ :: _ => errs end) [].

(** The [data] of the result of [create_excel]. *)
Record Created : Type := mkCreated {
  created_path : string;
  created_columns : list string;
  created_dimension_errors : list string;
  created_workbook : Workbook
}.

(** ** Source tables *)

Section Generator.

Context (env : Env).

(** [find_csv_file] *)
Definition find_csv_file (sac : string) (hierarchy : bool) : M (option string) :=
  let patterns :=
    if hierarchy
    then [sac +:+ "MasterWithHierarchy.csv"; sac +:+ "Master.csv"; sac +:+ ".csv"]
    else [sac +:+ "Master.csv"; sac +:+ ".csv"; sac +:+ "MasterWithHierarchy.csv"] in
  match List.find (λ p, path_exists env (path_join downloads_dir p)) patterns with
  | Some p => ret (Some (path_join downloads_dir p))
  | None => logger_warning ("No CSV file found for " +:+ sac) ;; ret None
  end.

(** [load_csv] *)
Definition load_csv (csv_path : string) : M (option DataFrame) :=
  if negb (path_exists env csv_path) then ret None
  else
    match read_csv env csv_path with
    | ReadOk df => ret (Some df)
    | ReadEmptyData => raise (CSVError ("CSV file is empty: " +:+ csv_path))
    | ReadParserError msg =>
        raise (CSVError ("CSV parsing error in " +:+ csv_path +:+ ": " +:+ msg))
    | ReadUnicodeError msg latin1 =>
        logger_warning ("UTF-8 decode failed for " +:+ csv_path +:+ ", trying latin-1") ;;
        match latin1 with
        | Some df => ret (Some df)
        | None => raise (CSVError ("Cannot decode CSV " +:+ csv_path +:+ ": " +:+ msg))
        end
    | ReadOtherError msg =>
        raise (CSVError ("Unexpected error loading " +:+ csv_path +:+ ": " +:+ msg))
    end.

(** [str(cell)] for a cell of a table. *)
Definition cell_str (c : option string) : string := default "nan" c.

(** [load_date_range] *)
Definition load_date_range (project : Project) : M unit :=
  if opt_truthy (start_month project) && opt_truthy (end_month project) then
    let* r := lift (expand_range (default EmptyString (start_month project))
                                 (default EmptyString (end_month project))) in
    set_date_range r ;;
    (* the message printed next reads [self.date_range[0]] *)
    match r with
    | [] => raise (OtherError "list index out of range")
    | _ :: _ => ret tt
    end
  else
    let csv_path := path_join downloads_dir "VersionMaster.csv" in
    if negb (path_exists env csv_path) then set_date_range default_date_range
    else
      let* loaded := load_csv csv_path in
      match loaded with
      | None => set_date_range default_date_range
      | Some df =>
          if negb (has_column "ID" df) then set_date_range default_date_range
          else
            let vid := default "public.RF_CURRENT" (version_id project) in
            match filter (λ r, cell_eq (row_id df r) (Some vid) = true) (rows df) with
            | [] => set_date_range default_date_range
            | version_row :: _ =>
                (* the [try] block: any exception gives the default range *)
                let or_default (s fallback : string) : string :=
                  if str_truthy s then s else fallback in
                let start_col :=
                  or_default (str_strip (default EmptyString (start_column project))) "StartMonth" in
                let end_col :=
                  or_default (str_strip (default EmptyString (end_column project))) "EndMonth" in
                if negb (has_column start_col df && has_column end_col df)
                then set_date_range default_date_range
                else
                  match expand_range (cell_str (cell_at (columns df) start_col version_row))
                                     (cell_str (cell_at (columns df) end_col version_row)) with
                  | Ok (t :: r) => set_date_range (t :: r)
                  | Ok [] | Raise _ => set_date_range default_date_range
                  end
            end
      end.

(** ** Dimension processing *)

(** [series.isin(values)] on one cell, for a list of strings. *)
Definition cell_isin (c : option string) (values : list string) : bool :=
  match c with
  | Some v => bool_decide (v ∈ values)
  | None => false
  end.

(** [remove_unassigned] *)
Definition remove_unassigned (df : DataFrame) : result DataFrame :=
  if df_empty df then Ok df
  else if negb (has_column "ID" df) then Raise (KeyError "ID")
  else
    let has_desc := has_column "Description" df in
    Ok (select_rows
          (λ r, negb (cell_isin (row_id df r) ["#"; EmptyString])
                && (if has_desc
                    then negb (cell_isin (cell_at (columns df) "Description" r)
                                         ["Unassigned"; "Not In Hierarchy"; EmptyString])
                    else true))
          df).

(** One round of the loop over the exclusion patterns:
    [df = df[~df['Description'].str.contains(pattern, case=False, na=False)]]. *)
Definition exclude_pattern (df : DataFrame) (pattern : string) : result DataFrame :=
  match re_compile env pattern with
  | Raise e => Raise e
  | Ok found =>
      Ok (select_rows
            (λ r, negb (match cell_at (columns df) "Description" r with
                        | Some s => found s
                        | None => false
                        end))
            df)
  end.

Fixpoint exclude_patterns (df : DataFrame) (patterns : list string) : result DataFrame :=
  match patterns with
  | [] => Ok df
  | pattern :: rest =>
      match exclude_pattern df pattern with
      | Ok df' => exclude_patterns df' rest
      | Raise e => Raise e
      end
  end.

(** [id_list.index(x) if x in id_list else 999] *)
Fixpoint list_index (x : string) (l : list string) : option nat :=
  match l with
  | [] => None
  | y :: l' => if String.eqb y x then Some 0%nat else S <$> list_index x l'
  end.

Definition sort_key (df : DataFrame) (ids : list string) (r : list (option string)) : nat :=
  match row_id df r with
  | Some v => default 999%nat (list_index v ids)
  | None => 999%nat
  end.

(** Restriction to an ID list and ordering by it.  [sort_values] leaves
    the relative order of rows with the same ID unspecified; here they
    keep their order. *)
Definition filter_id_list (df : DataFrame) (ids : list string) : DataFrame :=
  let kept := select_rows (λ r, cell_isin (row_id df r) ids) df in
  mkDF (columns kept)
       (sort_by (λ a b, (sort_key df ids a <=? sort_key df ids b)%nat) (rows kept)).

(** [apply_filters].  A filter dict without keys returns the table at
    once, as does one whose lists are empty. *)
Definition apply_filters (df : DataFrame) (f : Filters) : result DataFrame :=
  if df_empty df then Ok df
  else
    let excluded :=
      match exclude_description f with
      | [] => Ok df
      | patterns =>
          if has_column "Description" df then exclude_patterns df patterns else Ok df
      end in
    match excluded with
    | Raise e => Raise e
    | Ok df1 =>
        match id_list f with
        | [] => Ok df1
        | ids =>
            if has_column "ID" df1 then Ok (filter_id_list df1 ids)
            else Raise (KeyError "ID")
        end
    end.

(** [pd.DataFrame(columns=['ID', 'Description'])] *)
Definition empty_dataset : DataFrame := mkDF ["ID"; "Description"] [].

(** [series.unique()]: the values in order of first occurrence. *)
Definition unique (l : list string) : list string :=
  rev (foldl (λ acc x, if bool_decide (x ∈ acc) then acc else x :: acc) [] l).

Fixpoint all_ok {A} (l : list (result A)) : option (list A) :=
  match l with
  | [] => Some []
  | Ok a :: l' => cons a <$> all_ok l'
  | Raise _ :: _ => None
  end.

(** [extract_column_values] *)
Definition extract_column_values (sac column : string) (hierarchy numeric : bool)
  : M DataFrame :=
  let* csv_path := find_csv_file sac hierarchy in
  match csv_path with
  | None => ret empty_dataset
  | Some path =>
      let* loaded := load_csv path in
      match loaded with
      | None => ret empty_dataset
      | Some df =>
          if negb (has_column column df) then ret empty_dataset
          else
            let values :=
              filter (λ v, (str_truthy v && str_truthy (str_strip v)
                            && negb (bool_decide (v ∈ ["#"; "Not In Hierarchy"]))) = true)
                     (unique (dropna (col_values df column))) in
            let lexical := sort_by String.leb values in
            let sorted :=
              if numeric then
                match all_ok (int_of_float env <$> values) with
                | Some keys =>
                    snd <$> sort_by (λ a b, a.1 <=? b.1) (zip keys values)
                | None => lexical
                end
              else lexical in
            ret (mkDF ["ID"; "Description"] ((λ v, [Some v; Some v]) <$> sorted))
      end
  end.

(** The column taken as ID when the table has none:
    [[c for c in df.columns if 'ID' in c.upper() or c == df.columns[0]]],
    then its first element. *)
Definition id_candidates (cols : list string) : list string :=
  filter (λ c, (str_contains "ID" (str_upper c)
                || match cols with c0 :: _ => String.eqb c c0 | [] => false end) = true)
         cols.

Definition select_id_column (cols : list string) : option string :=
  head (id_candidates cols).

(** [df.rename(columns={old: 'ID'})] *)
Definition rename_to_id (old : string) (df : DataFrame) : DataFrame :=
  mkDF ((λ c, if String.eqb c old then "ID" else c) <$> columns df) (rows df).

(** The last lines of [load_dimension]: the columns [ID] and
    [Description], without the rows whose ID is NaN. *)
Definition project_dataset (df : DataFrame) : DataFrame :=
  let desc_col := if has_column "Description" df then "Description" else "ID" in
  mkDF ["ID"; "Description"]
       ((λ r, [row_id df r; cell_at (columns df) desc_col r])
          <$> filter (λ r, is_Some (row_id df r)) (rows df)).

Definition is_csv_error (e : exn) : bool :=
  match e with CSVError _ => true | _ => false end.
Definition is_dimension_error (e : exn) : bool :=
  match e with DimensionError _ => true | _ => false end.

(** The part of [load_dimension] that follows the choice of the ID
    column: the pipeline on a table that has an [ID] column. *)
Definition process_dimension (name : string) (hierarchy : bool) (f : Filters)
    (df : DataFrame) : M DataFrame :=
  let* df := lift (remove_unassigned df) in
  let* df := lift (apply_filters df f) in
  let* df := if hierarchy then lift (get_leaf_members df (flt_parent_filter f))
             else ret df in
  let df := match id_list f with
            | [] => df
            | ids => filter_id_list df ids
            end in
  let result := project_dataset df in
  match rows result with
  | [] =>
      let warning_msg := "Dimension " +:+ name +:+ " has 0 members after filtering" in
      logger_warning warning_msg ;; add_warning warning_msg ;; ret result
  | _ :: _ => ret result
  end.

(** [load_dimension] *)
Definition load_dimension (dim : Dimension) : M DataFrame :=
  let name := default "unknown" (dim_name dim) in
  let hierarchy := default true (has_hierarchy dim) in
  if negb (opt_truthy (sac_name dim)) then
    raise (DimensionError ("Dimension '" +:+ name +:+ "' has no sac_name configured"))
  else
    let sac := default EmptyString (sac_name dim) in
    if opt_truthy (extract_column dim) then
      let column := default EmptyString (extract_column dim) in
      try_except (extract_column_values sac column hierarchy (numeric_sort dim))
        (λ _, true)
        (λ e, raise (DimensionError ("Failed to extract column " +:+ column +:+ " for "
                                     +:+ name +:+ ": " +:+ exn_message e)))
    else
      let* csv_path := find_csv_file sac hierarchy in
      match csv_path with
      | None =>
          let warning_msg := "CSV file not found for " +:+ sac in
          logger_warning warning_msg ;; add_warning warning_msg ;; ret empty_dataset
      | Some path =>
          (* [None]: a [CSVError] was caught and recorded *)
          let* loaded :=
            try_except (let* d := load_csv path in ret (Some d)) is_csv_error
              (λ e, add_error (exn_message e) ;; ret None) in
          match loaded with
          | None => ret empty_dataset
          | Some None =>
              let warning_msg := "Could not load CSV for " +:+ sac in
              logger_warning warning_msg ;; add_warning warning_msg ;; ret empty_dataset
          | Some (Some df) =>
              if has_column "ID" df then process_dimension name hierarchy (filters dim) df
              else
                match select_id_column (columns df) with
                | Some original_col =>
                    process_dimension name hierarchy (filters dim)
                      (rename_to_id original_col df)
                | None =>
                    add_error ("No ID column found in " +:+ sac +:+ " (available: "
                               +:+ repr_list env (Some <$> columns df) +:+ ")") ;;
                    ret empty_dataset
                end
          end
      end.

(** ** Workbook assembly *)

(** [range(a, b)] *)
Definition py_range (a b : Z) : list Z := seqZ a (b - a).

(** [_setup_upload_sheet], without the cell styles. *)
Definition _setup_upload_sheet (cols dates : list string) (data_rows : Z) : UploadSheet :=
  mkUpload (cols ++ dates) (length cols)
           (py_range 2 (data_rows + 2)) (py_range 1 (data_rows + 2)) [].

(** [dim_config.get("table_name", f"tbl_{name.lower().replace(' ', '_')}")] *)
Definition table_name_of (dim : Dimension) (name : string) : string :=
  default ("tbl_" +:+ replace_char " " "_" (str_lower name)) (table_name dim).

(** [_setup_dimension_sheet]; [title] is the name given to [create_sheet]. *)
Definition _setup_dimension_sheet (title name : string) (dim : Dimension)
    (data : option DataFrame) : DimensionSheet :=
  let members := match data with Some d => rows d | None => [] end in
  let cols := match data with Some d => columns d | None => [] end in
  mkDimSheet title name
    ((λ r, (cell_at cols "Description" r, cell_at cols "ID" r)) <$> members)
    (match members with
     | [] => None
     | _ :: _ => Some (table_name_of dim name,
                       "A2:B" +:+ fmt_int (Z.of_nat (length members) + 2))
     end).

Definition dquote : string := String (ascii_of_nat 34) EmptyString.

(** The project's default number of data rows:
    [self.project.get("settings", {}).get("data_rows", 200)]. *)
Definition project_data_rows (project : Project) : Z :=
  default 200 (settings_data_rows project).

(** [_add_data_validation] *)
Definition _add_data_validation (project : Project) (ws : UploadSheet)
    (cols : list string) (dimensions : gmap string Dimension) : UploadSheet :=
  let data_rows := project_data_rows project in
  let validations :=
    imap (λ i col_name,
            let dim_config := default empty_dimension (dimensions !! col_name) in
            let col_letter := get_column_letter env (S i) in
            mkDV "list"
                 ("INDIRECT(" +:+ dquote +:+ table_name_of dim_config col_name
                              +:+ "[ID]" +:+ dquote +:+ ")")
                 true
                 ("Please select a valid " +:+ col_name)
                 ("Select " +:+ col_name)
                 (col_letter +:+ "2:" +:+ col_letter +:+ fmt_int (data_rows + 1)))
         cols in
  mkUpload (us_headers ws) (us_dim_columns ws) (us_data_entry_rows ws)
           (us_border_rows ws) (us_validations ws ++ validations).

(** ** Templates *)

(** [{d["name"]: d for d in dimensions]] *)
Fixpoint dimensions_dict (dims : list Dimension) (acc : gmap string Dimension)
  : result (gmap string Dimension) :=
  match dims with
  | [] => Ok acc
  | d :: rest =>
      match dim_name d with
      | Some n => dimensions_dict rest (<[n := d]> acc)
      | None => Raise (KeyError "name")
      end
  end.

Definition with_filters (d : Dimension) (f : Filters) : Dimension :=
  mkDimension (dim_name d) (sac_name d) (has_hierarchy d) f
              (extract_column d) (numeric_sort d) (table_name d).

(** The loop over [dimension_overrides]. *)
Fixpoint apply_overrides (overrides : list (string * Override))
    (dimensions : gmap string Dimension) : M (gmap string Dimension) :=
  match overrides with
  | [] => ret dimensions
  | (name, override) :: rest =>
      match dimensions !! name with
      | Some d =>
          apply_overrides rest
            (<[name := with_filters d (update_filters (filters d) override)]> dimensions)
      | None =>
          let warning_msg := "Override specified for unknown dimension: " +:+ name in
          logger_warning warning_msg ;; add_warning warning_msg ;;
          apply_overrides rest dimensions
      end
  end.

Definition store_dimension (col : string) (d : DataFrame) : M unit :=
  modify (λ st, mkState (errors st) (warnings st) (log_warnings st)
                        (<[col := d]> (dimension_data st)) (date_range st)).

(** The body of the loop that loads the dimensions, for a column that
    is not loaded yet; [dimension_errors] is the list it appends to. *)
Definition load_column (dimensions : gmap string Dimension) (col : string)
    (dimension_errors : list string) : M (list string) :=
  let dim_config := default empty_dimension (dimensions !! col) in
  try_except
    (let* d := load_dimension dim_config in
     store_dimension col d ;;
     ret (match rows d with
          | [] => dimension_errors ++ [col +:+ ": 0 members"]
          | _ :: _ => dimension_errors
          end))
    is_dimension_error
    (λ e, store_dimension col empty_dataset ;;
          ret (dimension_errors ++ [col +:+ ": " +:+ exn_message e])).

(** The loop that loads the dimension of every column. *)
Fixpoint load_columns (dimensions : gmap string Dimension) (cols : list string)
    (dimension_errors : list string) : M (list string) :=
  match cols with
  | [] => ret dimension_errors
  | col :: rest =>
      let* st := get_state in
      match dimension_data st !! col with
      | Some _ => load_columns dimensions rest dimension_errors
      | None =>
          let* errs := load_column dimensions col dimension_errors in
          load_columns dimensions rest errs
      end
  end.

(** The sheets of the workbook of a template, once its dimensions are
    loaded. *)
Definition build_workbook (project : Project) (template : Template)
    (dimensions : gmap string Dimension) (st : GenState) : Workbook :=
  let cols := tpl_columns template in
  let data_rows := default (project_data_rows project) (tpl_data_rows template) in
  let upload := _setup_upload_sheet cols (date_range st) data_rows in
  let sheets :=
    (λ col, _setup_dimension_sheet (str_take 31 col) col
              (default empty_dimension (dimensions !! col))
              (dimension_data st !! col)) <$> cols in
  mkWorkbook (_add_data_validation project upload cols dimensions) sheets.

(** [create_excel] *)
Definition create_excel (project : Project) (dims : list Dimension)
    (template : Template) : M (OperationResult Created) :=
  let template_name := default "Unknown" (tpl_name template) in
  try_except
    (let* dimensions := lift (dimensions_dict dims ∅) in
     let* dimensions := apply_overrides (dimension_overrides template) dimensions in
     let cols := tpl_columns template in
     match cols with
     | [] => raise (TemplateError ("Template '" +:+ template_name
                                   +:+ "' has no columns defined"))
     | _ :: _ =>
         let missing_dims := filter (λ col, dimensions !! col = None) cols in
         match missing_dims with
         | _ :: _ =>
             raise (TemplateError ("Template '" +:+ template_name
                                   +:+ "' references undefined dimensions: "
                                   +:+ repr_list env (Some <$> missing_dims)))
         | [] =>
             let* dimension_errors := load_columns dimensions cols [] in
             match dimension_errors with
             | [] => ret tt
             | _ :: _ =>
                 logger_warning ("Dimension loading issues for " +:+ template_name +:+ ": "
                                 +:+ repr_list env (Some <$> dimension_errors))
             end ;;
             let* st := get_state in
             let wb := build_workbook project template dimensions st in
             match assembly_fault env wb with
             | Some e => raise e
             | None =>
                 let out := default (template_name +:+ ".xlsx") (output_file template) in
                 let output_path := path_join output_dir out in
                 match save env output_path wb with
                 | Some (PermissionError _) =>
                     raise (ExcelGenerationError ("Cannot save " +:+ out
                                                  +:+ " - file may be open in Excel"))
                 | Some e =>
                     raise (ExcelGenerationError ("Failed to save " +:+ out +:+ ": "
                                                  +:+ exn_message e))
                 | None =>
                     ret (op_ok ("Created " +:+ out)
                                (Some (mkCreated output_path cols dimension_errors wb))
                                dimension_errors)
                 end
             end
         end
     end)
    (λ e, negb (is_sac_error e))
    (λ e, raise (ExcelGenerationError ("Unexpected error creating template "
                                       +:+ template_name +:+ ": " +:+ exn_message e))).

(** ** The batch *)

Record SuccessEntry : Type := mkSuccess {
  s_name : string;
  s_path : string;
  s_warnings : list string
}.

Record FailedEntry : Type := mkFailed {
  f_name : string;
  f_error : string
}.

(** The dict [results]. *)
Record Results : Type := mkResults {
  r_success : list SuccessEntry;
  r_failed : list FailedEntry;
  r_warnings : list string
}.

(** The body of the loop [for template in templates]. *)
Definition generate_template (project : Project) (dims : list Dimension)
    (results : Results) (template : Template) : M Results :=
  let name := default "Unnamed" (tpl_name template) in
  set_dimension_data ∅ ;;
  try_except
    (let* result := create_excel project dims template in
     if success result then
       ret (mkResults
              (r_success results
               ++ [mkSuccess name
                     (match data result with
                      | Some d => created_path d
                      | None => EmptyString
                      end)
                     (op_warnings result)])
              (r_failed results)
              (r_warnings results ++ op_warnings result))
     else
       ret (mkResults (r_success results)
              (r_failed results
               ++ [mkFailed name (repr_list env (Some <$> op_errors result))])
              (r_warnings results)))
    (λ _, true)
    (λ e, ret (mkResults (r_success results)
                 (r_failed results ++ [mkFailed name (exn_message e)])
                 (r_warnings results))).

Fixpoint generate_templates (project : Project) (dims : list Dimension)
    (results : Results) (templates : list Template) : M Results :=
  match templates with
  | [] => ret results
  | template :: rest =>
      let* results := generate_template project dims results template in
      generate_templates project dims results rest
  end.

(** The [try] block of [generate] that loads the date range. *)
Definition date_range_step (project : Project) : M unit :=
  try_except
    (load_date_range project ;;
     let* st := get_state in
     match date_range st with
     | [] => add_warning "No date range loaded"
     | _ :: _ => ret tt
     end)
    (λ _, true)
    (λ e, add_warning ("Date range error: " +:+ exn_message e)).

(** The summary at the end of [generate]. *)
Definition summarize (results : Results) : M (OperationResult Results) :=
  let* st := get_state in
  let success_count := Z.of_nat (length (r_success results)) in
  let failed_count := Z.of_nat (length (r_failed results)) in
  match r_failed results with
  | _ :: _ =>
      ret (mkResult
             (match r_success results with [] => ERROR | _ :: _ => WARNING end)
             ("Generated " +:+ fmt_int success_count +:+ ", failed "
              +:+ fmt_int failed_count)
             (Some results)
             (f_error <$> r_failed results)
             (r_warnings results ++ warnings st))
  | [] =>
      ret (op_ok ("Generated " +:+ fmt_int success_count +:+ " template(s)")
                 (Some results)
                 (r_warnings results ++ warnings st))
  end.

(** [generate] *)
Definition generate (project : Project) (dims : list Dimension)
    (all_templates : list Template) (template_name : option string)
  : M (OperationResult Results) :=
  modify (λ st, mkState [] [] (log_warnings st) (dimension_data st) (date_range st)) ;;
  match all_templates with
  | [] =>
      let error_msg := "No templates configured in config/templates.json" in
      ret (op_fail error_msg [])
  | _ :: _ =>
      let selected :=
        if opt_truthy template_name
        then filter (λ t, tpl_name t = template_name) all_templates
        else all_templates in
      match selected with
      | [] =>
          ret (op_fail ("Template '" +:+ default EmptyString template_name +:+ "' not found")
                       ["Available templates: "
                        +:+ repr_list env (tpl_name <$> all_templates)])
      | _ :: _ =>
          date_range_step project ;;
          let* results := generate_templates project dims (mkResults [] [] []) selected in
          summarize results
      end
  end.

End Generator.

(** ** A fragment of the pattern language of [re]

    Patterns made of ordinary characters, the dot, and a backslash
    followed by an ASCII character that is neither a letter nor a digit.
    On ASCII text this is what [re.search] with [re.IGNORECASE] computes
    for such patterns; other patterns are outside the fragment. *)

Inductive re_atom : Type :=
| AChar (c : ascii)
| AAny.

Definition is_ascii_char (c : ascii) : bool := (nat_of_ascii c <? 128)%nat.

Fixpoint is_ascii_str (s : string) : bool :=
  match s with
  | EmptyString => true
  | String c s' => is_ascii_char c && is_ascii_str s'
  end.

(** The characters with a special meaning in a pattern: [.^$*+?{}[]\|()]. *)
Definition is_re_special (c : ascii) : bool :=
  bool_decide (nat_of_ascii c ∈ [46; 94; 36; 42; 43; 63; 123; 125; 91; 93; 92; 124; 40; 41]%nat).

Fixpoint re_parse (s : string) : option (list re_atom) :=
  match s with
  | EmptyString => Some []
  | String c s' =>
      if negb (is_ascii_char c) then None
      else if Ascii.eqb c "."%char then cons AAny <$> re_parse s'
      else if Ascii.eqb c "\"%char then
        match s' with
        | String e s'' =>
            if is_ascii_char e && negb (is_ascii_alnum e)
            then cons (AChar e) <$> re_parse s''
            else None
        | EmptyString => None
        end
      else if is_re_special c then None
      else cons (AChar c) <$> re_parse s'
  end.

(** One character against one atom, ignoring case; the dot matches
    everything but a newline. *)
Definition atom_matches (a : re_atom) (c : ascii) : bool :=
  match a with
  | AChar x => Ascii.eqb (ascii_lower x) (ascii_lower c)
  | AAny => negb (Ascii.eqb c (ascii_of_nat 10))
  end.

Fixpoint atoms_match_at (atoms : list re_atom) (s : string) : bool :=
  match atoms, s with
  | [], _ => true
  | a :: atoms', String c s' => atom_matches a c && atoms_match_at atoms' s'
  | _ :: _, EmptyString => false
  end.

(** A match starting at some position of [s]. *)
Fixpoint atoms_search (atoms : list re_atom) (s : string) : bool :=
  atoms_match_at atoms s
  || match s with
     | EmptyString => false
     | String _ s' => atoms_search atoms s'
     end.

(** An environment implements the fragment when it compiles every
    pattern of the fragment to its search on ASCII text. *)
Definition implements_fragment (env : Env) : Prop :=
  ∀ pattern atoms, re_parse pattern = Some atoms →
    ∃ found, re_compile env pattern = Ok found
             ∧ ∀ s, is_ascii_str s = true → found s = atoms_search atoms s.

(** [Description] contains [pattern], compared without regard to case. *)
Definition contains_ignoring_case (pattern text : string) : bool :=
  str_contains (str_lower pattern) (str_lower text).


(** ** An environment for examples

    Files held in a list, the pattern fragment above, every workbook
    assembled and saved without fault. *)

Fixpoint join_with (sep : string) (l : list string) : string :=
  match l with
  | [] => EmptyString
  | [x] => x
  | x :: l' => x +:+ sep +:+ join_with sep l'
  end.

Fixpoint assoc {A} (k : string) (l : list (string * A)) : option A :=
  match l with
  | [] => None
  | (k', v) :: l' => if String.eqb k' k then Some v else assoc k l'
  end.

Definition example_env (files : list (string * DataFrame)) : Env :=
  mkEnv
    (λ p, bool_decide (is_Some (assoc p files)))
    (λ p, match assoc p files with
          | Some df => ReadOk df
          | None => ReadOtherError "No such file"
          end)
    (λ p, match re_parse p with
          | Some atoms => Ok (atoms_search atoms)
          | None => Raise (OtherError "pattern outside the fragment")
          end)
    py_int
    (λ l, "[" +:+ join_with ", " ((λ o, match o with
                                        | Some s => "'" +:+ s +:+ "'"
                                        | None => "None"
                                        end) <$> l) +:+ "]")
    (λ n, String (ascii_of_nat (64 + n)) EmptyString)
    (λ _, None)
    (λ _ _, None).

(** ** Reference notions for the hierarchy *)

(** [c] is a child of [p]: some row with ID [c] names [p] in one of the
    parent columns. *)
Definition is_child (df : DataFrame) (parent_cols : list string)
    (p c : option string) : Prop :=
  c ∈ all_children df parent_cols p.

(** The IDs below [roots]: children of a root, and children of those. *)
Inductive descendant (df : DataFrame) (parent_cols : list string)
    (roots : gset (option string)) : option string → Prop :=
| desc_of_root p c :
    p ∈ roots → is_child df parent_cols p c → descendant df parent_cols roots c
| desc_of_desc p c :
    descendant df parent_cols roots p → is_child df parent_cols p c →
    descendant df parent_cols roots c.

(** What holds of [(descendants, to_process)] at every iteration. *)
Definition bfs_inv (df : DataFrame) (parent_cols : list string)
    (roots : gset (option string))
    (st : gset (option string) * gset (option string)) : Prop :=
  (∀ x, x ∈ st.1 → descendant df parent_cols roots x)
  ∧ (∀ x, x ∈ st.2 → x ∈ roots ∨ x ∈ st.1)
  ∧ (∀ p c, p ∈ roots ∨ p ∈ st.1 → p ∉ st.2 → is_child df parent_cols p c → c ∈ st.1).

(** A hierarchy with a cycle between [C] and [D]: [R] is the parent of
    [A] and [B], [A] of [C], [C] of [D], and [D] of [C] in the second
    parent column. *)
Definition sample_tree : DataFrame :=
  mkDF ["ID"; "Description"; "H1_PARENTID"; "H2_PARENTID"]
       [ [Some "R"; Some "Root"; None; None];
         [Some "A"; Some "Alpha"; Some "R"; None];
         [Some "B"; Some "Beta"; Some "R"; None];
         [Some "C"; Some "Gamma"; Some "A"; Some "D"];
         [Some "D"; Some "Delta"; Some "C"; None] ].

(** A table without parent columns. *)
Definition sample_flat : DataFrame :=
  mkDF ["ID"; "Description"]
       [ [Some "X"; Some "First"]; [Some "Y"; Some "Second"] ].

(** ** Reference notions for the date range *)


Definition manual_project (first last : string) : Project :=
  mkProject (Some first) (Some last) None None None None.

(** ** Reference notions for the filters *)

(** A row is excluded, in the literal reading: its [Description]
    contains one of the patterns as a substring, case ignored. *)
Definition described_by (patterns : list string) (cols : list string)
    (r : list (option string)) : bool :=
  match cell_at cols "Description" r with
  | Some s => existsb (λ p, contains_ignoring_case p s) patterns
  | None => false
  end.

(** The literal reading of the exclusion in a given environment: every
    pattern removes exactly the rows whose [Description] contains it. *)
Definition literal_exclusion (env : Env) : Prop :=
  ∀ df pattern,
    exclude_pattern env df pattern
    = Ok (select_rows (λ r, negb (described_by [pattern] (columns df) r)) df).

Definition sample_members : DataFrame :=
  mkDF ["ID"; "Description"]
       [ [Some "1"; Some "abc"]; [Some "2"; Some "A.C total"];
         [Some "3"; None]; [Some "4"; Some "xyz"] ].

(** The ordered rule of the specification for the column that stands in
    for a missing [ID]: a column whose name contains "ID", else the
    first column. *)
Definition id_column_by_rule (cols : list string) : option string :=
  match List.find (λ c, str_contains "ID" (str_upper c)) cols with
  | Some c => Some c
  | None => head cols
  end.

(** ** Reference notions for the batch *)

(** None of the files [find_csv_file] looks for exists. *)
Definition csv_missing (env : Env) (sac : string) : Prop :=
  ∀ name, name ∈ [sac +:+ "MasterWithHierarchy.csv"; sac +:+ "Master.csv"; sac +:+ ".csv"] →
    path_exists env (path_join downloads_dir name) = false.

(** The pattern compiles. *)
Definition compiles (env : Env) (pattern : string) : Prop :=
  ∃ found, re_compile env pattern = Ok found.

(** The exclusion patterns of a filter spec compile. *)
Definition filters_compile (env : Env) (f : Filters) : Prop :=
  ∀ p, p ∈ exclude_description f → compiles env p.

(** The exclusion patterns a template can meet compile: those of the
    dimensions and those of its overrides. *)
Definition template_patterns_compile (env : Env) (dmap : gmap string Dimension)
    (t : Template) : Prop :=
  (∀ k d, dmap !! k = Some d → filters_compile env (filters d))
  ∧ (∀ name o ps p, (name, o) ∈ dimension_overrides t →
       ov_exclude_description o = Some ps → p ∈ ps → compiles env p).

(** The workbook is assembled and saved without fault. *)
Definition workbook_written (env : Env) : Prop :=
  (∀ wb, assembly_fault env wb = None) ∧ (∀ path wb, save env path wb = None).

(** The message of the [TemplateError] of a template without columns, or
    with columns that are no keys of the dimensions [dmap]. *)
Definition structural_error (env : Env) (dmap : gmap string Dimension) (t : Template)
  : option string :=
  let template_name := default "Unknown" (tpl_name t) in
  match tpl_columns t with
  | [] => Some ("Template '" +:+ template_name +:+ "' has no columns defined")
  | cols =>
      match filter (λ col, dmap !! col = None) cols with
      | [] => None
      | missing =>
          Some ("Template '" +:+ template_name +:+ "' references undefined dimensions: "
                +:+ repr_list env (Some <$> missing))
      end
  end.

(** Two states with the same loaded dimensions and the same date range;
    they may differ in the recorded errors, warnings and log. *)
Definition same_data (st1 st2 : GenState) : Prop :=
  dimension_data st1 = dimension_data st2 ∧ date_range st1 = date_range st2.

(** A computation whose outcome depends on the state only through the
    loaded dimensions and the date range. *)
Definition respects {A} (c : M A) : Prop :=
  ∀ st1 st2, same_data st1 st2 →
    (c st1).1 = (c st2).1 ∧ same_data (c st1).2 (c st2).2.

Definition same_dates (st1 st2 : GenState) : Prop :=
  date_range st1 = date_range st2.

(** A computation whose final state is related by [R] to the state it
    starts in. *)
Definition preserves (R : relation GenState) {A} (c : M A) : Prop :=
  ∀ st, R st (c st).2.

(** A computation that raises only exceptions satisfying [P]. *)
Definition only_raises {A} (P : exn → bool) (c : M A) : Prop :=
  ∀ st e, (c st).1 = Raise e → P e = true.

Definition never (e : exn) : bool := false.

(** The state in which one template of a batch is generated, as far as
    its outcome depends on it. *)
Definition fresh_state (dates : list string) : GenState := mkState [] [] [] ∅ dates.

(** The entry a template contributes to the results when generated on
    its own: a success entry or a failure entry. *)
Definition template_entry (env : Env) (project : Project) (dims : list Dimension)
    (dates : list string) (t : Template) : option (SuccessEntry + FailedEntry) :=
  match (generate_template env project dims (mkResults [] [] []) t (fresh_state dates)).1 with
  | Ok (mkResults [s] [] _) => Some (inl s)
  | Ok (mkResults [] [f] _) => Some (inr f)
  | _ => None
  end.

Definition entry_success (e : option (SuccessEntry + FailedEntry)) : option SuccessEntry :=
  match e with Some (inl s) => Some s | _ => None end.
Definition entry_failed (e : option (SuccessEntry + FailedEntry)) : option FailedEntry :=
  match e with Some (inr f) => Some f | _ => None end.

Definition sample_project : Project :=
  mkProject (Some "202501") (Some "202503") None None None None.

Definition product_dimension : Dimension :=
  mkDimension (Some "Product") (Some "Product") None no_filters None false None.
Definition region_dimension : Dimension :=
  mkDimension (Some "Region") (Some "Region") (Some false) no_filters None false None.

Definition sample_files : list (string * DataFrame) :=
  [("downloads/RegionMaster.csv",
    mkDF ["ID"; "Description"] [ [Some "N"; Some "North"]; [Some "S"; Some "South"] ])].

Definition sample_template : Template :=
  mkTemplate (Some "Sales") ["Region"; "Product"] [] None None.
Definition empty_template : Template :=
  mkTemplate (Some "Empty") [] [] None None.
Definition undefined_template : Template :=
  mkTemplate (Some "Undefined") ["Region"; "Channel"] [] None None.

(** ** Downloading the source files

    The download commands of [SACGenerator]: [get_browser_cookies],
    [build_download_url], [download_dimension], [download_version] and
    [download_all].  They read the section [sac_connection] of
    [project.json], talk to the tenant through [requests] and write the
    files [find_csv_file] looks for.  The log and the console output are
    not modelled. *)

(** [old in s] is [str_contains]; [s.replace(old, new)] for a pattern
    [old] that is not empty replaces its occurrences from left to
    right, an occurrence starting only after the previous one has ended.
    [skip] counts the characters of an occurrence still to be passed. *)
Fixpoint replace_from (old new : string) (skip : nat) (s : string) : string :=
  match s with
  | EmptyString => EmptyString
  | String c s' =>
      match skip with
      | S k => replace_from old new k s'
      | O =>
          if String.prefix old s
          then new +:+ replace_from old new (String.length old - 1) s'
          else String c (replace_from old new 0 s')
      end
  end.

Definition str_replace (old new s : string) : string := replace_from old new 0 s.

(** [s.split(sep)[0]] for a separator of one character. *)
Fixpoint before_char (sep : ascii) (s : string) : string :=
  match s with
  | EmptyString => EmptyString
  | String c s' => if Ascii.eqb c sep then EmptyString else String c (before_char sep s')
  end.

(** [project.json], section [sac_connection]; an absent key reads as the
    empty string. *)
Record Connection : Type := mkConnection {
  base_url : option string;
  model_id : option string;
  version_model_id : option string
}.

(** The exception the download commands let escape.  Every other
    exception is caught where it is raised. *)
Inductive outcome (A : Type) : Type :=
| Returned (a : A)
| ConfigurationError (message : string).
Arguments Returned {A} a.
Arguments ConfigurationError {A} message.

(** A cookie jar: names and values. *)
Definition CookieJar : Type := list (string * string).

Inductive browser : Type := Chrome | Edge | Firefox.

(** What [requests.get] does: a response, or one of the exceptions the
    code tells apart, with the text [str(e)] of the exception. *)
Inductive http_outcome : Type :=
| Response (status_code : Z) (reason : string) (content : string)
| TimedOut (text : string)
| ConnectionFailed (text : string)
| RequestFailed (text : string).

(** What the download commands obtain from outside. *)
Record Web : Type := mkWeb {
  (** [BROWSER_COOKIES_AVAILABLE] *)
  browser_cookies_available : bool;
  (** [browser_cookie3.chrome(domain_name=domain)] and its siblings;
      [None] when the call raises *)
  browser_cookies : browser → string → option CookieJar;
  (** [requests.get(url, cookies=cookies, timeout=60)] *)
  http_get : string → CookieJar → http_outcome;
  (** [open(filepath, 'wb')] raising, with the text of the exception; a
      file that opens is written completely *)
  open_fault : string → option string
}.

(** The files on disk are a map from paths to contents. *)

(** [get_browser_cookies] *)
Definition get_browser_cookies (web : Web) (conn : Connection) : outcome (option CookieJar) :=
  if negb (browser_cookies_available web) then Returned None
  else
    let url := default EmptyString (base_url conn) in
    if negb (str_truthy url)
    then ConfigurationError "SAC base_url not configured in project.json"
    else
      let domain :=
        before_char "/" (str_replace "http://" EmptyString
                           (str_replace "https://" EmptyString url)) in
      Returned (head (omap (λ b, browser_cookies web b domain) [Chrome; Edge; Firefox])).

Definition suffix_of (hierarchy : bool) : string :=
  if hierarchy then "MasterWithHierarchy" else "Master".

(** [build_download_url] *)
Definition build_download_url (conn : Connection) (sac : string) (hierarchy : bool)
  : outcome string :=
  let url := default EmptyString (base_url conn) in
  let model := default EmptyString (model_id conn) in
  if negb (str_truthy url) || negb (str_truthy model)
  then ConfigurationError "SAC connection not fully configured"
  else Returned (url +:+ "/api/v1/dataexport/providers/sac/" +:+ model +:+ "/"
                 +:+ sac +:+ suffix_of hierarchy +:+ "?$format=text/csv").

(** The [data] of the result of [download_dimension]. *)
Record Downloaded : Type := mkDownloaded {
  dl_path : string;
  dl_size : Z
}.

(** [download_dimension] *)
Definition download_dimension (web : Web) (conn : Connection) (sac : string)
    (hierarchy : bool) (cookies : CookieJar) (disk : gmap string string)
  : outcome (OperationResult Downloaded) * gmap string string :=
  match build_download_url conn sac hierarchy with
  | ConfigurationError m => (ConfigurationError m, disk)
  | Returned url =>
      let filename := sac +:+ suffix_of hierarchy +:+ ".csv" in
      let filepath := path_join downloads_dir filename in
      match http_get web url cookies with
      | Response code reason content =>
          if code =? 200 then
            let size := Z.of_nat (String.length content) in
            if size <? 10 then
              (Returned (op_ok ("Downloaded " +:+ filename +:+ " (warning: only "
                                +:+ fmt_int size +:+ " bytes)")
                               None
                               ["File is very small (" +:+ fmt_int size +:+ " bytes)"]),
               disk)
            else
              match open_fault web filepath with
              | Some text =>
                  (Returned (op_fail ("Unexpected error downloading " +:+ sac +:+ ": "
                                      +:+ text) []),
                   disk)
              | None =>
                  (Returned (op_ok ("Downloaded " +:+ filename)
                                   (Some (mkDownloaded filepath size)) []),
                   <[filepath := content]> disk)
              end
          else if code =? 401 then
            (Returned (op_fail ("Authentication failed for " +:+ sac
                                +:+ " - cookies may have expired") []), disk)
          else if code =? 403 then
            (Returned (op_fail ("Access denied for " +:+ sac
                                +:+ " - check your SAC permissions") []), disk)
          else if code =? 404 then
            (Returned (op_fail ("Dimension " +:+ sac
                                +:+ " not found - check dimension name and model ID") []),
             disk)
          else
            (Returned (op_fail ("HTTP " +:+ fmt_int code +:+ ": " +:+ reason) []), disk)
      | TimedOut _ =>
          (Returned (op_fail ("Timeout downloading " +:+ sac
                              +:+ " - SAC may be slow or unreachable") []), disk)
      | ConnectionFailed _ =>
          (Returned (op_fail ("Connection error for " +:+ sac
                              +:+ " - check network and SAC URL") []), disk)
      | RequestFailed text =>
          (Returned (op_fail ("Unexpected error downloading " +:+ sac +:+ ": " +:+ text) []),
           disk)
      end
  end.

(** [download_version] *)
Definition download_version (web : Web) (conn : Connection) (cookies : CookieJar)
    (disk : gmap string string) : OperationResult unit * gmap string string :=
  let url := default EmptyString (base_url conn) in
  let version_model := default EmptyString (version_model_id conn) in
  if negb (str_truthy version_model) then
    (op_ok "Skipped Version download (not configured)" None ["version_model_id not set"],
     disk)
  else
    let filepath := path_join downloads_dir "VersionMaster.csv" in
    match http_get web (url +:+ "/api/v1/dataexport/providers/sac/" +:+ version_model
                        +:+ "/VersionMaster?$format=text/csv") cookies with
    | Response code reason content =>
        if code =? 200 then
          match open_fault web filepath with
          | Some text => (op_fail ("Error downloading Version: " +:+ text) [], disk)
          | None => (op_ok "Downloaded VersionMaster.csv" None [],
                     <[filepath := content]> disk)
          end
        else (op_fail ("HTTP " +:+ fmt_int code +:+ " downloading Version") [], disk)
    | TimedOut text | ConnectionFailed text | RequestFailed text =>
        (op_fail ("Error downloading Version: " +:+ text) [], disk)
    end.

(** The dict [results] of [download_all]. *)
Record DownloadResults : Type := mkDownloads {
  d_success : list string;
  d_failed : list (string * string);
  d_warnings : list string
}.

(** The key under which a dimension is collected:
    [f"{sac_name}_{has_hierarchy}"]. *)
Definition download_key (sac : string) (hierarchy : bool) : string :=
  sac +:+ "_" +:+ (if hierarchy then "True" else "False").

(** The loop that collects the dimensions to download, on the dict
    [dimensions_to_download], kept in insertion order, and the list of
    warnings. *)
Fixpoint collect_downloads (dims : list Dimension)
    (acc : list (string * (string * bool))) (ws : list string)
  : list (string * (string * bool)) * list string :=
  match dims with
  | [] => (acc, ws)
  | dim :: rest =>
      if negb (opt_truthy (sac_name dim)) then
        collect_downloads rest acc
          (ws ++ ["Dimension '" +:+ default "unknown" (dim_name dim) +:+ "' has no sac_name"])
      else
        let sac := default EmptyString (sac_name dim) in
        let hierarchy := default true (has_hierarchy dim) in
        let key := download_key sac hierarchy in
        if bool_decide (key ∈ acc.*1) then collect_downloads rest acc ws
        else collect_downloads rest (acc ++ [(key, (sac, hierarchy))]) ws
  end.

(** The loop that downloads the collected dimensions. *)
Fixpoint download_each (web : Web) (conn : Connection) (cookies : CookieJar)
    (todo : list (string * bool)) (results : DownloadResults) (disk : gmap string string)
  : outcome DownloadResults * gmap string string :=
  match todo with
  | [] => (Returned results, disk)
  | (sac, hierarchy) :: rest =>
      match download_dimension web conn sac hierarchy cookies disk with
      | (ConfigurationError m, disk') => (ConfigurationError m, disk')
      | (Returned result, disk') =>
          download_each web conn cookies rest
            (if success result
             then mkDownloads (d_success results ++ [sac]) (d_failed results)
                              (d_warnings results ++ op_warnings result)
             else mkDownloads (d_success results)
                              (d_failed results ++ [(sac, message result)])
                              (d_warnings results))
            disk'
      end
  end.

(** [download_all] *)
Definition download_all (web : Web) (conn : Connection) (dims : list Dimension)
    (disk : gmap string string) : outcome (OperationResult DownloadResults) * gmap string string :=
  let url := default EmptyString (base_url conn) in
  if str_contains "YOUR-TENANT" url || negb (str_truthy url) then
    (Returned (op_fail "SAC connection not configured in project.json" []), disk)
  else
    match get_browser_cookies web conn with
    | ConfigurationError m => (Returned (op_fail m []), disk)
    | Returned None => (Returned (op_fail "Cannot proceed without browser cookies" []), disk)
    | Returned (Some cookies) =>
        let '(to_download, ws) := collect_downloads dims [] [] in
        match to_download with
        | [] => (Returned (op_fail "No dimensions configured" []), disk)
        | _ :: _ =>
            match download_each web conn cookies to_download.*2
                    (mkDownloads [] [] ws) disk with
            | (ConfigurationError m, disk') => (ConfigurationError m, disk')
            | (Returned downloaded, disk') =>
                let '(version_result, disk'') := download_version web conn cookies disk' in
                let results :=
                  mkDownloads (d_success downloaded) (d_failed downloaded)
                              (d_warnings downloaded ++ op_warnings version_result) in
                let success_count := Z.of_nat (length (d_success results)) in
                let failed_count := Z.of_nat (length (d_failed results)) in
                match d_failed results with
                | _ :: _ =>
                    (Returned (mkResult WARNING
                                 ("Downloaded " +:+ fmt_int success_count +:+ ", failed "
                                  +:+ fmt_int failed_count)
                                 (Some results) (snd <$> d_failed results)
                                 (d_warnings results)),
                     disk'')
                | [] =>
                    (Returned (op_ok ("Downloaded all " +:+ fmt_int success_count
                                      +:+ " dimensions")
                                     (Some results) (d_warnings results)),
                     disk'')
                end
            end
        end
    end.

(** ** Validating the configuration *)

(** [d[k] = v] on a dict kept in insertion order: a key that is present
    keeps its place. *)
Fixpoint dict_set {A : Type} (k : string) (v : A) (d : list (string * A))
  : list (string * A) :=
  match d with
  | [] => [(k, v)]
  | (k', v') :: d' =>
      if String.eqb k' k then (k, v) :: d' else (k', v') :: dict_set k v d'
  end.

(** [{d["name"]: d for d in dimensions}] as [validate_config] iterates
    over it: in insertion order. *)
Fixpoint named_dimensions (dims : list Dimension) (acc : list (string * Dimension))
  : result (list (string * Dimension)) :=
  match dims with
  | [] => Ok acc
  | d :: rest =>
      match dim_name d with
      | Some n => named_dimensions rest (dict_set n d acc)
      | None => Raise (KeyError "name")
      end
  end.

(** The lists [errors] and [warnings] that [validate_config] prints. *)
Record Validation : Type := mkValidation {
  v_errors : list string;
  v_warnings : list string
}.

(** The last line it prints. *)
Inductive Verdict : Type := AllValid | ValidWithWarnings | HasErrors.

Definition verdict (v : Validation) : Verdict :=
  match v_errors v, v_warnings v with
  | [], [] => AllValid
  | [], _ :: _ => ValidWithWarnings
  | _ :: _, _ => HasErrors
  end.

(** [validate_config] *)
Definition validate_config (env : Env) (conn : Connection) (dims : list Dimension)
    (templates : list Template) : result Validation :=
  let url := default EmptyString (base_url conn) in
  let errors1 :=
    if str_contains "YOUR-TENANT" url || negb (str_truthy url)
    then ["project.json: base_url not configured"] else [] in
  let model := default EmptyString (model_id conn) in
  let errors2 :=
    if str_contains "YOUR_MODEL_ID" model || negb (str_truthy model)
    then ["project.json: model_id not configured"] else [] in
  match named_dimensions dims [] with
  | Raise e => Raise e
  | Ok dimensions =>
      let warnings1 :=
        match dimensions with
        | [] => ["dimensions.json: No dimensions defined"]
        | _ :: _ => []
        end in
      let warnings2 :=
        match templates with
        | [] => ["templates.json: No templates defined"]
        | _ :: _ => []
        end in
      let errors3 :=
        templates ≫= (λ template,
          let name := default "Unnamed" (tpl_name template) in
          (λ col, "Template '" +:+ name +:+ "': Dimension '" +:+ col
                  +:+ "' not found in dimensions.json")
            <$> filter (λ col, col ∉ dimensions.*1) (tpl_columns template)) in
      let warnings3 :=
        dimensions.*2 ≫= (λ dim,
          let csv_file :=
            default "None" (sac_name dim)
            +:+ suffix_of (default true (has_hierarchy dim)) +:+ ".csv" in
          if path_exists env (path_join downloads_dir csv_file) then []
          else ["CSV not found: " +:+ csv_file +:+ " (for dimension '"
                +:+ default EmptyString (dim_name dim) +:+ "')"]) in
      Ok (mkValidation (errors1 ++ errors2 ++ errors3)
                       (warnings1 ++ warnings2 ++ warnings3))
  end.

(** ** Scanning the downloaded files *)

(** [s.title()] on ASCII text: a letter is upper case after a character
    that is no letter, lower case after a letter. *)
Fixpoint title_from (after_letter : bool) (s : string) : string :=
  match s with
  | EmptyString => EmptyString
  | String c s' =>
      String (if after_letter then ascii_lower c else ascii_upper c)
             (title_from (is_upper c || is_lower c) s')
  end.

Definition str_title (s : string) : string := title_from false s.

(** The source name read off a file name. *)
Definition scanned_sac_name (csv_file : string) : string :=
  str_replace ".csv" EmptyString
    (str_replace "Master.csv" EmptyString
       (str_replace "MasterWithHierarchy.csv" EmptyString csv_file)).

(** The dimension [scan_csv_files] suggests for a file. *)
Definition suggest_dimension (csv_file : string) : Dimension :=
  let hierarchy := str_contains "WithHierarchy" csv_file in
  let sac := scanned_sac_name csv_file in
  mkDimension
    (Some (str_title (replace_char "_" " " (str_replace "COL_" EmptyString sac))))
    (Some sac) (Some hierarchy) no_filters None false
    (Some ("tbl_" +:+ str_replace "col_" EmptyString (str_lower sac))).

(** [scan_csv_files], for the listing of the downloads folder and the
    answer typed at the prompt: the dimensions it saves, if it saves.
    [readable] tells whether the two reads of a file succeed; a file
    that cannot be read is reported and left out. *)
Definition scan_csv_files (listing : list string) (readable : string → bool)
    (response : string) : option (list Dimension) :=
  let csv_files := filter (λ f, ends_with ".csv" f = true) listing in
  match csv_files with
  | [] => None
  | _ :: _ =>
      let suggested :=
        omap (λ csv_file,
                if String.eqb (scanned_sac_name csv_file) "Version" then None
                else if readable (path_join downloads_dir csv_file)
                     then Some (suggest_dimension csv_file)
                     else None)
             (sort_by String.leb csv_files) in
      if String.eqb (str_lower response) "y" then Some suggested else None
  end.

(** ** Reference notions for the downloads *)

(** The environment [env] when the files are those of [disk]. *)
Definition on_disk (env : Env) (disk : gmap string string) : Env :=
  mkEnv (λ p, bool_decide (is_Some (disk !! p)))
        (read_csv env) (re_compile env) (int_of_float env) (repr_list env)
        (get_column_letter env) (assembly_fault env) (save env).

(** The dimensions [download_all] has to download: source name and
    hierarchy flag of every dimension with a source name. *)
Definition wanted_downloads (dims : list Dimension) : list (string * bool) :=
  omap (λ dim, if opt_truthy (sac_name dim)
               then Some (default EmptyString (sac_name dim),
                          default true (has_hierarchy dim))
               else None) dims.

(** A tenant that serves one table and knows no other, with a browser
    that is logged in. *)
Definition sample_web : Web :=
  mkWeb true
        (λ b _, match b with Edge => Some [("session", "1")] | _ => None end)
        (λ url _,
           if String.eqb url
                "https://t.example/api/v1/dataexport/providers/sac/M1/RegionMaster?$format=text/csv"
           then Response 200 "OK" "ID,Description,N,North,S,South"
           else if String.eqb url
                "https://t.example/api/v1/dataexport/providers/sac/M1/EmptyMaster?$format=text/csv"
           then Response 200 "OK" "ID"
           else Response 404 "Not Found" EmptyString)
        (λ _, None).

Definition sample_connection : Connection :=
  mkConnection (Some "https://t.example") (Some "M1") None.

(** What the result [r] of [download_all] says of a run that came to
    download: every wanted pair of source name and flag was tried once;
    [results] counts each as a success or a failure; the Version
    download adds a warning only when no version model is configured. *)
Definition reports_downloads (web : Web) (conn : Connection) (dims : list Dimension)
    (disk : gmap string string) (r : OperationResult DownloadResults)
    (disk' : gmap string string) (results : DownloadResults) : Prop :=
  ∃ cookies todo downloaded disk1,
    get_browser_cookies web conn = Returned (Some cookies)
    ∧ todo ≠ [] ∧ NoDup todo ∧ (∀ p, p ∈ todo ↔ p ∈ wanted_downloads dims)
    ∧ download_each web conn cookies todo
        (mkDownloads [] []
           ((λ dim, "Dimension '" +:+ default "unknown" (dim_name dim)
                    +:+ "' has no sac_name")
              <$> filter (λ dim, opt_truthy (sac_name dim) = false) dims))
        disk
      = (Returned downloaded, disk1)
    ∧ disk' = (download_version web conn cookies disk1).2
    ∧ d_success results = d_success downloaded
    ∧ d_failed results = d_failed downloaded
    ∧ d_warnings results
      = d_warnings downloaded
        ++ (if opt_truthy (version_model_id conn) then []
            else ["version_model_id not set"])
    ∧ (length (d_success results) + length (d_failed results) = length todo)%nat
    ∧ op_errors r = (d_failed results).*2
    ∧ op_warnings r = d_warnings results
    ∧ (status r = SUCCESS ↔ d_failed results = [] ∧ d_warnings results = []).

(** ** Reference notions for unreadable files *)

(** An environment whose only file, [downloads/RegionMaster.csv], is
    present and empty: [read_csv] fails on it with [EmptyDataError]. *)
Definition empty_file_env : Env :=
  mkEnv
    (λ p, String.eqb p "downloads/RegionMaster.csv")
    (λ _, ReadEmptyData)
    (re_compile (example_env []))
    py_int
    (repr_list (example_env []))
    (get_column_letter (example_env []))
    (λ _, None)
    (λ _ _, None).

(** A dimension whose values are those of a column of the source table. *)
Definition extracted_dimension : Dimension :=
  mkDimension (Some "Country") (Some "Region") (Some false) no_filters
              (Some "Country") false None.

(** A source table with an unassigned member and a member without ID. *)
Definition unassigned_files : list (string * DataFrame) :=
  [("downloads/RegionMaster.csv",
    mkDF ["ID"; "Description"]
         [ [Some "#"; Some "Unassigned"]; [Some "N"; Some "North"];
           [None; Some "Nowhere"] ])].

(** * Properties *)

(** ** The parent-subtree traversal *)

Lemma bfs_step_decreases df parent_cols st st' :
  bfs_step df parent_cols st st' → (bfs_measure df st' < bfs_measure df st)%nat.
Proof.
  destruct st as [d w]. intros (current & Hin & ->). simpl in *.
  by apply expand_decreases.
Qed.

Lemma bfs_step_wf df parent_cols : well_founded (flip (bfs_step df parent_cols)).
Proof.
  apply (well_founded_lt_compat _ (bfs_measure df)).
  intros st' st. apply bfs_step_decreases.
Qed.

(** The loop performs iterations of the step relation until nothing is
    pending. *)
Lemma bfs_loop_run df parent_cols st :
  rtc (bfs_step df parent_cols) st (bfs_loop df parent_cols st, ∅).
Proof.
  funelim (bfs_loop df parent_cols st).
  - clear H Heqcall. destruct st as [d w]; simpl in *.
    apply elements_empty_inv in e. apply leibniz_equiv in e. subst w.
    apply rtc_refl.
  - eapply rtc_l; [|exact H].
    exists current. split; [|done].
    apply elem_of_elements. rewrite Hel. left.
Qed.

Lemma bfs_inv_init df parent_cols roots : bfs_inv df parent_cols roots (∅, roots).
Proof. repeat split; simpl; set_solver. Qed.

Lemma bfs_inv_step df parent_cols roots st st' :
  bfs_inv df parent_cols roots st → bfs_step df parent_cols st st' →
  bfs_inv df parent_cols roots st'.
Proof.
  destruct st as [d w]. intros (I1 & I2 & I3) (current & Hin & ->).
  simpl in *. rewrite expand_spec. unfold bfs_inv; simpl.
  assert (Hcur : ∀ c, c ∈ all_children df parent_cols current →
                      descendant df parent_cols roots c).
  { intros c Hc. destruct (I2 _ Hin) as [Hr|Hd].
    - by eapply desc_of_root.
    - eapply desc_of_desc; [by apply I1|done]. }
  split; [|split].
  - intros x [Hx|Hx%elem_of_list_to_set]%elem_of_union; auto.
  - intros x [[Hx _]%elem_of_difference|[Hx _]%elem_of_difference]%elem_of_union.
    + destruct (I2 _ Hx); [by left|right; set_solver].
    + right. set_solver.
  - intros p c Hp Hnot Hc.
    destruct (decide (p = current)) as [->|Hne].
    { apply elem_of_union. right. by apply elem_of_list_to_set. }
    assert (Hpw : p ∉ w) by set_solver.
    destruct (decide (p ∈ d)) as [Hpd|Hpd].
    { apply elem_of_union. left. apply (I3 p c); [by right|done|done]. }
    destruct Hp as [Hp|Hp].
    { apply elem_of_union. left. apply (I3 p c); [by left|done|done]. }
    exfalso. apply Hnot. set_solver.
Qed.

Lemma bfs_inv_rtc df parent_cols roots st st' :
  bfs_inv df parent_cols roots st → rtc (bfs_step df parent_cols) st st' →
  bfs_inv df parent_cols roots st'.
Proof. intros Hinv Hrtc. induction Hrtc; eauto using bfs_inv_step. Qed.

Lemma bfs_inv_final df parent_cols roots d x :
  bfs_inv df parent_cols roots (d, ∅) →
  x ∈ d ↔ descendant df parent_cols roots x.
Proof.
  intros (I1 & I2 & I3); simpl in *. split; [by apply I1|].
  induction 1 as [p c Hp Hc|p c Hp IH Hc].
  - apply (I3 p c); [by left|set_solver|done].
  - apply (I3 p c); [by right|set_solver|done].
Qed.

(** Whatever the order in which pending IDs are popped, a run that ends
    leaves in [descendants] exactly the IDs below the roots. *)
Lemma bfs_run_descendants df parent_cols roots d x :
  rtc (bfs_step df parent_cols) (∅, roots) (d, ∅) →
  x ∈ d ↔ descendant df parent_cols roots x.
Proof.
  intros Hrun. apply bfs_inv_final.
  eapply bfs_inv_rtc; [apply bfs_inv_init|done].
Qed.

Lemma descendants_spec df parent_cols roots x :
  x ∈ descendants df parent_cols roots ↔ descendant df parent_cols roots x.
Proof. apply bfs_run_descendants, bfs_loop_run. Qed.

(** C4.  For every table, cyclic or not, the parent-subtree traversal
    ends: no infinite sequence of iterations of [while to_process] exists,
    whatever element [pop] returns; an ID that is already in
    [descendants] is not made pending again by an iteration; and the loop
    started from the roots reaches a state with nothing pending. *)
Theorem bfs_terminates df parent_cols :
  well_founded (flip (bfs_step df parent_cols))
  ∧ (∀ st st' x, bfs_step df parent_cols st st' →
       x ∈ st.1 → x ∈ st'.2 → x ∈ st.2)
  ∧ (∀ roots, rtc (bfs_step df parent_cols) (∅, roots)
                  (descendants df parent_cols roots, ∅)).
Proof.
  split; [apply bfs_step_wf|split].
  - intros [d w] st' x (current & Hin & ->) Hd; simpl in *.
    rewrite expand_spec; simpl. set_solver.
  - intros roots. apply bfs_loop_run.
Qed.

Lemma bfs_terminates_witness :
  rtc (bfs_step sample_tree (find_parent_columns sample_tree))
      (∅, {[Some "A"]})
      (descendants sample_tree (find_parent_columns sample_tree) {[Some "A"]}, ∅).
Proof.
  exact (proj2 (proj2 (bfs_terminates sample_tree (find_parent_columns sample_tree)))
               {[Some "A"]}).
Defined.

Example descendants_cycle :
  elements (descendants sample_tree (find_parent_columns sample_tree) {[Some "A"]})
  = [Some "D"; Some "C"].
Proof. vm_compute. reflexivity. Qed.

(** C3, as stated: running the traversal again from its own result gives
    the same set.  It does not: below [R] are [A], [B], [C] and [D], and
    below those only [C] and [D], since the roots themselves are not part
    of the result. *)
Lemma descendants_not_idempotent :
  ¬ (∀ df parent_cols roots,
       descendants df parent_cols (descendants df parent_cols roots)
       = descendants df parent_cols roots).
Proof.
  intros H.
  specialize (H sample_tree (find_parent_columns sample_tree) {[Some "R"]}).
  apply (f_equal elements) in H. vm_compute in H. discriminate H.
Qed.

(** A run started with some IDs already in [descendants] keeps them and
    adds only IDs below the pending ones. *)
Lemma bfs_loop_from df parent_cols d0 w0 x :
  (x ∈ d0 → x ∈ bfs_loop df parent_cols (d0, w0))
  ∧ (x ∈ bfs_loop df parent_cols (d0, w0) →
     x ∈ d0 ∨ descendant df parent_cols w0 x).
Proof.
  pose (J := λ st : gset (option string) * gset (option string),
          d0 ⊆ st.1
          ∧ (∀ y, y ∈ st.1 → y ∈ d0 ∨ descendant df parent_cols w0 y)
          ∧ (∀ y, y ∈ st.2 → y ∈ w0 ∨ descendant df parent_cols w0 y)).
  assert (Hinit : J (d0, w0)) by (split; [done|split; intros y Hy; by left]).
  assert (Hstep : ∀ st st', J st → bfs_step df parent_cols st st' → J st').
  { intros [d w] st' (Hsub & Hd & Hw) (current & Hin & ->). simpl in *.
    rewrite expand_spec.
    assert (Hchild : ∀ y, y ∈ all_children df parent_cols current →
                          descendant df parent_cols w0 y).
    { intros y Hy. destruct (Hw current Hin) as [Hroot|Hdesc].
      - by eapply desc_of_root.
      - by eapply desc_of_desc. }
    split; simpl; [set_solver|]. split.
    - intros y [Hy|Hy%elem_of_list_to_set]%elem_of_union; [by apply Hd|].
      right. by apply Hchild.
    - intros y [[Hy _]%elem_of_difference|[Hy%elem_of_list_to_set _]%elem_of_difference]%elem_of_union.
      + by apply Hw.
      + right. by apply Hchild. }
  assert (Hfinal : J (bfs_loop df parent_cols (d0, w0), ∅)).
  { pose proof (bfs_loop_run df parent_cols (d0, w0)) as Hrun.
    induction Hrun; eauto. }
  destruct Hfinal as (Hsub & Hd & _); simpl in *. split; [by apply Hsub|by apply Hd].
Qed.

(** C3, amended.  The result is closed: running the traversal again from
    its own result discovers no ID outside it, so the union of the two is
    the result itself; and the loop started again with the result both
    as [descendants] and as [to_process] ends with the same set. *)
Theorem descendants_closed df parent_cols roots :
  descendants df parent_cols (descendants df parent_cols roots)
    ⊆ descendants df parent_cols roots
  ∧ descendants df parent_cols roots
      ∪ descendants df parent_cols (descendants df parent_cols roots)
    = descendants df parent_cols roots
  ∧ bfs_loop df parent_cols
      (descendants df parent_cols roots, descendants df parent_cols roots)
    = descendants df parent_cols roots.
Proof.
  assert (Hsub : descendants df parent_cols (descendants df parent_cols roots)
                 ⊆ descendants df parent_cols roots).
  { intros x Hx. apply descendants_spec in Hx. apply descendants_spec.
    induction Hx as [p c Hp Hc|p c Hp IH Hc].
    - apply descendants_spec in Hp. by eapply desc_of_desc.
    - by eapply desc_of_desc. }
  split; [done|]. split; [apply leibniz_equiv; set_solver|].
  apply set_eq. intros x. split.
  - intros [Hx|Hx]%bfs_loop_from; [done|]. by apply Hsub, descendants_spec.
  - apply bfs_loop_from.
Qed.

(** ** Leaf extraction *)

Lemma restrict_subtree_columns df parent_cols pf :
  columns (restrict_subtree df parent_cols pf) = columns df.
Proof. unfold restrict_subtree. by destruct (parent_filter_roots pf). Qed.

Lemma restrict_subtree_rows df parent_cols pf r :
  r ∈ rows (restrict_subtree df parent_cols pf) → r ∈ rows df.
Proof.
  unfold restrict_subtree. destruct (parent_filter_roots pf); [|done].
  simpl. by intros [_ ?]%list_elem_of_filter.
Qed.

Lemma elem_of_dropna (v : string) (l : list (option string)) :
  v ∈ dropna l ↔ Some v ∈ l.
Proof.
  unfold dropna. rewrite list_elem_of_omap. split.
  - intros (o & Ho & Heq). unfold id in Heq. by subst o.
  - intros H. by exists (Some v).
Qed.

(** The set [all_parent_ids] holds the values, NaN apart, of the parent
    columns. *)
Lemma elem_of_all_parent_ids df parent_cols v :
  v ∈ all_parent_ids df parent_cols
  ↔ ∃ col r, col ∈ parent_cols ∧ r ∈ rows df ∧ cell_at (columns df) col r = Some v.
Proof.
  unfold all_parent_ids.
  assert (Hgen : ∀ acc : gset string,
    v ∈ foldl (λ acc col, acc ∪ list_to_set (dropna (col_values df col))) acc parent_cols
    ↔ v ∈ acc ∨ ∃ col r, col ∈ parent_cols ∧ r ∈ rows df
                          ∧ cell_at (columns df) col r = Some v).
  { induction parent_cols as [|c cs IH]; intros acc; simpl.
    - split; [by left|]. intros [?|(col & r & []%elem_of_nil & _)]; done.
    - rewrite IH, elem_of_union, elem_of_list_to_set, elem_of_dropna.
      unfold col_values. rewrite list_elem_of_fmap. split.
      + intros [[Hacc|(r & Hr & Hin)]|(col & r & Hcol & Hin & Hr)].
        * by left.
        * right. exists c, r. split; [left|done].
        * right. exists col, r. split; [by right|done].
      + intros [Hacc|(col & r & Hcol & Hin & Hr)]; [by left; left|].
        apply elem_of_cons in Hcol as [->|Hcol].
        * left. right. by exists r.
        * right. by exists col, r. }
  rewrite Hgen. split; [intros [[]%elem_of_empty|]; done|by right].
Qed.

(** C1.  For a table with at least one parent column, leaf extraction
    returns a table as soon as there is an [ID] column, and the table it
    returns is made of rows of the table restricted to the parent
    subtree, none of whose ID is a value of a parent column of that
    restricted table. *)
Theorem leaf_members_exclude_parents df pf :
  find_parent_columns df ≠ [] →
  (has_column "ID" df = true → ∃ out, get_leaf_members df pf = Ok out)
  ∧ ∀ out, get_leaf_members df pf = Ok out →
      ∀ r, r ∈ rows out →
        r ∈ rows (restrict_subtree df (find_parent_columns df) pf)
        ∧ ∀ col r' v,
            col ∈ find_parent_columns df →
            r' ∈ rows (restrict_subtree df (find_parent_columns df) pf) →
            cell_at (columns df) col r' = Some v →
            row_id df r ≠ Some v.
Proof.
  intros Hcols. unfold get_leaf_members.
  destruct (df_empty df) eqn:Hempty.
  { split; [by eexists|]. intros out [= <-] r Hr.
    unfold df_empty in Hempty.
    destruct (columns df) as [|c0 cs] eqn:Hc.
    - exfalso. apply Hcols. unfold find_parent_columns. by rewrite Hc.
    - destruct (rows df); [by apply elem_of_nil in Hr|done]. }
  destruct (find_parent_columns df) as [|c0 cs] eqn:Hpc; [done|].
  destruct (has_column "ID" df); [|split; [done|by intros out [=]]].
  split; [by eexists|]. intros out [= <-] r Hr. simpl in Hr.
  apply list_elem_of_filter in Hr as [Hleaf Hr]. split; [done|].
  intros col r' v Hcol Hr' Hv Hid.
  apply negb_true_iff in Hleaf. unfold id_isin, row_id in Hleaf.
  rewrite restrict_subtree_columns in Hleaf. unfold row_id in Hid.
  rewrite Hid in Hleaf. apply bool_decide_eq_false in Hleaf. apply Hleaf.
  apply elem_of_all_parent_ids. exists col, r'.
  by rewrite restrict_subtree_columns.
Qed.

Lemma leaf_members_exclude_parents_witness :
  find_parent_columns sample_tree ≠ []
  ∧ get_leaf_members sample_tree (PFStr "R")
    = Ok (mkDF (columns sample_tree) [ [Some "B"; Some "Beta"; Some "R"; None] ]).
Proof.
  assert (Hcols : find_parent_columns sample_tree ≠ []) by (by vm_compute).
  split; [done|].
  destruct (proj1 (leaf_members_exclude_parents sample_tree (PFStr "R") Hcols) eq_refl)
    as [out Hout].
  rewrite Hout. vm_compute in Hout. by injection Hout as <-.
Defined.

Example get_leaf_members_sample :
  get_leaf_members sample_tree PFNone
  = Ok (mkDF (columns sample_tree) [ [Some "B"; Some "Beta"; Some "R"; None] ]).
Proof. vm_compute. reflexivity. Qed.

Example get_leaf_members_subtree :
  get_leaf_members sample_tree (PFList ["R"])
  = Ok (mkDF (columns sample_tree) [ [Some "B"; Some "Beta"; Some "R"; None] ]).
Proof. vm_compute. reflexivity. Qed.

(** C10.  When no column name ends with [_PARENTID], no parent column is
    found and leaf extraction returns the table as it is, whatever the
    parent filter. *)
Theorem no_parent_columns_unchanged df pf :
  (∀ col, col ∈ columns df → ends_with "_PARENTID" col = false) →
  find_parent_columns df = [] ∧ get_leaf_members df pf = Ok df.
Proof.
  intros Hnone.
  assert (Hpc : find_parent_columns df = []).
  { unfold find_parent_columns. induction (columns df) as [|c cs IH]; [done|].
    rewrite filter_cons. rewrite (Hnone c) by left.
    destruct (decide (false = true)); [done|].
    apply IH. intros col Hcol. apply Hnone. by right. }
  split; [done|]. unfold get_leaf_members. rewrite Hpc.
  by destruct (df_empty df).
Qed.

Lemma no_parent_columns_unchanged_witness :
  get_leaf_members sample_flat (PFStr "X") = Ok sample_flat.
Proof.
  refine (proj2 (no_parent_columns_unchanged sample_flat (PFStr "X") _)).
  intros col Hcol. simpl in Hcol.
  repeat (apply elem_of_cons in Hcol as [->|Hcol]; [reflexivity|]).
  by apply elem_of_nil in Hcol.
Defined.

(** ** Date range *)

Lemma month_loop_step end_year end_m year month :
  month_loop end_year end_m year month
  = if decide (month_le year month end_year end_m)
    then month_token year month
         :: (if decide (month + 1 > 12)
             then month_loop end_year end_m (year + 1) 1
             else month_loop end_year end_m year (month + 1))
    else [].
Proof.
  funelim (month_loop end_year end_m year month);
    repeat match goal with H : decide _ = _ |- _ => rewrite H end; reflexivity.
Qed.







Example expand_range_single : expand_range "202503" "202503" = Ok ["202503"].
Proof. vm_compute. reflexivity. Qed.

(** ** The column used as ID *)

Lemma id_candidates_head c cols : head (id_candidates (c :: cols)) = Some c.
Proof.
  unfold id_candidates. rewrite filter_cons.
  rewrite String.eqb_refl, orb_true_r. by destruct (decide (true = true)).
Qed.

(** C5.  The column chosen when the table has no [ID] column is always
    the first column, also when a later column contains "ID": for the
    columns [Name, MemberID] the code takes [Name], where the ordered
    rule takes [MemberID].  Without any column no candidate exists. *)
Theorem id_fallback_takes_first_column :
  select_id_column ["Name"; "MemberID"] = Some "Name"
  ∧ id_column_by_rule ["Name"; "MemberID"] = Some "MemberID"
  ∧ (∀ cols, select_id_column cols = head cols)
  ∧ select_id_column [] = None.
Proof.
  split; [by vm_compute|]. split; [by vm_compute|]. split; [|done].
  intros [|c cols]; [done|]. apply id_candidates_head.
Qed.

(** A table without [ID] column, once loaded: the first column is
    renamed, here a column of labels. *)
Example load_dimension_renames_first_column :
  let table := mkDF ["Name"; "MemberID"] [ [Some "North"; Some "N1"] ] in
  let env := example_env [("downloads/RegionMaster.csv", table)] in
  let dim := mkDimension (Some "Region") (Some "Region") (Some false)
                         no_filters None false None in
  fst (load_dimension env dim initial_state)
  = Ok (mkDF ["ID"; "Description"] [ [Some "North"; Some "North"] ]).
Proof. vm_compute. reflexivity. Qed.

(** ** The range of the validations *)

(** C7.  The validation of a column covers rows 2 to [data_rows + 1]
    for the project's default [data_rows], whatever the template's own
    [data_rows]; the data-entry rows follow the template's.  With 50
    rows in the template and the default of 200, rows 2 to 51 are
    created and the validation covers [A2:A201]. *)
Theorem validation_rows_ignore_template :
  (∀ env project template dimensions st dv,
     dv ∈ us_validations (wb_upload (build_workbook env project template dimensions st)) →
     ∃ i, dv_sqref dv = get_column_letter env (S i) +:+ "2:" +:+ get_column_letter env (S i)
                        +:+ fmt_int (project_data_rows project + 1))
  ∧ (∀ env project template dimensions st,
       us_data_entry_rows (wb_upload (build_workbook env project template dimensions st))
       = py_range 2 (default (project_data_rows project) (tpl_data_rows template) + 2))
  ∧ (let template := mkTemplate (Some "T") ["Product"] [] None (Some 50) in
     let project := mkProject None None None None None None in
     let upload := wb_upload (build_workbook (example_env []) project template ∅
                                initial_state) in
     us_data_entry_rows upload = seqZ 2 50
     ∧ dv_sqref <$> us_validations upload = ["A2:A201"]).
Proof.
  split; [|split].
  - intros env project template dimensions st dv. simpl.
    intros (i & col & -> & _)%elem_of_lookup_imap. by exists i.
  - done.
  - by vm_compute.
Qed.

(** ** Exclusion by description *)









(** The same holds in every environment that implements the fragment. *)
Lemma exclusion_is_not_literal_anywhere env :
  implements_fragment env → ¬ literal_exclusion env.
Proof.
  intros Henv H. specialize (H sample_members "a.c"). unfold exclude_pattern in H.
  destruct (Henv "a.c" _ eq_refl) as (found & Hc & Hf). rewrite Hc in H.
  injection H as H.
  rewrite !filter_cons, !filter_nil in H. simpl in H.
  rewrite !Hf in H by reflexivity. vm_compute in H. discriminate H.
Qed.

Example apply_filters_dot_pattern :
  apply_filters (example_env []) sample_members (mkFilters ["a.c"] [] PFNone)
  = Ok (mkDF ["ID"; "Description"] [ [Some "3"; None]; [Some "4"; Some "xyz"] ])
  ∧ contains_ignoring_case "a.c" "abc" = false.
Proof. by vm_compute. Qed.



(** ** How computations use the state *)

Lemma same_data_refl st : same_data st st.
Proof. by split. Qed.

Lemma same_data_sym st1 st2 : same_data st1 st2 → same_data st2 st1.
Proof. intros [H1 H2]. split; congruence. Qed.

Lemma same_data_trans st1 st2 st3 :
  same_data st1 st2 → same_data st2 st3 → same_data st1 st3.
Proof. intros [H1 H2] [H3 H4]. split; congruence. Qed.

Lemma respects_ret {A} (a : A) : respects (ret a).
Proof. by intros st1 st2 H. Qed.

Lemma respects_raise {A} e : respects (raise (A := A) e).
Proof. by intros st1 st2 H. Qed.

Lemma respects_lift {A} (r : result A) : respects (lift r).
Proof. by intros st1 st2 H. Qed.

Lemma respects_bind {A B} (c : M A) (k : A → M B) :
  respects c → (∀ a, respects (k a)) → respects (bind c k).
Proof.
  intros Hc Hk st1 st2 H. unfold bind.
  destruct (Hc st1 st2 H) as [Hr Hs].
  destruct (c st1) as [[a1|e1] s1], (c st2) as [[a2|e2] s2]; simpl in *;
    try discriminate Hr.
  - injection Hr as <-. by apply Hk.
  - by injection Hr as <-.
Qed.

Lemma respects_try {A} (c : M A) handles h :
  respects c → (∀ e, respects (h e)) → respects (try_except c handles h).
Proof.
  intros Hc Hh st1 st2 H. unfold try_except.
  destruct (Hc st1 st2 H) as [Hr Hs].
  destruct (c st1) as [[a1|e1] s1], (c st2) as [[a2|e2] s2]; simpl in *;
    try discriminate Hr.
  - by injection Hr as <-.
  - injection Hr as <-. destruct (handles e1); [by apply Hh|done].
Qed.

(** A computation may read the state where what it does with it depends
    on the loaded dimensions and the date range only. *)
Lemma respects_get {B} (k : GenState → M B) :
  (∀ s1 s2 st1 st2, same_data s1 s2 → same_data st1 st2 →
     (k s1 st1).1 = (k s2 st2).1 ∧ same_data (k s1 st1).2 (k s2 st2).2) →
  respects (bind get_state k).
Proof. intros Hk st1 st2 H. unfold bind, get_state. by apply Hk. Qed.

Lemma respects_modify (f : GenState → GenState) :
  (∀ st1 st2, same_data st1 st2 → same_data (f st1) (f st2)) → respects (modify f).
Proof. intros Hf st1 st2 H. split; [done|]. by apply Hf. Qed.

Lemma respects_add_error msg : respects (add_error msg).
Proof. apply respects_modify. by intros st1 st2 [? ?]. Qed.
Lemma respects_add_warning msg : respects (add_warning msg).
Proof. apply respects_modify. by intros st1 st2 [? ?]. Qed.
Lemma respects_logger_warning msg : respects (logger_warning msg).
Proof. apply respects_modify. by intros st1 st2 [? ?]. Qed.
Lemma respects_store_dimension col d : respects (store_dimension col d).
Proof.
  apply respects_modify. intros st1 st2 [H1 H2]. split; simpl; [by rewrite H1|done].
Qed.

Global Instance same_data_preorder : PreOrder same_data.
Proof.
  split; [intros st; apply same_data_refl|intros a b c; apply same_data_trans].
Qed.

Global Instance same_dates_preorder : PreOrder same_dates.
Proof. split; [by intros st|intros a b c; unfold same_dates; congruence]. Qed.

Lemma same_data_dates st1 st2 : same_data st1 st2 → same_dates st1 st2.
Proof. by intros [_ ?]. Qed.

Section Preserves.

Context (R : relation GenState) `{!PreOrder R}.

Lemma preserves_ret {A} (a : A) : preserves R (ret a).
Proof. intros st. reflexivity. Qed.
Lemma preserves_raise {A} e : preserves R (raise (A := A) e).
Proof. intros st. reflexivity. Qed.
Lemma preserves_lift {A} (r : result A) : preserves R (lift r).
Proof. intros st. reflexivity. Qed.
Lemma preserves_get : preserves R get_state.
Proof. intros st. reflexivity. Qed.

Lemma preserves_bind {A B} (c : M A) (k : A → M B) :
  preserves R c → (∀ a, preserves R (k a)) → preserves R (bind c k).
Proof.
  intros Hc Hk st. unfold bind. specialize (Hc st).
  destruct (c st) as [[a|e] s]; simpl in *; [|done].
  etrans; [done|apply Hk].
Qed.

Lemma preserves_try {A} (c : M A) handles h :
  preserves R c → (∀ e, preserves R (h e)) → preserves R (try_except c handles h).
Proof.
  intros Hc Hh st. unfold try_except. specialize (Hc st).
  destruct (c st) as [[a|e] s]; simpl in *; [done|].
  destruct (handles e); [|done].
  etrans; [done|apply Hh].
Qed.

End Preserves.

Lemma preserves_weaken (R1 R2 : relation GenState) {A} (c : M A) :
  (∀ a b, R1 a b → R2 a b) → preserves R1 c → preserves R2 c.
Proof. intros HR Hc st. apply HR, Hc. Qed.

Lemma keeps_add_error msg : preserves same_data (add_error msg).
Proof. by intros st. Qed.
Lemma keeps_add_warning msg : preserves same_data (add_warning msg).
Proof. by intros st. Qed.
Lemma keeps_logger_warning msg : preserves same_data (logger_warning msg).
Proof. by intros st. Qed.
Lemma keeps_dates_add_error msg : preserves same_dates (add_error msg).
Proof. by intros st. Qed.
Lemma keeps_dates_add_warning msg : preserves same_dates (add_warning msg).
Proof. by intros st. Qed.
Lemma keeps_dates_logger_warning msg : preserves same_dates (logger_warning msg).
Proof. by intros st. Qed.
Lemma keeps_dates_store col d : preserves same_dates (store_dimension col d).
Proof. by intros st. Qed.
Lemma keeps_dates_set_data d : preserves same_dates (set_dimension_data d).
Proof. by intros st. Qed.

Create HintDb frame discriminated.
#[export] Hint Resolve respects_ret respects_raise respects_lift respects_add_error
  respects_add_warning respects_logger_warning respects_store_dimension
  preserves_ret preserves_raise preserves_lift preserves_get
  keeps_add_error keeps_add_warning keeps_logger_warning
  keeps_dates_add_error keeps_dates_add_warning keeps_dates_logger_warning
  keeps_dates_store keeps_dates_set_data same_data_preorder same_dates_preorder
  : frame.

(** Decompose a computation along its binds, handlers and case
    distinctions. *)
Ltac frame :=
  repeat first
    [ progress intros
    | progress cbv zeta
    | solve [auto with frame]
    | lazymatch goal with
      | |- respects (bind get_state _) => fail
      | _ => apply respects_bind
      end
    | apply respects_try
    | apply preserves_bind; [apply _| |] | apply preserves_try; [apply _| |]
    | match goal with
      | |- respects (match ?x with _ => _ end) => destruct x
      | |- preserves _ (match ?x with _ => _ end) => destruct x
      | |- respects (if ?x then _ else _) => destruct x
      | |- preserves _ (if ?x then _ else _) => destruct x
      | |- respects (let '(_, _) := ?x in _) => destruct x
      end ].

Section Frames.

Context (env : Env).

Lemma respects_find_csv_file sac h : respects (find_csv_file env sac h).
Proof. unfold find_csv_file. frame. Qed.
Lemma keeps_find_csv_file sac h : preserves same_data (find_csv_file env sac h).
Proof. unfold find_csv_file. frame. Qed.

Lemma respects_load_csv path : respects (load_csv env path).
Proof. unfold load_csv. frame. Qed.
Lemma keeps_load_csv path : preserves same_data (load_csv env path).
Proof. unfold load_csv. frame. Qed.

Lemma respects_extract_column_values sac column h n :
  respects (extract_column_values env sac column h n).
Proof.
  unfold extract_column_values.
  pose proof respects_find_csv_file. pose proof respects_load_csv. frame.
Qed.
Lemma keeps_extract_column_values sac column h n :
  preserves same_data (extract_column_values env sac column h n).
Proof.
  unfold extract_column_values.
  pose proof keeps_find_csv_file. pose proof keeps_load_csv. frame.
Qed.

Lemma respects_process_dimension name h f df :
  respects (process_dimension env name h f df).
Proof. unfold process_dimension. frame. Qed.
Lemma keeps_process_dimension name h f df :
  preserves same_data (process_dimension env name h f df).
Proof. unfold process_dimension. frame. Qed.

Lemma respects_load_dimension dim : respects (load_dimension env dim).
Proof.
  unfold load_dimension.
  pose proof respects_find_csv_file. pose proof respects_load_csv.
  pose proof respects_extract_column_values. pose proof respects_process_dimension.
  frame.
Qed.
Lemma keeps_load_dimension dim : preserves same_data (load_dimension env dim).
Proof.
  unfold load_dimension.
  pose proof keeps_find_csv_file. pose proof keeps_load_csv.
  pose proof keeps_extract_column_values. pose proof keeps_process_dimension.
  frame.
Qed.

End Frames.

(** ** What the steps of the pipeline can raise *)

Lemma only_raises_ret {A} P (a : A) : only_raises P (ret a).
Proof. by intros st e. Qed.
Lemma only_raises_raise {A} (P : exn → bool) e :
  P e = true → only_raises P (raise (A := A) e).
Proof. intros HP st e' [= <-]. done. Qed.
Lemma only_raises_modify P f : only_raises P (modify f).
Proof. by intros st e. Qed.

Lemma only_raises_bind {A B} P (c : M A) (k : A → M B) :
  only_raises P c → (∀ a, only_raises P (k a)) → only_raises P (bind c k).
Proof.
  intros Hc Hk st e. unfold bind. specialize (Hc st).
  destruct (c st) as [[a|e'] s]; simpl in *; [apply Hk|].
  intros [= <-]. by apply Hc.
Qed.

Lemma only_raises_try {A} P Q (c : M A) handles h :
  only_raises Q c →
  (∀ e, Q e = true → handles e = false → P e = true) →
  (∀ e, only_raises P (h e)) →
  only_raises P (try_except c handles h).
Proof.
  intros Hc HQ Hh st e. unfold try_except. specialize (Hc st).
  destruct (c st) as [[a|e'] s]; simpl in *; [done|].
  destruct (handles e') eqn:Hhd; [apply Hh|].
  intros [= <-]. apply HQ; [by apply Hc|done].
Qed.

Lemma only_raises_weaken {A} (P Q : exn → bool) (c : M A) :
  only_raises Q c → (∀ e, Q e = true → P e = true) → only_raises P c.
Proof. intros Hc HQ st e He. apply HQ. by eapply Hc. Qed.

Lemma has_column_columns name df df' :
  columns df' = columns df → has_column name df' = has_column name df.
Proof. unfold has_column. by intros ->. Qed.

Lemma remove_unassigned_ok df :
  has_column "ID" df = true →
  ∃ df', remove_unassigned df = Ok df' ∧ columns df' = columns df.
Proof.
  intros Hid. unfold remove_unassigned. rewrite Hid.
  destruct (df_empty df); by eexists.
Qed.

Lemma exclude_patterns_ok env patterns : ∀ df,
  (∀ p, p ∈ patterns → compiles env p) →
  ∃ df', exclude_patterns env df patterns = Ok df' ∧ columns df' = columns df.
Proof.
  induction patterns as [|p ps IH]; intros df Henv; simpl; [by eexists|].
  unfold exclude_pattern. destruct (Henv p ltac:(left)) as [found ->].
  destruct (IH (select_rows
                  (λ r, negb match cell_at (columns df) "Description" r with
                             | Some s => found s
                             | None => false
                             end) df)
               (λ q Hq, Henv q ltac:(by right))) as (df' & -> & Hcols).
  by eexists.
Qed.

Lemma apply_filters_ok env df f :
  filters_compile env f → has_column "ID" df = true →
  ∃ df', apply_filters env df f = Ok df' ∧ columns df' = columns df.
Proof.
  intros Henv Hid. unfold apply_filters.
  destruct (df_empty df); [by eexists|].
  assert (Hexcl : ∃ df1,
    match exclude_description f with
    | [] => Ok df
    | _ :: _ =>
        if has_column "Description" df
        then exclude_patterns env df (exclude_description f) else Ok df
    end = Ok df1 ∧ columns df1 = columns df).
  { destruct (exclude_description f) as [|p ps] eqn:Hp; [by eexists|].
    destruct (has_column "Description" df); [|by eexists].
    apply exclude_patterns_ok. intros q Hq. apply Henv. by rewrite Hp. }
  destruct (exclude_description f) as [|p ps] eqn:Hp;
    destruct Hexcl as (df1 & -> & Hcols);
    (destruct (id_list f); [by eexists|]);
    try rewrite (has_column_columns _ _ _ Hcols); rewrite Hid; by eexists.
Qed.

Lemma get_leaf_members_ok df pf :
  has_column "ID" df = true →
  ∃ df', get_leaf_members df pf = Ok df' ∧ columns df' = columns df.
Proof.
  intros Hid. unfold get_leaf_members. rewrite Hid.
  destruct (df_empty df); [by eexists|].
  destruct (find_parent_columns df); [by eexists|].
  eexists. split; [done|]. simpl. apply restrict_subtree_columns.
Qed.

Lemma rename_to_id_has_id c df :
  select_id_column (columns df) = Some c → has_column "ID" (rename_to_id c df) = true.
Proof.
  unfold select_id_column, has_column, rename_to_id.
  destruct (columns df) as [|c0 cols]; [done|]. rewrite id_candidates_head.
  intros [= ->]. simpl. rewrite String.eqb_refl. apply bool_decide_eq_true. left.
Qed.

Ltac raises :=
  repeat first
    [ progress intros
    | progress cbv zeta
    | solve [auto using only_raises_ret, only_raises_modify]
    | apply only_raises_raise; reflexivity
    | apply only_raises_bind
    | match goal with
      | |- only_raises _ (match ?x with _ => _ end) => destruct x eqn:?
      | |- only_raises _ (if ?x then _ else _) => destruct x eqn:?
      end ].

Section Outcomes.

Context (env : Env).

Lemma find_csv_file_never sac h : only_raises never (find_csv_file env sac h).
Proof. unfold find_csv_file, logger_warning. raises. Qed.

Lemma load_csv_raises path : only_raises is_csv_error (load_csv env path).
Proof. unfold load_csv, logger_warning. raises. Qed.

Lemma extract_column_values_raises sac column h n :
  only_raises is_csv_error (extract_column_values env sac column h n).
Proof.
  unfold extract_column_values.
  apply only_raises_bind.
  { eapply only_raises_weaken; [apply find_csv_file_never|done]. }
  intros [path|]; [|raises].
  apply only_raises_bind; [apply load_csv_raises|]. raises.
Qed.

Lemma process_dimension_never name h f df :
  filters_compile env f → has_column "ID" df = true →
  only_raises never (process_dimension env name h f df).
Proof.
  intros Henv Hid st e. unfold process_dimension, bind, lift.
  destruct (remove_unassigned_ok df Hid) as (df1 & -> & Hc1).
  assert (Hid1 : has_column "ID" df1 = true)
    by (by rewrite (has_column_columns _ _ _ Hc1)).
  destruct (apply_filters_ok env df1 f Henv Hid1) as (df2 & -> & Hc2).
  assert (Hid2 : has_column "ID" df2 = true)
    by (by rewrite (has_column_columns _ _ _ Hc2)).
  destruct h.
  - destruct (get_leaf_members_ok df2 (flt_parent_filter f) Hid2) as (df3 & -> & Hc3).
    by destruct (rows (project_dataset _)).
  - unfold ret. by destruct (rows (project_dataset _)).
Qed.

Lemma load_dimension_raises dim :
  filters_compile env (filters dim) →
  only_raises is_dimension_error (load_dimension env dim).
Proof.
  intros Henv. unfold load_dimension.
  destruct (negb (opt_truthy (sac_name dim))); [by apply only_raises_raise|].
  destruct (opt_truthy (extract_column dim)).
  { eapply (only_raises_try _ (λ _, true)); [done|done|].
    intros e. by apply only_raises_raise. }
  apply only_raises_bind.
  { eapply only_raises_weaken; [apply find_csv_file_never|done]. }
  intros [path|]; [|unfold logger_warning, add_warning; raises].
  apply only_raises_bind.
  { eapply (only_raises_try _ is_csv_error).
    - apply only_raises_bind; [apply load_csv_raises|intros; apply only_raises_ret].
    - intros e He Hhd. by rewrite He in Hhd.
    - intros e. unfold add_error. raises. }
  intros [[df|]|]; [|unfold logger_warning, add_warning; raises|raises].
  destruct (has_column "ID" df) eqn:Hid.
  { eapply only_raises_weaken; [by apply process_dimension_never|done]. }
  destruct (select_id_column (columns df)) as [c|] eqn:Hsel.
  - eapply only_raises_weaken;
      [apply process_dimension_never; [done|by apply rename_to_id_has_id]|done].
  - unfold add_error. raises.
Qed.

(** Without file, [load_dimension] returns the empty dataset; it logs a
    warning, and records one unless a column is to be extracted. *)
Lemma load_dimension_missing_file dim sac st :
  sac_name dim = Some sac → str_truthy sac = true → csv_missing env sac →
  ∃ st', load_dimension env dim st = (Ok empty_dataset, st')
    ∧ errors st' = errors st
    ∧ ("No CSV file found for " +:+ sac) ∈ log_warnings st'
    ∧ (opt_truthy (extract_column dim) = false →
         warnings st' = warnings st ++ ["CSV file not found for " +:+ sac])
    ∧ same_data st st'.
Proof.
  intros Hsac Htruthy Hmissing.
  assert (Hfind : ∀ h st0, find_csv_file env sac h st0
      = (Ok None, mkState (errors st0) (warnings st0)
                    (log_warnings st0 ++ ["No CSV file found for " +:+ sac])
                    (dimension_data st0) (date_range st0))).
  { intros h st0. unfold find_csv_file.
    destruct h; simpl; rewrite !Hmissing by set_solver; done. }
  unfold load_dimension. rewrite Hsac; simpl. rewrite Htruthy; simpl.
  destruct (opt_truthy (extract_column dim)) eqn:Hext.
  - unfold try_except, extract_column_values, bind. rewrite Hfind. simpl.
    eexists. split; [done|]. simpl. repeat split; [set_solver|done].
  - unfold bind. rewrite Hfind. simpl.
    eexists. split; [done|]. simpl. repeat split; set_solver.
Qed.

End Outcomes.

(** ** Loading the dimensions of a template *)

Section Loading.

Context (env : Env).

Lemma respects_apply_overrides overrides : ∀ m, respects (apply_overrides overrides m).
Proof.
  induction overrides as [|[name o] rest IH]; intros m; simpl; [frame|].
  destruct (m !! name); frame.
Qed.

Lemma keeps_apply_overrides overrides : ∀ m,
  preserves same_data (apply_overrides overrides m).
Proof.
  induction overrides as [|[name o] rest IH]; intros m; simpl; [frame|].
  destruct (m !! name); frame.
Qed.

(** Overrides change the filters of known dimensions and nothing else. *)
Lemma apply_overrides_spec overrides : ∀ m st,
  ∃ m', (apply_overrides overrides m st).1 = Ok m'
    ∧ (∀ k, m' !! k = None ↔ m !! k = None)
    ∧ (∀ k d', m' !! k = Some d' →
         ∃ d, m !! k = Some d ∧ sac_name d' = sac_name d).
Proof.
  induction overrides as [|[name o] rest IH]; intros m st; simpl.
  - exists m. split; [done|]. split; [done|]. intros k d' ?. by exists d'.
  - destruct (m !! name) as [d0|] eqn:Hname.
    + destruct (IH (<[name := with_filters d0 (update_filters (filters d0) o)]> m) st)
        as (m' & Hm' & Hnone & Hsome).
      exists m'. split; [done|]. split.
      * intros k. rewrite Hnone. destruct (decide (name = k)) as [<-|Hne].
        -- rewrite lookup_insert_eq, Hname. done.
        -- by rewrite lookup_insert_ne.
      * intros k d' Hk. destruct (Hsome k d' Hk) as (d & Hd & Hs).
        destruct (decide (name = k)) as [<-|Hne].
        -- rewrite lookup_insert_eq in Hd. injection Hd as <-. by exists d0.
        -- rewrite lookup_insert_ne in Hd by done. by exists d.
    + unfold bind, logger_warning, add_warning, modify; simpl. apply IH.
Qed.

Lemma apply_overrides_compile overrides : ∀ m st m',
  (apply_overrides overrides m st).1 = Ok m' →
  (∀ k d, m !! k = Some d → filters_compile env (filters d)) →
  (∀ name o ps p, (name, o) ∈ overrides →
     ov_exclude_description o = Some ps → p ∈ ps → compiles env p) →
  ∀ k d', m' !! k = Some d' → filters_compile env (filters d').
Proof.
  induction overrides as [|[name o] rest IH]; intros m st m' Hm' Hm Ho; simpl in Hm'.
  - injection Hm' as <-. done.
  - destruct (m !! name) as [d0|] eqn:Hname.
    + eapply IH; [done| |intros; eapply Ho; [by right|done..]].
      intros k d Hk. destruct (decide (name = k)) as [<-|Hne].
      * rewrite lookup_insert_eq in Hk. injection Hk as <-. simpl.
        intros p Hp. simpl in Hp.
        destruct (ov_exclude_description o) as [ps|] eqn:Hps; simpl in Hp.
        -- eapply Ho; [by left|done|done].
        -- by eapply Hm.
      * rewrite lookup_insert_ne in Hk by done. by eapply Hm.
    + unfold bind, logger_warning, add_warning, modify in Hm'; simpl in Hm'.
      eapply IH; [done|done|intros; eapply Ho; [by right|done..]].
Qed.

Lemma respects_load_column dmap col errs : respects (load_column env dmap col errs).
Proof. unfold load_column. pose proof (respects_load_dimension env). frame. Qed.

Lemma keeps_dates_load_column dmap col errs :
  preserves same_dates (load_column env dmap col errs).
Proof.
  unfold load_column.
  assert (∀ dim, preserves same_dates (load_dimension env dim))
    by (intros dim; eapply preserves_weaken;
        [apply same_data_dates|apply keeps_load_dimension]).
  frame.
Qed.

Lemma respects_load_columns dmap cols : ∀ errs, respects (load_columns env dmap cols errs).
Proof.
  induction cols as [|col rest IH]; intros errs; simpl; [frame|].
  apply respects_get. intros s1 s2 st1 st2 [Hd _] Hst. rewrite Hd.
  destruct (dimension_data s2 !! col); [by apply IH|].
  apply respects_bind; [apply respects_load_column|apply IH|done].
Qed.

Lemma keeps_dates_load_columns dmap cols : ∀ errs,
  preserves same_dates (load_columns env dmap cols errs).
Proof.
  induction cols as [|col rest IH]; intros errs; simpl; [frame|].
  intros st. unfold bind at 1, get_state.
  destruct (dimension_data st !! col); [apply IH|].
  apply preserves_bind; [apply _|apply keeps_dates_load_column|apply IH].
Qed.

(** Loading one column stores a dataset for it, touches no other
    column, and only adds to the list of dimension errors. *)
Lemma load_column_spec dmap col errs st :
  filters_compile env (filters (default empty_dimension (dmap !! col))) →
  ∃ errs' d, (load_column env dmap col errs st).1 = Ok errs'
    ∧ dimension_data (load_column env dmap col errs st).2
      = <[col := d]> (dimension_data st)
    ∧ (∀ e, e ∈ errs → e ∈ errs')
    ∧ (∀ dim sac, dmap !! col = Some dim → sac_name dim = Some sac →
         str_truthy sac = true → csv_missing env sac →
         d = empty_dataset ∧ (col +:+ ": 0 members") ∈ errs').
Proof.
  intros Henv. unfold load_column, try_except, bind.
  set (dim_config := default empty_dimension (dmap !! col)).
  pose proof (keeps_load_dimension env dim_config st) as [Hdata _].
  pose proof (load_dimension_raises env dim_config Henv st) as Hraise.
  destruct (load_dimension env dim_config st) as [[d|e] st1] eqn:Hload; simpl in *.
  - exists (match rows d with
            | [] => errs ++ [col +:+ ": 0 members"]
            | _ :: _ => errs
            end), d.
    split; [done|]. split; [by rewrite Hdata|]. split.
    + intros e He. destruct (rows d); set_solver.
    + intros dim sac Hdim Hsac Htruthy Hmissing.
      destruct (load_dimension_missing_file env dim_config sac st) as (st' & Hl & _);
        [by unfold dim_config; rewrite Hdim|done|done|].
      rewrite Hl in Hload. injection Hload as <- <-. split; [done|]. set_solver.
  - rewrite (Hraise e eq_refl). simpl.
    exists (errs ++ [col +:+ ": " +:+ exn_message e]), empty_dataset.
    split; [done|]. split; [by rewrite Hdata|]. split; [set_solver|].
    intros dim sac Hdim Hsac Htruthy Hmissing.
    destruct (load_dimension_missing_file env dim_config sac st) as (st' & Hl & _);
      [by unfold dim_config; rewrite Hdim|done|done|].
    rewrite Hl in Hload. discriminate Hload.
Qed.


End Loading.

(** ** One template *)

Lemma filter_none_nil {A} (P : A → Prop) `{!∀ x, Decision (P x)} (l : list A) :
  (∀ x, x ∈ l → ¬ P x) → filter P l = [].
Proof.
  induction l as [|a l IH]; intros Hnone; [done|].
  rewrite filter_cons. destruct (decide (P a)) as [Ha|_].
  - exfalso. by apply (Hnone a); [left|].
  - apply IH. intros x Hx. apply Hnone. by right.
Qed.

Section OneTemplate.

Context (env : Env) (project : Project) (dims : list Dimension).

Lemma build_workbook_same_data template dmap s1 s2 :
  same_data s1 s2 →
  build_workbook env project template dmap s1 = build_workbook env project template dmap s2.
Proof. intros [Hd Hr]. unfold build_workbook. by rewrite Hd, Hr. Qed.

Lemma respects_create_excel template : respects (create_excel env project dims template).
Proof.
  unfold create_excel.
  pose proof respects_apply_overrides. pose proof (respects_load_columns env).
  apply respects_try; [|frame]. frame.
  all: apply respects_get; intros s1 s2 st1 st2 Hs Hst;
    rewrite (build_workbook_same_data _ _ s1 s2 Hs);
    match goal with
    | |- (?K st1).1 = _ ∧ _ => assert (HK : respects K) by frame; by apply HK
    end.
Qed.

Lemma keeps_dates_create_excel template :
  preserves same_dates (create_excel env project dims template).
Proof.
  unfold create_excel.
  assert (∀ o m, preserves same_dates (apply_overrides o m))
    by (intros; eapply preserves_weaken; [apply same_data_dates|apply keeps_apply_overrides]).
  pose proof (keeps_dates_load_columns env).
  frame.
Qed.

(** A template without columns, or with a column that is no dimension,
    makes [create_excel] raise the [TemplateError]. *)
Lemma create_excel_structural_error dmap template msg st :
  dimensions_dict dims ∅ = Ok dmap →
  structural_error env dmap template = Some msg →
  (create_excel env project dims template st).1 = Raise (TemplateError msg).
Proof.
  intros Hdict Herr. unfold create_excel, try_except, bind, lift. rewrite Hdict.
  destruct (apply_overrides_spec (dimension_overrides template) dmap st)
    as (m' & Hm' & Hnone & _).
  destruct (apply_overrides (dimension_overrides template) dmap st) as [r st1].
  simpl in Hm'. subst r. unfold structural_error in Herr.
  destruct (tpl_columns template) as [|c cols] eqn:Hcols.
  { injection Herr as <-. done. }
  assert (Hfilter : filter (λ col, m' !! col = None) (c :: cols)
                    = filter (λ col, dmap !! col = None) (c :: cols))
    by (apply list_filter_iff; intros col; apply Hnone).
  rewrite Hfilter.
  destruct (filter (λ col, dmap !! col = None) (c :: cols)); [done|].
  injection Herr as <-. done.
Qed.


End OneTemplate.

(** ** The batch *)

Section Batch.

Context (env : Env) (project : Project) (dims : list Dimension).

Lemma keeps_dates_generate_template results t :
  preserves same_dates (generate_template env project dims results t).
Proof.
  unfold generate_template. pose proof (keeps_dates_create_excel env project dims).
  frame.
Qed.

(** Whatever the state, a template adds to the results the entry it has
    when generated on its own with the same date range. *)
Lemma generate_template_entry results t st :
  ∃ results' entry,
    (generate_template env project dims results t st).1 = Ok results'
    ∧ template_entry env project dims (date_range st) t = Some entry
    ∧ r_success results' = r_success results ++ option_list (entry_success (Some entry))
    ∧ r_failed results' = r_failed results ++ option_list (entry_failed (Some entry)).
Proof.
  unfold template_entry, generate_template, bind, try_except, set_dimension_data, modify.
  simpl.
  set (stA := mkState (errors st) (warnings st) (log_warnings st) ∅ (date_range st)).
  set (stB := mkState [] [] [] ∅ (date_range st)).
  assert (Hsame : same_data stA stB) by done.
  destruct (respects_create_excel env project dims t stA stB Hsame) as [Hr _].
  destruct (create_excel env project dims t stA) as [[r|e] sA],
           (create_excel env project dims t stB) as [[r'|e'] sB];
    simpl in Hr; try discriminate Hr; injection Hr as <-.
  - destruct (success r); simpl; eexists _, _;
      (split; [done|]); (split; [done|]); simpl; by rewrite ?app_nil_r.
  - simpl. eexists _, _. split; [done|]. split; [done|]. simpl.
    by rewrite ?app_nil_r.
Qed.

Lemma generate_templates_entries ts : ∀ results st,
  ∃ results',
    (generate_templates env project dims results ts st).1 = Ok results'
    ∧ r_success results'
      = r_success results
        ++ omap (λ t, entry_success (template_entry env project dims (date_range st) t)) ts
    ∧ r_failed results'
      = r_failed results
        ++ omap (λ t, entry_failed (template_entry env project dims (date_range st) t)) ts.
Proof.
  induction ts as [|t ts IH]; intros results st; simpl.
  - exists results. by rewrite !app_nil_r.
  - unfold bind.
    destruct (generate_template_entry results t st) as (r1 & entry & Hr1 & He & Hs & Hf).
    pose proof (keeps_dates_generate_template results t st) as Hdates.
    destruct (generate_template env project dims results t st) as [x st1].
    simpl in Hr1, Hdates. subst x. unfold same_dates in Hdates.
    destruct (IH r1 st1) as (results' & Hr & Hs' & Hf').
    exists results'. split; [done|]. rewrite Hs', Hf', Hs, Hf, He, <- Hdates.
    destruct entry; simpl; by rewrite <- !app_assoc.
Qed.

Lemma template_entry_is_Some dates t :
  is_Some (template_entry env project dims dates t).
Proof.
  destruct (generate_template_entry (mkResults [] [] []) t (fresh_state dates))
    as (_ & entry & _ & He & _).
  by exists entry.
Qed.

Lemma entries_length dates ts :
  (length (omap (λ t, entry_success (template_entry env project dims dates t)) ts)
   + length (omap (λ t, entry_failed (template_entry env project dims dates t)) ts)
   = length ts)%nat.
Proof.
  induction ts as [|t ts IH]; [done|]. unfold omap in *. simpl.
  destruct (template_entry_is_Some dates t) as [[s|f] ->]; simpl; lia.
Qed.

(** The entry of a template with a structural error is the failure that
    carries the message of its [TemplateError]. *)
Lemma template_entry_structural_error dmap dates t msg :
  dimensions_dict dims ∅ = Ok dmap →
  structural_error env dmap t = Some msg →
  template_entry env project dims dates t
  = Some (inr (mkFailed (default "Unnamed" (tpl_name t)) msg)).
Proof.
  intros Hdict Herr.
  unfold template_entry, generate_template, bind, try_except, set_dimension_data, modify.
  simpl.
  pose proof (create_excel_structural_error env project dims dmap t msg
                (mkState [] [] [] ∅ dates) Hdict Herr) as Hraise.
  destruct (create_excel env project dims t (mkState [] [] [] ∅ dates)) as [r s].
  simpl in Hraise. by subst r.
Qed.

Lemma date_range_step_never : only_raises never (date_range_step env project).
Proof.
  eapply (only_raises_try _ (λ _, true)); [done|done|].
  intros e. apply only_raises_modify.
Qed.

(** [generate] for all templates of a batch that is not empty. *)
Lemma generate_all templates st :
  templates ≠ [] →
  generate env project dims templates None st
  = (modify (λ st, mkState [] [] (log_warnings st) (dimension_data st) (date_range st)) ;;
     date_range_step env project ;;
     let* results := generate_templates env project dims (mkResults [] [] []) templates in
     summarize results) st.
Proof. by destruct templates. Qed.

End Batch.


(** C9.  In a batch of templates, with dimensions that all have a name,
    [generate] returns a result whose entries are, template by template
    and in order, the entry each template has when generated on its own
    with the same date range: one entry per template, success or
    failure.  A template without columns, or with a column that is not
    a dimension, has the failure entry with the message of its
    [TemplateError], which is also among the errors of the result. *)
Theorem batch_continues env project dims dmap templates st :
  dimensions_dict dims ∅ = Ok dmap → templates ≠ [] →
  ∃ r results dates,
    (generate env project dims templates None st).1 = Ok r
    ∧ data r = Some results
    ∧ r_success results
      = omap (λ t, entry_success (template_entry env project dims dates t)) templates
    ∧ r_failed results
      = omap (λ t, entry_failed (template_entry env project dims dates t)) templates
    ∧ (length (r_success results) + length (r_failed results) = length templates)%nat
    ∧ ∀ t msg, t ∈ templates → structural_error env dmap t = Some msg →
        template_entry env project dims dates t
        = Some (inr (mkFailed (default "Unnamed" (tpl_name t)) msg))
        ∧ mkFailed (default "Unnamed" (tpl_name t)) msg ∈ r_failed results
        ∧ msg ∈ op_errors r.
Proof.
  intros Hdict Hne. rewrite generate_all by done.
  unfold bind at 1. unfold modify at 1.
  set (st0 := mkState [] [] (log_warnings st) (dimension_data st) (date_range st)).
  unfold bind at 1.
  pose proof (date_range_step_never env project st0) as Hnever.
  destruct (date_range_step env project st0) as [[[]|e] st1]; simpl in Hnever;
    [|by specialize (Hnever e eq_refl)].
  unfold bind at 1.
  destruct (generate_templates_entries env project dims templates (mkResults [] [] []) st1)
    as (results & Hr & Hs & Hf).
  destruct (generate_templates env project dims (mkResults [] [] []) templates st1)
    as [x st2].
  simpl in Hr, Hs, Hf. subst x. unfold summarize, bind, get_state.
  assert (Hentries : ∀ t msg, t ∈ templates → structural_error env dmap t = Some msg →
            template_entry env project dims (date_range st1) t
            = Some (inr (mkFailed (default "Unnamed" (tpl_name t)) msg))
            ∧ mkFailed (default "Unnamed" (tpl_name t)) msg ∈ r_failed results).
  { intros t msg Ht Herr.
    pose proof (template_entry_structural_error env project dims dmap
                  (date_range st1) t msg Hdict Herr) as He.
    split; [done|]. rewrite Hf. apply list_elem_of_omap. exists t.
    split; [done|]. by rewrite He. }
  assert (Hlen : (length (r_success results) + length (r_failed results)
                  = length templates)%nat)
    by (rewrite Hs, Hf; apply entries_length).
  destruct (r_failed results) as [|f fs] eqn:Hfailed.
  - eexists _, results, (date_range st1). split; [done|]. split; [done|].
    split; [done|]. split; [by rewrite Hfailed|]. split; [by rewrite Hfailed|].
    intros t msg Ht Herr. destruct (Hentries t msg Ht Herr) as [_ []%elem_of_nil].
  - eexists _, results, (date_range st1). split; [done|]. split; [done|].
    split; [done|]. split; [by rewrite Hfailed|]. split; [by rewrite Hfailed|].
    intros t msg Ht Herr. destruct (Hentries t msg Ht Herr) as [He Hin].
    split; [done|]. split; [by rewrite Hfailed|]. simpl.
    change (msg ∈ f_error <$> (f :: fs)).
    apply list_elem_of_fmap. by exists (mkFailed (default "Unnamed" (tpl_name t)) msg).
Qed.


Example create_excel_missing_csv_sheets :
  match (create_excel (example_env sample_files) sample_project
           [region_dimension; product_dimension] sample_template initial_state).1 with
  | Ok r =>
      (λ c, wb_sheets (created_workbook c)) <$> data r
      = Some [ mkDimSheet "Region" "Region"
                 [ (Some "North", Some "N"); (Some "South", Some "S") ]
                 (Some ("tbl_region", "A2:B4"));
               mkDimSheet "Product" "Product" [] None ]
      ∧ status r = WARNING
      ∧ op_warnings r = ["Product: 0 members"]
  | Raise _ => False
  end.
Proof. by vm_compute. Qed.

Lemma batch_continues_witness :
  ∃ r results,
    (generate (example_env sample_files) sample_project
       [region_dimension; product_dimension]
       [empty_template; sample_template; undefined_template] None initial_state).1 = Ok r
    ∧ data r = Some results
    ∧ (length (r_success results) + length (r_failed results) = 3)%nat.
Proof.
  destruct (batch_continues (example_env sample_files) sample_project
              [region_dimension; product_dimension]
              (<["Product" := product_dimension]> (<["Region" := region_dimension]> ∅))
              [empty_template; sample_template; undefined_template] initial_state)
    as (r & results & dates & Hr & Hd & _ & _ & Hlen & _).
  - reflexivity.
  - done.
  - by exists r, results.
Defined.

Example generate_batch :
  match (generate (example_env sample_files) sample_project
           [region_dimension; product_dimension]
           [empty_template; sample_template; undefined_template] None initial_state).1 with
  | Ok r =>
      status r = WARNING
      ∧ (r_success <$> data r)
        = Some [mkSuccess "Sales" "output/Sales.xlsx" ["Product: 0 members"]]
      ∧ (r_failed <$> data r)
        = Some [ mkFailed "Empty" "Template 'Empty' has no columns defined";
                 mkFailed "Undefined"
                   "Template 'Undefined' references undefined dimensions: ['Channel']" ]
  | Raise _ => False
  end.
Proof. by vm_compute. Qed.

(** ** Locating the source files *)

Lemma find_csv_file_eval env sac h st :
  find_csv_file env sac h st
  = match List.find (λ p, path_exists env (path_join downloads_dir p))
            (if h
             then [sac +:+ "MasterWithHierarchy.csv"; sac +:+ "Master.csv"; sac +:+ ".csv"]
             else [sac +:+ "Master.csv"; sac +:+ ".csv"; sac +:+ "MasterWithHierarchy.csv"])
    with
    | Some p => (Ok (Some (path_join downloads_dir p)), st)
    | None => (Ok None, mkState (errors st) (warnings st)
                          (log_warnings st ++ ["No CSV file found for " +:+ sac])
                          (dimension_data st) (date_range st))
    end.
Proof. unfold find_csv_file. by destruct (List.find _ _). Qed.

Lemma find_none_iff {A} (f : A → bool) (l : list A) :
  List.find f l = None ↔ ∀ x, x ∈ l → f x = false.
Proof.
  induction l as [|a l IH]; simpl.
  - split; [by intros _ x ?%elem_of_nil|done].
  - destruct (f a) eqn:Ha.
    + split; [done|]. intros H. rewrite H in Ha by left. done.
    + rewrite IH. split.
      * intros H x [->|Hx]%elem_of_cons; [done|by apply H].
      * intros H x Hx. apply H. by right.
Qed.

Lemma find_some_elem {A} (f : A → bool) (l : list A) x :
  List.find f l = Some x → x ∈ l ∧ f x = true.
Proof.
  induction l as [|a l IH]; simpl; [done|].
  destruct (f a) eqn:Ha.
  - intros [= <-]. split; [left|done].
  - intros [Hx Hf]%IH. split; [by right|done].
Qed.

(** X1.  [find_csv_file] finds a file exactly when one of the three
    candidate names exists in the downloads folder, and that does not
    depend on the hierarchy flag; the path it returns exists, is one of
    the three candidates and leaves the state as it was; when the file
    named after the flag exists, that file is the one returned. *)
Theorem find_csv_file_candidates (env : Env) (sac : string) (h : bool) (st : GenState) :
  let candidates :=
    [sac +:+ "MasterWithHierarchy.csv"; sac +:+ "Master.csv"; sac +:+ ".csv"] in
  let own :=
    path_join downloads_dir
      (sac +:+ (if h then "MasterWithHierarchy.csv" else "Master.csv")) in
  (∀ p, (find_csv_file env sac h st).1 = Ok (Some p) →
        path_exists env p = true
        ∧ (find_csv_file env sac h st).2 = st
        ∧ ∃ name, name ∈ candidates ∧ p = path_join downloads_dir name)
  ∧ ((find_csv_file env sac h st).1 = Ok None ↔ csv_missing env sac)
  ∧ (path_exists env own = true → (find_csv_file env sac h st).1 = Ok (Some own))
  ∧ ((find_csv_file env sac true st).1 = Ok None
     ↔ (find_csv_file env sac false st).1 = Ok None).
Proof.
  intros candidates own.
  assert (Hnone : ∀ h', (find_csv_file env sac h' st).1 = Ok None ↔ csv_missing env sac).
  { intros h'. rewrite find_csv_file_eval.
    destruct (List.find _ _) as [p|] eqn:Hfind; simpl.
    - split; [done|]. intros Hmiss. apply find_some_elem in Hfind as [Hp Hex].
      rewrite Hmiss in Hex; [done|]. destruct h'; set_solver.
    - split; [|done]. intros _ name Hname.
      eapply (proj1 (find_none_iff _ _) Hfind). destruct h'; set_solver. }
  split; [|split; [apply Hnone|split]].
  - intros p. rewrite find_csv_file_eval.
    destruct (List.find _ _) as [q|] eqn:Hfind; simpl; [|done].
    intros [= <-]. apply find_some_elem in Hfind as [Hq Hex].
    split; [done|]. split; [done|]. exists q. split; [|done].
    destruct h; set_solver.
  - intros Hown. rewrite find_csv_file_eval. subst own.
    destruct h; simpl in *; by rewrite Hown.
  - by rewrite !Hnone.
Qed.

(** ** Members that stand for no assignment *)

Lemma select_rows_twice keep df :
  select_rows keep (select_rows keep df) = select_rows keep df.
Proof.
  unfold select_rows; simpl. f_equal.
  rewrite list_filter_filter. apply list_filter_iff. tauto.
Qed.


Lemma has_column_pos name cols n : col_pos name cols = Some n → name ∈ cols.
Proof.
  revert n. induction cols as [|c cols IH]; [done|].
  intros n. simpl. destruct (String.eqb_spec c name) as [->|_].
  - intros _. left.
  - destruct (col_pos name cols); [|done]. intros _. right. by eapply IH.
Qed.

(** What [remove_unassigned] keeps. *)
Lemma remove_unassigned_rows df out :
  remove_unassigned df = Ok out →
  columns out = columns df
  ∧ rows out `sublist_of` rows df
  ∧ ∀ r, r ∈ rows out →
      row_id df r ≠ Some "#" ∧ row_id df r ≠ Some EmptyString.
Proof.
  unfold remove_unassigned. destruct (df_empty df) eqn:Hempty.
  { intros [= <-]. split; [done|]. split; [done|].
    intros r Hr. unfold df_empty in Hempty. unfold row_id.
    destruct (columns df) as [|c cols] eqn:Hcols; [done|].
    destruct (rows df); [by apply elem_of_nil in Hr|done]. }
  destruct (has_column "ID" df) eqn:Hid; simpl; [|done].
  intros [= <-]. split; [done|]. split; [apply sublist_filter|].
  intros r [Hkeep _]%list_elem_of_filter.
  apply andb_true_iff in Hkeep as [Hk1 _]. apply negb_true_iff in Hk1.
  split; intros Hv; rewrite Hv in Hk1; by vm_compute in Hk1.
Qed.

(** X2.  [remove_unassigned] raises [KeyError] on a table with rows
    and columns but no [ID] column.  When it returns, the columns are
    unchanged, the rows are a sublist of the rows given, no row has the
    ID [#] or the empty ID, none has the description [Unassigned],
    [Not In Hierarchy] or the empty one, and applying it again changes
    nothing. *)
Theorem remove_unassigned_members df :
  (df_empty df = false → has_column "ID" df = false →
   remove_unassigned df = Raise (KeyError "ID"))
  ∧ ∀ out, remove_unassigned df = Ok out →
      columns out = columns df
      ∧ rows out `sublist_of` rows df
      ∧ remove_unassigned out = Ok out
      ∧ ∀ r, r ∈ rows out →
          row_id df r ≠ Some "#" ∧ row_id df r ≠ Some EmptyString
          ∧ ∀ d, cell_at (columns df) "Description" r = Some d →
                 d ≠ "Unassigned" ∧ d ≠ "Not In Hierarchy" ∧ d ≠ EmptyString.
Proof.
  unfold remove_unassigned. split.
  { by intros -> ->. }
  intros out. destruct (df_empty df) eqn:Hempty.
  { intros [= <-]. rewrite Hempty. split; [done|]. split; [done|]. split; [done|].
    intros r Hr. unfold df_empty in Hempty. unfold row_id.
    destruct (columns df) as [|c cols] eqn:Hcols; [done|].
    destruct (rows df); [by apply elem_of_nil in Hr|done]. }
  destruct (has_column "ID" df) eqn:Hid; simpl; [|done].
  intros [= <-]. split; [done|]. split; [apply sublist_filter|]. split.
  - destruct (df_empty (select_rows _ df)); [done|].
    change (has_column "ID" (select_rows ?k df)) with (has_column "ID" df).
    change (has_column "Description" (select_rows ?k df))
      with (has_column "Description" df).
    rewrite Hid. simpl. f_equal. apply select_rows_twice.
  - intros r [Hkeep _]%list_elem_of_filter.
    apply andb_true_iff in Hkeep as [Hk1 Hk2].
    apply negb_true_iff in Hk1.
    assert (Hnot : ∀ v, row_id df r = Some v → v ∉ ["#"; EmptyString]).
    { intros v Hv Hin. rewrite Hv in Hk1. simpl in Hk1.
      by apply bool_decide_eq_false in Hk1. }
    split; [|split].
    + intros Hv. apply (Hnot _ Hv). set_solver.
    + intros Hv. apply (Hnot _ Hv). set_solver.
    + intros d Hd. unfold has_column in Hk2.
      destruct (bool_decide ("Description" ∈ columns df)) eqn:Hdesc.
      * rewrite Hd in Hk2. simpl in Hk2. apply negb_true_iff in Hk2.
        apply bool_decide_eq_false in Hk2. set_solver.
      * apply bool_decide_eq_false in Hdesc. exfalso. apply Hdesc.
        unfold cell_at in Hd. destruct (col_pos "Description" (columns df)) eqn:Hpos;
          [|done].
        clear -Hpos. revert n Hpos. induction (columns df) as [|c cols IH]; [done|].
        intros n. simpl. destruct (String.eqb_spec c "Description") as [->|_].
        -- intros _. left.
        -- destruct (col_pos "Description" cols); [|done]. intros _. right. by eapply IH.
Qed.

Example remove_unassigned_sample :
  remove_unassigned
    (mkDF ["ID"; "Description"]
       [ [Some "#"; Some "Unassigned"]; [Some "A"; Some "Alpha"];
         [Some "B"; Some "Not In Hierarchy"]; [None; Some "Gamma"];
         [Some "C"; None]; [Some EmptyString; Some "Delta"] ])
  = Ok (mkDF ["ID"; "Description"]
          [ [Some "A"; Some "Alpha"]; [None; Some "Gamma"]; [Some "C"; None] ]).
Proof. reflexivity. Qed.

(** ** Sorting *)

Lemma insert_sorted_perm {A} (le : A → A → bool) x l :
  insert_sorted le x l ≡ₚ x :: l.
Proof.
  induction l as [|y l IH]; simpl; [done|].
  destruct (le x y); [done|]. rewrite IH. apply Permutation_swap.
Qed.

Lemma sort_by_perm {A} (le : A → A → bool) l : sort_by le l ≡ₚ l.
Proof.
  induction l as [|x l IH]; simpl; [done|].
  unfold sort_by in *. simpl. by rewrite insert_sorted_perm, IH.
Qed.

Section Sorted.

Context {A : Type} (le : A → A → bool).
Hypothesis le_total : ∀ x y, le x y = true ∨ le y x = true.
Hypothesis le_trans : ∀ x y z, le x y = true → le y z = true → le x z = true.

Lemma insert_sorted_sorted x l :
  StronglySorted (λ a b, le a b = true) l →
  StronglySorted (λ a b, le a b = true) (insert_sorted le x l).
Proof.
  induction 1 as [|y l Hs IH Hy]; simpl.
  - by repeat constructor.
  - destruct (le x y) eqn:Hxy.
    + constructor; [by constructor|]. constructor; [done|].
      eapply Forall_impl; [exact Hy|]. intros z Hz. by eapply le_trans.
    + constructor; [done|].
      rewrite insert_sorted_perm. constructor; [|done].
      destruct (le_total x y); congruence.
Qed.

Lemma sort_by_sorted l : StronglySorted (λ a b, le a b = true) (sort_by le l).
Proof.
  induction l as [|x l IH]; [constructor|].
  unfold sort_by in *. simpl. by apply insert_sorted_sorted.
Qed.

End Sorted.


Lemma filter_all {A} (P : A → Prop) `{!∀ x, Decision (P x)} (l : list A) :
  (∀ x, x ∈ l → P x) → filter P l = l.
Proof.
  induction l as [|a l IH]; intros Hall; [done|].
  rewrite filter_cons. destruct (decide (P a)) as [_|Hna].
  - f_equal. apply IH. intros x Hx. apply Hall. by right.
  - exfalso. apply Hna, Hall. left.
Qed.



(** ** Restriction to a list of IDs *)



Lemma filter_id_list_rows df ids r :
  r ∈ rows (filter_id_list df ids)
  ↔ r ∈ rows df ∧ cell_isin (row_id df r) ids = true.
Proof.
  unfold filter_id_list; simpl. rewrite sort_by_perm, list_elem_of_filter. tauto.
Qed.




(** ** The order of strings *)

Lemma string_leb_trans (a b c : string) :
  String.leb a b = true → String.leb b c = true → String.leb a c = true.
Proof.
  unfold String.leb. revert b c.
  induction a as [|c1 a IH]; intros [|c2 b] [|c3 c]; simpl; try done.
  unfold Ascii.compare.
  destruct (N.compare_spec (N_of_ascii c1) (N_of_ascii c2)) as [H12|H12|H12];
    [| |done].
  - rewrite H12.
    destruct (N.compare_spec (N_of_ascii c2) (N_of_ascii c3)); [|done|done].
    apply IH.
  - destruct (N.compare_spec (N_of_ascii c2) (N_of_ascii c3)) as [H23|H23|H23];
      [| |done].
    + rewrite <- H23. intros _ _. by rewrite (proj2 (N.compare_lt_iff _ _) H12).
    + intros _ _. rewrite (proj2 (N.compare_lt_iff (N_of_ascii c1) (N_of_ascii c3)));
        [done|lia].
Qed.

(** ** Distinct values *)

Lemma unique_acc (l : list string) : ∀ acc,
  NoDup acc →
  NoDup (foldl (λ acc x, if bool_decide (x ∈ acc) then acc else x :: acc) acc l)
  ∧ ∀ x, x ∈ foldl (λ acc x, if bool_decide (x ∈ acc) then acc else x :: acc) acc l
         ↔ x ∈ acc ∨ x ∈ l.
Proof.
  induction l as [|y l IH]; intros acc Hacc; simpl.
  - split; [done|]. intros x. rewrite elem_of_nil. tauto.
  - destruct (bool_decide_reflect (y ∈ acc)) as [Hy|Hy].
    + destruct (IH acc Hacc) as [Hnd Hin]. split; [done|].
      intros x. rewrite Hin, elem_of_cons. naive_solver.
    + destruct (IH (y :: acc)) as [Hnd Hin]; [by constructor|]. split; [done|].
      intros x. rewrite Hin, !elem_of_cons. tauto.
Qed.

Lemma unique_NoDup l : NoDup (unique l).
Proof. unfold unique. rewrite <- Permutation_rev. apply unique_acc. constructor. Qed.

Lemma elem_of_unique x l : x ∈ unique l ↔ x ∈ l.
Proof.
  unfold unique. rewrite <- Permutation_rev.
  destruct (unique_acc l [] (NoDup_nil_2)) as [_ ->]. rewrite elem_of_nil. tauto.
Qed.

Lemma all_ok_spec {A} (l : list (result A)) :
  match all_ok l with
  | Some keys => l = Ok <$> keys
  | None => ∃ e, Raise e ∈ l
  end.
Proof.
  induction l as [|[a|e] l IH]; simpl; [done| |].
  - destruct (all_ok l) as [keys|]; simpl.
    + by rewrite IH.
    + destruct IH as [e He]. exists e. by right.
  - exists e. left.
Qed.

Lemma snd_zip_fmap {A B} (f : B → A) (l : list B) :
  (zip (f <$> l) l).*2 = l.
Proof. induction l; simpl; by f_equal. Qed.

Lemma elem_of_zip_fmap {A B} (f : B → A) (l : list B) p :
  p ∈ zip (f <$> l) l → p.1 = f p.2.
Proof.
  induction l as [|x l IH]; simpl; [by intros ?%elem_of_nil|].
  intros [->|Hp]%elem_of_cons; [done|by apply IH].
Qed.

(** ** Column extraction *)

Section Extraction.

Context (env : Env).

(** The values kept by [extract_column_values], before sorting. *)
Let kept (df : DataFrame) (column : string) : list string :=
  filter (λ v, (str_truthy v && str_truthy (str_strip v)
                && negb (bool_decide (v ∈ ["#"; "Not In Hierarchy"]))) = true)
         (unique (dropna (col_values df column))).

Let sorted_values (numeric : bool) (values : list string) : list string :=
  if numeric then
    match all_ok (int_of_float env <$> values) with
    | Some keys => snd <$> sort_by (λ a b, a.1 <=? b.1) (zip keys values)
    | None => sort_by String.leb values
    end
  else sort_by String.leb values.

Lemma sorted_values_perm numeric values : sorted_values numeric values ≡ₚ values.
Proof.
  unfold sorted_values. destruct numeric; [|apply sort_by_perm].
  pose proof (all_ok_spec (int_of_float env <$> values)) as Hkeys.
  destruct (all_ok _) as [keys|]; [|apply sort_by_perm].
  rewrite sort_by_perm.
  assert (Hlen : length keys = length values).
  { apply (f_equal length) in Hkeys. by rewrite !length_fmap in Hkeys. }
  clear Hkeys. revert keys Hlen.
  induction values as [|v values IH]; intros [|k keys] Hlen; simpl in *; try done.
  f_equal. rewrite IH; [done|lia].
Qed.

Lemma sorted_values_lexical numeric values :
  numeric = false ∨ (∃ v e, v ∈ values ∧ int_of_float env v = Raise e) →
  StronglySorted (λ a b, String.leb a b = true) (sorted_values numeric values).
Proof.
  intros Hcase. unfold sorted_values.
  assert (Hlex : StronglySorted (λ a b, String.leb a b = true)
                   (sort_by String.leb values)).
  { apply sort_by_sorted; [apply String.leb_total|apply string_leb_trans]. }
  destruct numeric; [|done].
  pose proof (all_ok_spec (int_of_float env <$> values)) as Hkeys.
  destruct (all_ok _) as [keys|]; [|done].
  destruct Hcase as [|(v & e & Hv & He)]; [done|]. exfalso.
  assert (Hin : Raise e ∈ int_of_float env <$> values).
  { apply list_elem_of_fmap. by exists v. }
  rewrite Hkeys in Hin. apply list_elem_of_fmap in Hin as (k & ? & _). done.
Qed.

Lemma sorted_values_numeric values :
  (∀ v, v ∈ values → ∃ k, int_of_float env v = Ok k) →
  StronglySorted (λ a b, ∃ ka kb, int_of_float env a = Ok ka
                           ∧ int_of_float env b = Ok kb ∧ ka ≤ kb)
                 (sorted_values true values).
Proof.
  intros Hall. unfold sorted_values.
  pose proof (all_ok_spec (int_of_float env <$> values)) as Hkeys.
  destruct (all_ok _) as [keys|].
  2: { destruct Hkeys as [e (v & He & Hv)%list_elem_of_fmap].
       destruct (Hall v Hv) as [k Hk]. congruence. }
  set (le := λ a b : Z * string, a.1 <=? b.1).
  assert (Hsorted : StronglySorted (λ a b, le a b = true) (sort_by le (zip keys values))).
  { apply sort_by_sorted; unfold le.
    - intros x y. rewrite !Z.leb_le. lia.
    - intros x y z. rewrite !Z.leb_le. lia. }
  assert (Hpairs : ∀ p, p ∈ sort_by le (zip keys values) → int_of_float env p.2 = Ok p.1).
  { intros p. rewrite sort_by_perm. clear Hsorted Hall. revert keys Hkeys.
    induction values as [|v values IH]; intros [|k keys] Hkeys; simpl in *;
      try by intros ?%elem_of_nil.
    injection Hkeys as Hk Hkeys.
    intros [->|Hp]%elem_of_cons; [done|]. by eapply IH. }
  induction Hsorted as [|p l Hs IH Hp]; simpl; constructor.
  - apply IH. intros q Hq. apply Hpairs. by right.
  - apply Forall_fmap. eapply Forall_impl.
    + apply Forall_forall. intros q Hq. exact (conj Hq (proj1 (Forall_forall _ _) Hp q Hq)).
    + intros q [Hq Hle]. simpl. exists p.1, q.1.
      split; [apply Hpairs; left|]. split; [apply Hpairs; by right|].
      unfold le in Hle. by apply Z.leb_le.
Qed.

Lemma kept_spec df column v :
  v ∈ kept df column →
  v ≠ EmptyString ∧ str_strip v ≠ EmptyString ∧ v ≠ "#" ∧ v ≠ "Not In Hierarchy".
Proof.
  unfold kept. intros [Hkeep _]%list_elem_of_filter.
  apply andb_true_iff in Hkeep as [[H1 H2]%andb_true_iff H3].
  unfold str_truthy in *.
  apply negb_true_iff in H1, H2, H3. apply bool_decide_eq_false in H3.
  apply String.eqb_neq in H1, H2. set_solver.
Qed.

Lemma extract_column_values_eval sac column h n st :
  (extract_column_values env sac column h n st).1
  = match (find_csv_file env sac h st).1 with
    | Ok (Some path) =>
        match (load_csv env path (find_csv_file env sac h st).2).1 with
        | Ok (Some df) =>
            if has_column column df
            then Ok (mkDF ["ID"; "Description"]
                       ((λ v, [Some v; Some v]) <$> sorted_values n (kept df column)))
            else Ok empty_dataset
        | Ok None => Ok empty_dataset
        | Raise e => Raise e
        end
    | Ok None => Ok empty_dataset
    | Raise e => Raise e
    end.
Proof.
  unfold extract_column_values, bind.
  destruct (find_csv_file env sac h st) as [[[path|]|e] st1]; simpl; try done.
  destruct (load_csv env path st1) as [[[df|]|e] st2]; simpl; try done.
  by destruct (has_column column df).
Qed.

Lemma extract_column_values_ids sac column h n st out :
  (extract_column_values env sac column h n st).1 = Ok out →
  columns out = ["ID"; "Description"]
  ∧ ∀ row, row ∈ rows out →
      ∃ v, row = [Some v; Some v] ∧ v ≠ "#" ∧ v ≠ EmptyString.
Proof.
  rewrite extract_column_values_eval.
  destruct (find_csv_file env sac h st).1 as [[path|]|e];
    [|by intros [= <-]; split; [|intros row ?%elem_of_nil]|done].
  destruct (load_csv env path _).1 as [[df|]|e];
    [|by intros [= <-]; split; [|intros row ?%elem_of_nil]|done].
  destruct (has_column column df);
    [|by intros [= <-]; split; [|intros row ?%elem_of_nil]].
  intros [= <-]. split; [done|]. simpl.
  intros row (v & -> & Hv)%list_elem_of_fmap. exists v. split; [done|].
  rewrite sorted_values_perm in Hv. apply kept_spec in Hv. tauto.
Qed.

(** X4.  [extract_column_values] raises nothing but [CSVError].  The
    table it returns has the columns [ID] and [Description], every row
    carrying one value in both; the values are distinct, none is empty,
    blank, [#] or [Not In Hierarchy]; they are in the order of strings
    when no numeric sort is asked for or when some value does not
    convert to a number, and in the order of their numbers when all
    convert. *)
Theorem extract_column_values_members sac column h n st :
  match (extract_column_values env sac column h n st).1 with
  | Ok out =>
      columns out = ["ID"; "Description"]
      ∧ ∃ values,
          rows out = (λ v, [Some v; Some v]) <$> values
          ∧ NoDup values
          ∧ (∀ v, v ∈ values →
               v ≠ EmptyString ∧ str_strip v ≠ EmptyString
               ∧ v ≠ "#" ∧ v ≠ "Not In Hierarchy")
          ∧ (n = false ∨ (∃ v e, v ∈ values ∧ int_of_float env v = Raise e) →
               StronglySorted (λ a b, String.leb a b = true) values)
          ∧ (n = true → (∀ v, v ∈ values → ∃ k, int_of_float env v = Ok k) →
               StronglySorted (λ a b, ∃ ka kb, int_of_float env a = Ok ka
                                        ∧ int_of_float env b = Ok kb ∧ ka ≤ kb)
                              values)
  | Raise e => is_csv_error e = true
  end.
Proof.
  pose proof (extract_column_values_raises env sac column h n st) as Hraise.
  rewrite extract_column_values_eval in Hraise |- *.
  assert (Hempty : columns empty_dataset = ["ID"; "Description"]
    ∧ ∃ values, rows empty_dataset = (λ v, [Some v; Some v]) <$> values
      ∧ NoDup values
      ∧ (∀ v, v ∈ values →
           v ≠ EmptyString ∧ str_strip v ≠ EmptyString
           ∧ v ≠ "#" ∧ v ≠ "Not In Hierarchy")
      ∧ (n = false ∨ (∃ v e, v ∈ values ∧ int_of_float env v = Raise e) →
           StronglySorted (λ a b, String.leb a b = true) values)
      ∧ (n = true → (∀ v, v ∈ values → ∃ k, int_of_float env v = Ok k) →
           StronglySorted (λ a b, ∃ ka kb, int_of_float env a = Ok ka
                                    ∧ int_of_float env b = Ok kb ∧ ka ≤ kb)
                          values)).
  { split; [done|]. exists []. split; [done|]. split; [constructor|].
    split; [by intros v ?%elem_of_nil|]. split; intros; constructor. }
  destruct (find_csv_file env sac h st).1 as [[path|]|e]; [|done|by apply Hraise].
  destruct (load_csv env path _).1 as [[df|]|e]; [|done|by apply Hraise].
  destruct (has_column column df); [|done].
  split; [done|]. eexists. split; [done|].
  split; [|split; [|split]].
  - rewrite sorted_values_perm. apply NoDup_filter, unique_NoDup.
  - intros v. rewrite sorted_values_perm. apply kept_spec.
  - intros [->|(v & e & Hv & He)]; apply sorted_values_lexical; [by left|].
    right. exists v, e. by rewrite sorted_values_perm in Hv.
  - intros -> Hall. apply sorted_values_numeric.
    intros v Hv. apply Hall. by rewrite sorted_values_perm.
Qed.

End Extraction.

(** ** The members of a loaded dimension *)

Lemma exclude_patterns_rows env patterns : ∀ df out,
  exclude_patterns env df patterns = Ok out →
  columns out = columns df ∧ ∀ r, r ∈ rows out → r ∈ rows df.
Proof.
  induction patterns as [|p ps IH]; intros df out; simpl.
  - by intros [= <-].
  - unfold exclude_pattern. destruct (re_compile env p) as [found|e]; [|done].
    intros [Hc Hr]%IH. simpl in *. split; [done|].
    intros r Hin%Hr. by apply list_elem_of_filter in Hin as [_ ?].
Qed.

Lemma apply_filters_rows env df f out :
  apply_filters env df f = Ok out →
  columns out = columns df
  ∧ ∀ r, r ∈ rows out →
      r ∈ rows df ∧ (df_empty df = false → id_list f ≠ [] →
                     cell_isin (row_id df r) (id_list f) = true).
Proof.
  unfold apply_filters. destruct (df_empty df) eqn:Hempty.
  { by intros [= <-]. }
  assert (Hexcl : ∀ df1,
    match exclude_description f with
    | [] => Ok df
    | p :: ps =>
        if has_column "Description" df
        then exclude_patterns env df (p :: ps) else Ok df
    end = Ok df1 → columns df1 = columns df ∧ ∀ r, r ∈ rows df1 → r ∈ rows df).
  { intros df1. destruct (exclude_description f) as [|p ps]; [by intros [= <-]|].
    destruct (has_column "Description" df); [|by intros [= <-]].
    apply exclude_patterns_rows. }
  destruct (match exclude_description f with [] => _ | _ => _ end) as [df1|e];
    [|done].
  destruct (Hexcl df1 eq_refl) as [Hc1 Hr1].
  destruct (id_list f) as [|i ids] eqn:Hids.
  { intros [= <-]. split; [done|]. intros r Hr. split; [by apply Hr1|done]. }
  destruct (has_column "ID" df1); [|done]. intros [= <-].
  split; [done|]. intros r [Hr Hin]%filter_id_list_rows.
  split; [by apply Hr1|]. intros _ _. unfold row_id in *. by rewrite <- Hc1.
Qed.

Lemma get_leaf_members_rows df pf out :
  get_leaf_members df pf = Ok out →
  columns out = columns df ∧ ∀ r, r ∈ rows out → r ∈ rows df.
Proof.
  unfold get_leaf_members. destruct (df_empty df); [by intros [= <-]|].
  destruct (find_parent_columns df) as [|c cs]; [by intros [= <-]|].
  destruct (has_column "ID" df); [|done]. intros [= <-]. simpl.
  split; [apply restrict_subtree_columns|].
  intros r [_ Hr]%list_elem_of_filter. by eapply restrict_subtree_rows.
Qed.

Lemma has_column_not_empty name df r :
  has_column name df = true → r ∈ rows df → df_empty df = false.
Proof.
  unfold has_column, df_empty. intros Hc%bool_decide_eq_true Hr.
  destruct (columns df); [by apply elem_of_nil in Hc|].
  destruct (rows df); [by apply elem_of_nil in Hr|done].
Qed.

(** The table [load_dimension] returns for a source table with an
    [ID] column, apart from the warnings it records. *)
Lemma process_dimension_eval env name h f df st :
  (process_dimension env name h f df st).1
  = match remove_unassigned df with
    | Raise e => Raise e
    | Ok df1 =>
        match apply_filters env df1 f with
        | Raise e => Raise e
        | Ok df2 =>
            match (if h then get_leaf_members df2 (flt_parent_filter f) else Ok df2) with
            | Raise e => Raise e
            | Ok df3 =>
                Ok (project_dataset
                      match id_list f with
                      | [] => df3
                      | i :: ids => filter_id_list df3 (i :: ids)
                      end)
            end
        end
    end.
Proof.
  unfold process_dimension, bind, lift.
  destruct (remove_unassigned df) as [df1|e]; [|done].
  destruct (apply_filters env df1 f) as [df2|e]; [|done].
  destruct h.
  - destruct (get_leaf_members df2 (flt_parent_filter f)) as [df3|e]; [|done].
    by destruct (rows (project_dataset _)).
  - unfold ret at 1. by destruct (rows (project_dataset _)).
Qed.

(** The rows that leave the pipeline of [load_dimension]. *)
Lemma process_dimension_rows env name h f df st out :
  (process_dimension env name h f df st).1 = Ok out →
  columns out = ["ID"; "Description"]
  ∧ ∀ row, row ∈ rows out →
      ∃ r v, r ∈ rows df ∧ row_id df r = Some v
        ∧ row = [Some v;
                 cell_at (columns df)
                   (if has_column "Description" df then "Description" else "ID") r]
        ∧ v ≠ "#" ∧ v ≠ EmptyString
        ∧ (id_list f ≠ [] → v ∈ id_list f).
Proof.
  rewrite process_dimension_eval.
  destruct (remove_unassigned df) as [df1|e] eqn:H1; [|done].
  destruct (remove_unassigned_rows df df1 H1) as (Hc1 & Hs1 & Hk1).
  destruct (apply_filters env df1 f) as [df2|e] eqn:H2; [|done].
  destruct (apply_filters_rows env df1 f df2 H2) as [Hc2 Hr2].
  destruct (if h then get_leaf_members df2 (flt_parent_filter f) else Ok df2)
    as [df3|e] eqn:H3; [|done].
  assert (Hc3 : columns df3 = columns df2 ∧ ∀ r, r ∈ rows df3 → r ∈ rows df2).
  { destruct h; [by apply get_leaf_members_rows in H3|by injection H3 as <-]. }
  destruct Hc3 as [Hc3 Hr3].
  set (df4 := match id_list f with
              | [] => df3 | i :: ids => filter_id_list df3 (i :: ids) end).
  assert (Hc4 : columns df4 = columns df).
  { unfold df4. destruct (id_list f); simpl; congruence. }
  assert (Hr4 : ∀ r, r ∈ rows df4 →
            r ∈ rows df3 ∧ (id_list f ≠ [] → cell_isin (row_id df r) (id_list f) = true)).
  { unfold df4. destruct (id_list f) as [|i ids] eqn:Hids; [done|].
    intros r [Hr Hin]%filter_id_list_rows. split; [done|]. intros _.
    unfold row_id in *. by rewrite Hc3, Hc2, Hc1 in Hin. }
  intros [= <-]. split; [done|]. unfold project_dataset; simpl.
  intros row (r & -> & [Hsome Hr]%list_elem_of_filter)%list_elem_of_fmap.
  destruct (Hr4 r Hr) as [Hin3 Hids].
  apply Hr3, Hr2 in Hin3 as [Hin1 _].
  destruct (Hk1 r Hin1) as (Hn1 & Hn2).
  unfold row_id in *. rewrite Hc4 in *.
  destruct (cell_at (columns df) "ID" r) as [v|] eqn:Hv; [|by destruct Hsome].
  exists r, v. split; [by eapply elem_of_sublist|]. split; [done|].
  rewrite (has_column_columns "Description" df df4 Hc4).
  split; [done|]. split; [congruence|]. split; [congruence|].
  intros Hne. specialize (Hids Hne). simpl in Hids.
  by apply bool_decide_eq_true in Hids.
Qed.

(** X5.  Whenever [load_dimension] returns, on any of its paths, the
    table has exactly the columns [ID] and [Description], every row has
    an ID that is neither NaN, [#] nor empty, and, unless a column is
    extracted, an ID from the configured ID list when there is one. *)
Theorem load_dimension_members env dim st out :
  (load_dimension env dim st).1 = Ok out →
  columns out = ["ID"; "Description"]
  ∧ ∀ row, row ∈ rows out →
      ∃ v d, row = [Some v; d] ∧ v ≠ "#" ∧ v ≠ EmptyString
        ∧ (opt_truthy (extract_column dim) = false →
           id_list (filters dim) ≠ [] → v ∈ id_list (filters dim)).
Proof.
  assert (Hempty : ∀ st0, (ret empty_dataset st0).1 = Ok out →
    columns out = ["ID"; "Description"]
    ∧ ∀ row, row ∈ rows out →
        ∃ v d, row = [Some v; d] ∧ v ≠ "#" ∧ v ≠ EmptyString
          ∧ (opt_truthy (extract_column dim) = false →
             id_list (filters dim) ≠ [] → v ∈ id_list (filters dim))).
  { intros st0 [= <-]. split; [done|]. by intros row ?%elem_of_nil. }
  assert (Hproc : ∀ name h df st0,
    opt_truthy (extract_column dim) = false →
    (process_dimension env name h (filters dim) df st0).1 = Ok out →
    columns out = ["ID"; "Description"]
    ∧ ∀ row, row ∈ rows out →
        ∃ v d, row = [Some v; d] ∧ v ≠ "#" ∧ v ≠ EmptyString
          ∧ (opt_truthy (extract_column dim) = false →
             id_list (filters dim) ≠ [] → v ∈ id_list (filters dim))).
  { intros name h df st0 _ [Hc Hr]%process_dimension_rows. split; [done|].
    intros row (r & v & _ & _ & -> & ? & ? & ?)%Hr. by eexists _, _. }
  unfold load_dimension.
  destruct (negb (opt_truthy (sac_name dim))); [done|].
  destruct (opt_truthy (extract_column dim)) eqn:Hext.
  { unfold try_except.
    pose proof (extract_column_values_ids env (default EmptyString (sac_name dim))
                  (default EmptyString (extract_column dim))
                  (default true (has_hierarchy dim)) (numeric_sort dim) st) as Hids.
    destruct (extract_column_values _ _ _ _ _ st) as [[d|e] st1]; simpl in *; [|done].
    intros [= <-]. destruct (Hids d eq_refl) as [Hc Hr]. split; [done|].
    intros row (v & -> & ? & ?)%Hr. by eexists _, _. }
  unfold bind at 1.
  destruct (find_csv_file env _ _ st) as [[[path|]|e] st1]; [| |done].
  2: { unfold bind, logger_warning, add_warning, modify. apply Hempty. }
  unfold bind at 1, try_except, bind at 1.
  destruct (load_csv env path st1) as [[loaded|e] st2]; simpl.
  2: { destruct (is_csv_error e); [|done]. unfold bind, add_error, modify. apply Hempty. }
  destruct loaded as [df|].
  2: { unfold bind, logger_warning, add_warning, modify. apply Hempty. }
  destruct (has_column "ID" df); [by apply Hproc|].
  destruct (select_id_column (columns df)); [by apply Hproc|].
  unfold bind, add_error, modify. apply Hempty.
Qed.

Lemma load_dimension_members_witness :
  (load_dimension (example_env unassigned_files) region_dimension initial_state).1
  = Ok (mkDF ["ID"; "Description"] [ [Some "N"; Some "North"] ])
  ∧ ∃ v d, [Some "N"; Some "North"] = [Some v; d] ∧ v ≠ "#" ∧ v ≠ EmptyString.
Proof.
  split; [reflexivity|].
  destruct (load_dimension_members (example_env unassigned_files) region_dimension
              initial_state (mkDF ["ID"; "Description"] [ [Some "N"; Some "North"] ])
              eq_refl) as [_ Hrows].
  destruct (Hrows [Some "N"; Some "North"]) as (v & d & Hr & Hn1 & Hn2 & _);
    [apply list_elem_of_here | by exists v, d].
Defined.

(** ** Source files that cannot be read *)

(** X6.  When the source file is found and [load_csv] raises
    [CSVError] on it: on the regular path [load_dimension] does not
    raise, records the message in [self.errors] and returns the empty
    dataset; when a column is to be extracted it raises
    [DimensionError] with the message
    [Failed to extract column <column> for <name>: <message>]. *)
Theorem load_dimension_csv_error env dim sac path msg st st1 :
  sac_name dim = Some sac → str_truthy sac = true →
  find_csv_file env sac (default true (has_hierarchy dim)) st = (Ok (Some path), st) →
  load_csv env path st = (Raise (CSVError msg), st1) →
  (opt_truthy (extract_column dim) = false →
   load_dimension env dim st
   = (Ok empty_dataset,
      mkState (errors st1 ++ [msg]) (warnings st1) (log_warnings st1)
              (dimension_data st1) (date_range st1)))
  ∧ (∀ column, extract_column dim = Some column → str_truthy column = true →
     load_dimension env dim st
     = (Raise (DimensionError ("Failed to extract column " +:+ column +:+ " for "
                               +:+ default "unknown" (dim_name dim) +:+ ": " +:+ msg)),
        st1)).
Proof.
  intros Hsac Htruthy Hfind Hload. unfold load_dimension.
  rewrite Hsac. simpl. rewrite Htruthy. simpl. split.
  - intros ->. unfold bind at 1. rewrite Hfind.
    unfold bind at 1, try_except, bind at 1. rewrite Hload. done.
  - intros column Hcol Hct. rewrite Hcol. simpl. rewrite Hct.
    unfold try_except, extract_column_values, bind. by rewrite Hfind, Hload.
Qed.

Lemma load_dimension_csv_error_witness :
  load_dimension empty_file_env region_dimension initial_state
  = (Ok empty_dataset,
     mkState ["CSV file is empty: downloads/RegionMaster.csv"] [] [] ∅ [])
  ∧ (load_dimension empty_file_env extracted_dimension initial_state).1
    = Raise (DimensionError
               "Failed to extract column Country for Country: CSV file is empty: downloads/RegionMaster.csv").
Proof.
  split.
  - apply (load_dimension_csv_error empty_file_env region_dimension "Region"
             "downloads/RegionMaster.csv"
             "CSV file is empty: downloads/RegionMaster.csv" initial_state initial_state);
      reflexivity.
  - rewrite (proj2 (load_dimension_csv_error empty_file_env extracted_dimension "Region"
                      "downloads/RegionMaster.csv"
                      "CSV file is empty: downloads/RegionMaster.csv"
                      initial_state initial_state eq_refl eq_refl eq_refl eq_refl)
                   "Country" eq_refl eq_refl).
    reflexivity.
Defined.

(** ** Dimensions that cannot be loaded *)

(** X7.  The loop of [create_excel] that loads the dimensions: when
    [load_dimension] raises [DimensionError], the column gets the empty
    dataset and the entry [<col>: <message>] joins the dimension
    errors; this is what happens for a dimension without [sac_name],
    and for the empty dict the lookup of an unknown column falls back
    to. *)
Theorem load_column_absorbs_dimension_error env dmap col errs st :
  (∀ msg st1, load_dimension env (default empty_dimension (dmap !! col)) st
              = (Raise (DimensionError msg), st1) →
     load_column env dmap col errs st
     = (Ok (errs ++ [col +:+ ": " +:+ msg]),
        mkState (errors st1) (warnings st1) (log_warnings st1)
                (<[col := empty_dataset]> (dimension_data st1)) (date_range st1)))
  ∧ (∀ dim, dmap !! col = Some dim → opt_truthy (sac_name dim) = false →
     load_column env dmap col errs st
     = (Ok (errs ++ [col +:+ ": Dimension '" +:+ default "unknown" (dim_name dim)
                     +:+ "' has no sac_name configured"]),
        mkState (errors st) (warnings st) (log_warnings st)
                (<[col := empty_dataset]> (dimension_data st)) (date_range st)))
  ∧ (dmap !! col = None →
     load_column env dmap col errs st
     = (Ok (errs ++ [col +:+ ": Dimension 'unknown' has no sac_name configured"]),
        mkState (errors st) (warnings st) (log_warnings st)
                (<[col := empty_dataset]> (dimension_data st)) (date_range st))).
Proof.
  split; [|split].
  - intros msg st1 Hload. unfold load_column, try_except, bind at 1. by rewrite Hload.
  - intros dim Hdim Hsac. unfold load_column, try_except, bind at 1. rewrite Hdim. simpl.
    unfold load_dimension. by rewrite Hsac.
  - intros Hdim. unfold load_column, try_except, bind at 1. by rewrite Hdim.
Qed.

(** ** Leaf extraction, continued *)

Lemma select_rows_id keep df :
  (∀ r, r ∈ rows df → keep r = true) → select_rows keep df = df.
Proof.
  intros Hall. destruct df as [cols rs]. unfold select_rows. simpl. f_equal.
  by apply filter_all.
Qed.

(** X8.  Without parent filter, leaf extraction is idempotent: the
    table [get_leaf_members] returns is returned unchanged when given
    to it again; its columns are those of the table given and its rows
    a sublist of the rows given. *)
Theorem leaf_members_idempotent df pf out :
  parent_filter_roots pf = None →
  get_leaf_members df pf = Ok out →
  get_leaf_members out pf = Ok out
  ∧ columns out = columns df
  ∧ rows out `sublist_of` rows df.
Proof.
  intros Hpf. unfold get_leaf_members.
  destruct (df_empty df) eqn:Hempty.
  { intros [= <-]. by rewrite Hempty. }
  destruct (find_parent_columns df) as [|c cs] eqn:Hcols.
  { intros [= <-]. by rewrite Hempty, Hcols. }
  destruct (has_column "ID" df) eqn:Hid; [|done].
  unfold restrict_subtree. rewrite Hpf. intros [= <-].
  split; [|split; [done|apply sublist_filter]].
  set (out := select_rows _ df).
  destruct (df_empty out); [done|].
  change (find_parent_columns out) with (find_parent_columns df). rewrite Hcols.
  change (has_column "ID" out) with (has_column "ID" df). rewrite Hid.
  f_equal. apply select_rows_id. intros r Hr.
  apply negb_true_iff. unfold id_isin, row_id.
  change (columns out) with (columns df).
  destruct (cell_at (columns df) "ID" r) as [v|] eqn:Hv; [|done].
  apply bool_decide_eq_false. intros Hin.
  apply elem_of_all_parent_ids in Hin as (col & r' & Hcol & Hr' & Hcell).
  apply list_elem_of_filter in Hr as [Hkeep _]. apply negb_true_iff in Hkeep.
  unfold id_isin, row_id in Hkeep. rewrite Hv in Hkeep.
  apply bool_decide_eq_false in Hkeep. apply Hkeep.
  apply elem_of_all_parent_ids. exists col, r'. split; [done|]. split; [|done].
  by apply list_elem_of_filter in Hr' as [_ ?].
Qed.

Lemma leaf_members_idempotent_witness :
  get_leaf_members
    (mkDF (columns sample_tree) [ [Some "B"; Some "Beta"; Some "R"; None] ]) PFNone
  = Ok (mkDF (columns sample_tree) [ [Some "B"; Some "Beta"; Some "R"; None] ]).
Proof.
  apply (leaf_members_idempotent sample_tree PFNone); reflexivity.
Defined.

(** X9.  With a parent filter on a table with parent columns, every
    row [get_leaf_members] returns is a row of the table whose ID is
    below one of the given parents: a child of one of them, or a child
    of such an ID. *)
Theorem subtree_keeps_descendants df pf roots out :
  find_parent_columns df ≠ [] →
  parent_filter_roots pf = Some roots →
  get_leaf_members df pf = Ok out →
  ∀ r, r ∈ rows out →
    r ∈ rows df
    ∧ descendant df (find_parent_columns df) (list_to_set (Some <$> roots)) (row_id df r).
Proof.
  intros Hcols Hpf. unfold get_leaf_members.
  destruct (df_empty df) eqn:Hempty.
  { intros [= <-] r Hr. unfold df_empty in Hempty.
    destruct (columns df) as [|c cs] eqn:Hc.
    - unfold find_parent_columns in Hcols. by rewrite Hc in Hcols.
    - destruct (rows df); [by apply elem_of_nil in Hr|done]. }
  destruct (find_parent_columns df) as [|c cs] eqn:Hpc; [done|].
  destruct (has_column "ID" df); [|done].
  intros [= <-] r [_ Hr]%list_elem_of_filter.
  unfold restrict_subtree in Hr. rewrite Hpf in Hr.
  apply list_elem_of_filter in Hr as [Hin Hr]. split; [done|].
  apply bool_decide_eq_true in Hin. by apply descendants_spec.
Qed.

Lemma subtree_keeps_descendants_witness :
  descendant sample_tree (find_parent_columns sample_tree) {[Some "R"]} (Some "B").
Proof.
  destruct (subtree_keeps_descendants sample_tree (PFStr "R") ["R"]
              (mkDF (columns sample_tree) [ [Some "B"; Some "Beta"; Some "R"; None] ])
              ltac:(done) eq_refl eq_refl [Some "B"; Some "Beta"; Some "R"; None])
    as [_ Hd].
  - simpl. left.
  - revert Hd. simpl. by rewrite union_empty_r_L.
Defined.

(** ** Loading leaves a dataset for every column *)

Lemma load_columns_loaded env dmap cols : ∀ errs st,
  (∀ c d, dmap !! c = Some d → filters_compile env (filters d)) →
  ∃ errs', (load_columns env dmap cols errs st).1 = Ok errs'
    ∧ ∀ c, c ∈ cols ∨ is_Some (dimension_data st !! c) →
        is_Some (dimension_data (load_columns env dmap cols errs st).2 !! c).
Proof.
  induction cols as [|col rest IH]; intros errs st Henv.
  - exists errs. simpl. split; [done|]. intros c [[]%elem_of_nil|]; done.
  - simpl. unfold bind at 1 3, get_state.
    destruct (dimension_data st !! col) as [d0|] eqn:Hcol.
    + destruct (IH errs st Henv) as (errs' & Hr & Hloaded).
      exists errs'. split; [done|].
      intros c [[->|Hc]%elem_of_cons|Hc]; apply Hloaded; [right|left|right]; done.
    + unfold bind.
      assert (Hcompile : filters_compile env
                (filters (default empty_dimension (dmap !! col)))).
      { destruct (dmap !! col) as [d|] eqn:Hd; simpl; [by eapply Henv|].
        by intros p ?%elem_of_nil. }
      destruct (load_column_spec env dmap col errs st Hcompile)
        as (errs1 & d & Hr1 & Hd1 & _).
      destruct (load_column env dmap col errs st) as [r1 st1]; simpl in *. subst r1.
      destruct (IH errs1 st1 Henv) as (errs' & Hr & Hloaded).
      exists errs'. split; [done|].
      intros c Hc. apply Hloaded. rewrite Hd1.
      destruct (decide (c = col)) as [->|Hne].
      * right. by rewrite lookup_insert_eq.
      * rewrite lookup_insert_ne by done.
        destruct Hc as [[->|Hc]%elem_of_cons|Hc]; [done|by left|by right].
Qed.

(** ** Templates whose structure is sound *)

(** X10.  For a template with columns that are all dimensions, when
    every dimension has a name, the exclusion patterns compile and the
    workbook is assembled and saved without fault, [create_excel]
    succeeds whatever the source files hold: the result carries no
    error, its warnings are the dimension errors, its status is
    [SUCCESS] exactly when there are none, the workbook has one lookup
    sheet per column, and every column has a dataset. *)
Theorem create_excel_succeeds env project dims dmap template st :
  dimensions_dict dims ∅ = Ok dmap →
  tpl_columns template ≠ [] →
  (∀ c, c ∈ tpl_columns template → is_Some (dmap !! c)) →
  template_patterns_compile env dmap template → workbook_written env →
  ∃ r created,
    (create_excel env project dims template st).1 = Ok r
    ∧ success r = true
    ∧ op_errors r = []
    ∧ data r = Some created
    ∧ created_columns created = tpl_columns template
    ∧ created_path created
      = path_join output_dir
          (default (default "Unknown" (tpl_name template) +:+ ".xlsx")
                   (output_file template))
    ∧ op_warnings r = created_dimension_errors created
    ∧ (status r = SUCCESS ↔ created_dimension_errors created = [])
    ∧ length (wb_sheets (created_workbook created)) = length (tpl_columns template)
    ∧ ∀ c, c ∈ tpl_columns template →
        is_Some (dimension_data (create_excel env project dims template st).2 !! c).
Proof.
  intros Hdict Hcols Hdefined [Hdims Hovs] [Hfault Hsave].
  unfold create_excel, try_except, bind, lift. rewrite Hdict.
  destruct (apply_overrides_spec (dimension_overrides template) dmap st)
    as (m' & Hm' & Hnone & Hsome).
  pose proof (apply_overrides_compile env (dimension_overrides template) dmap st m'
                Hm' Hdims Hovs) as Henv.
  destruct (apply_overrides (dimension_overrides template) dmap st) as [r st1].
  simpl in Hm'. subst r.
  destruct (tpl_columns template) as [|c0 cols] eqn:Hc; [done|].
  assert (Hfilter : filter (λ c, m' !! c = None) (c0 :: cols) = []).
  { apply filter_none_nil. intros c Hin Hn. apply Hnone in Hn.
    destruct (Hdefined c Hin) as [d Hd]. congruence. }
  rewrite Hfilter.
  destruct (load_columns_loaded env m' (c0 :: cols) [] st1 Henv) as (errs' & Hr & Hloaded).
  destruct (load_columns env m' (c0 :: cols) [] st1) as [r2 st2].
  simpl in Hr, Hloaded. subst r2.
  destruct errs' as [|e0 errs']; unfold ret, logger_warning, modify, get_state; simpl;
    rewrite Hfault, Hsave; simpl;
    (eexists _, _; split; [reflexivity|]; split; [reflexivity|]; split; [reflexivity|];
     split; [reflexivity|]; split; [reflexivity|]; split; [reflexivity|];
     split; [reflexivity|]; simpl;
     split; [by split|]; split; [by rewrite length_fmap, Hc|]).
  - intros c Hin. apply Hloaded. by left.
  - intros c Hin. apply Hloaded. by left.
Qed.

Lemma create_excel_succeeds_witness :
  ∃ r, (create_excel (example_env sample_files) sample_project
          [region_dimension; product_dimension] sample_template initial_state).1 = Ok r
       ∧ success r = true ∧ op_errors r = [].
Proof.
  destruct (create_excel_succeeds (example_env sample_files) sample_project
              [region_dimension; product_dimension]
              (<["Product" := product_dimension]> (<["Region" := region_dimension]> ∅))
              sample_template initial_state)
    as (r & created & Hr & Hs & He & _).
  - reflexivity.
  - done.
  - intros c Hc. simpl in Hc.
    repeat (apply elem_of_cons in Hc as [->|Hc]; [by eexists|]).
    by apply elem_of_nil in Hc.
  - split.
    + intros k d Hk p Hp.
      destruct (decide ("Product" = k)) as [<-|Hne1].
      { rewrite lookup_insert_eq in Hk. injection Hk as <-. by apply elem_of_nil in Hp. }
      rewrite lookup_insert_ne in Hk by done.
      destruct (decide ("Region" = k)) as [<-|Hne2].
      { rewrite lookup_insert_eq in Hk. injection Hk as <-. by apply elem_of_nil in Hp. }
      rewrite lookup_insert_ne in Hk by done. by rewrite lookup_empty in Hk.
    + intros name o ps p Hin. by apply elem_of_nil in Hin.
  - by split.
  - by exists r.
Defined.

(** ** Foreign exceptions *)

Lemma dimensions_dict_unnamed dims : ∀ acc,
  (∃ d, d ∈ dims ∧ dim_name d = None) →
  dimensions_dict dims acc = Raise (KeyError "name").
Proof.
  induction dims as [|d dims IH]; intros acc [d0 [Hin Hname]]; simpl.
  - by apply elem_of_nil in Hin.
  - destruct (dim_name d) as [n|] eqn:Hn; [|done].
    apply IH. exists d0. split; [|done].
    apply elem_of_cons in Hin as [->|Hin]; [congruence|done].
Qed.

(** X11.  [create_excel] raises nothing but the exceptions of the
    generator: any other exception is wrapped in an
    [ExcelGenerationError].  A dimension without name makes the dict of
    the dimensions fail with [KeyError], which leaves [create_excel] as
    [Unexpected error creating template <name>: 'name']. *)
Theorem create_excel_raises_own env project dims template st :
  (∀ e, (create_excel env project dims template st).1 = Raise e →
        is_sac_error e = true)
  ∧ ((∃ d, d ∈ dims ∧ dim_name d = None) →
     create_excel env project dims template st
     = (Raise (ExcelGenerationError
                 ("Unexpected error creating template "
                  +:+ default "Unknown" (tpl_name template) +:+ ": 'name'")), st)).
Proof.
  split.
  - intros e. unfold create_excel, try_except.
    match goal with |- context [match ?c st with _ => _ end] => destruct (c st) as [[r|e'] st'] end;
      [done|].
    destruct (is_sac_error e') eqn:He'; simpl.
    + by intros [= <-].
    + by intros [= <-].
  - intros Hd. unfold create_excel, try_except, bind, lift.
    by rewrite (dimensions_dict_unnamed dims ∅ Hd).
Qed.

(** ** The date range *)

Lemma month_loop_nil end_year end_m year month :
  month_loop end_year end_m year month = [] ↔ ¬ month_le year month end_year end_m.
Proof.
  rewrite month_loop_step.
  destruct (decide (month_le year month end_year end_m)); [|done].
  split; [done|]. tauto.
Qed.

(** What [load_date_range] leaves behind, in each of its branches. *)
Lemma load_date_range_cases env project st :
  let manual := opt_truthy (start_month project) && opt_truthy (end_month project) in
  let out := load_date_range env project st in
  errors out.2 = errors st ∧ warnings out.2 = warnings st
  ∧ dimension_data out.2 = dimension_data st
  ∧ (out.1 = Ok tt → date_range out.2 ≠ [])
  ∧ (manual = false →
     (∀ e, out.1 = Raise e → is_csv_error e = true ∧ date_range out.2 = date_range st)
     ∧ (path_exists env (path_join downloads_dir "VersionMaster.csv") = false →
        out.1 = Ok tt ∧ date_range out.2 = default_date_range)).
Proof.
  unfold load_date_range. cbv zeta.
  destruct (opt_truthy (start_month project) && opt_truthy (end_month project)).
  { unfold bind, lift, set_date_range, modify. simpl.
    destruct (expand_range _ _) as [[|t r]|e]; simpl; by repeat split. }
  destruct (negb (path_exists env (path_join downloads_dir "VersionMaster.csv")))
    eqn:Hexists; simpl.
  { split; [done|]. split; [done|]. split; [done|]. split; [done|]. by intros _. }
  apply negb_false_iff in Hexists. rewrite Hexists.
  unfold bind.
  pose proof (keeps_load_csv env (path_join downloads_dir "VersionMaster.csv") st)
    as [Hdata Hdates].
  pose proof (load_csv_raises env (path_join downloads_dir "VersionMaster.csv") st)
    as Hraise.
  assert (Hframe : errors (load_csv env (path_join downloads_dir "VersionMaster.csv") st).2
                   = errors st
                   ∧ warnings (load_csv env (path_join downloads_dir "VersionMaster.csv") st).2
                     = warnings st).
  { unfold load_csv. rewrite Hexists. simpl.
    destruct (read_csv env _) as [df| |msg|msg [df|]|msg]; by simpl. }
  destruct (load_csv env _ st) as [[loaded|e] st1]; simpl in *.
  2: { destruct Hframe as [-> ->]. split; [done|]. split; [done|]. split; [done|].
       split; [done|]. intros _. split; [|done]. intros e' [= <-].
       split; [by apply Hraise|done]. }
  destruct Hframe as [He Hw].
  assert (Hgo : ∀ c : M unit,
    (c = set_date_range default_date_range ∨ ∃ t r, c = set_date_range (t :: r)) →
    let out := c st1 in
    errors out.2 = errors st ∧ warnings out.2 = warnings st
    ∧ dimension_data out.2 = dimension_data st
    ∧ (out.1 = Ok tt → date_range out.2 ≠ [])
    ∧ (false = false →
       (∀ e, out.1 = Raise e → is_csv_error e = true ∧ date_range out.2 = date_range st)
       ∧ (true = false → out.1 = Ok tt ∧ date_range out.2 = default_date_range))).
  { intros c [->|(t & r & ->)]; simpl; by repeat split. }
  destruct loaded as [df|]; [|apply Hgo; by left].
  destruct (negb (has_column "ID" df)); [apply Hgo; by left|].
  destruct (filter _ (rows df)) as [|version_row rest]; [apply Hgo; by left|].
  cbv zeta.
  destruct (negb _); [apply Hgo; by left|].
  destruct (expand_range _ _) as [[|t r]|e]; apply Hgo; [by left|right; by eexists _, _|by left].
Qed.

(** X12.  Without a manual range, [load_date_range] leaves errors,
    warnings and loaded dimensions alone and either returns with a date
    range that is not empty or raises the [CSVError] of [load_csv],
    with the date range unchanged; when [VersionMaster.csv] does not
    exist it returns with the twelve months of 2025. *)
Theorem version_range_fallback env project st :
  opt_truthy (start_month project) && opt_truthy (end_month project) = false →
  let out := load_date_range env project st in
  errors out.2 = errors st ∧ warnings out.2 = warnings st
  ∧ dimension_data out.2 = dimension_data st
  ∧ (out.1 = Ok tt ∧ date_range out.2 ≠ []
     ∨ ∃ e, out.1 = Raise e ∧ is_csv_error e = true ∧ date_range out.2 = date_range st)
  ∧ (path_exists env (path_join downloads_dir "VersionMaster.csv") = false →
     out.1 = Ok tt ∧ date_range out.2 = default_date_range).
Proof.
  intros Hmanual.
  destruct (load_date_range_cases env project st) as (He & Hw & Hd & Hne & Hv).
  destruct (Hv Hmanual) as [Hraise Hmissing].
  cbv zeta. split; [done|]. split; [done|]. split; [done|]. split; [|done].
  destruct (load_date_range env project st).1 as [[]|e] eqn:Hout.
  - left. split; [done|]. by apply Hne.
  - right. exists e. split; [done|]. by apply Hraise.
Qed.

Lemma version_range_fallback_witness :
  (load_date_range (example_env []) (mkProject None None None None None None)
     initial_state).1 = Ok tt
  ∧ date_range (load_date_range (example_env []) (mkProject None None None None None None)
                  initial_state).2 = default_date_range.
Proof.
  apply (version_range_fallback (example_env []) (mkProject None None None None None None)
           initial_state); reflexivity.
Defined.

(** X13.  The step of [generate] that loads the date range never
    raises.  Either [load_date_range] returned, and then the date range
    is not empty and no warning is added; or it raised, and then the
    warning [Date range error: <message>] is added.  The warning
    [No date range loaded] is never produced. *)
Theorem date_range_step_outcome env project st :
  ∃ st', date_range_step env project st = (Ok tt, st')
    ∧ errors st' = errors st ∧ dimension_data st' = dimension_data st
    ∧ ((load_date_range env project st).1 = Ok tt
       ∧ warnings st' = warnings st ∧ date_range st' ≠ []
       ∨ ∃ e, (load_date_range env project st).1 = Raise e
              ∧ warnings st' = warnings st ++ ["Date range error: " +:+ exn_message e]
              ∧ date_range st' = date_range (load_date_range env project st).2).
Proof.
  unfold date_range_step, try_except, bind at 1.
  destruct (load_date_range_cases env project st) as (He & Hw & Hd & Hne & _).
  destruct (load_date_range env project st) as [[[]|e] st1]; simpl in *.
  - unfold bind, get_state. specialize (Hne eq_refl).
    destruct (date_range st1) as [|t r] eqn:Hr; [done|].
    exists st1. split; [done|]. split; [done|]. split; [done|]. left.
    by rewrite Hr.
  - eexists. split; [done|]. simpl. split; [done|]. split; [done|]. right.
    exists e. by rewrite Hw.
Qed.

(** X14.  With a manual range configured: when the two strings do not
    parse, the step of [generate] that loads the date range leaves the
    date range as it was and adds the warning with the text of the
    exception; when they parse to a start month after the end month,
    [load_date_range] empties the date range and raises at
    [self.date_range[0]], and [generate] goes on with an empty date
    range and the warning [Date range error: list index out of range]. *)
Theorem manual_range_failures env project first last st :
  start_month project = Some first → end_month project = Some last →
  str_truthy first = true → str_truthy last = true →
  (∀ e, expand_range first last = Raise e →
        date_range_step env project st
        = (Ok tt, mkState (errors st) (warnings st ++ ["Date range error: " +:+ exn_message e])
                    (log_warnings st) (dimension_data st) (date_range st)))
  ∧ (∀ start_year start_m end_year end_m,
       py_int (str_take 4 first) = Ok start_year → py_int (str_drop 4 first) = Ok start_m →
       py_int (str_take 4 last) = Ok end_year → py_int (str_drop 4 last) = Ok end_m →
       ¬ month_le start_year start_m end_year end_m →
       load_date_range env project st
       = (Raise (OtherError "list index out of range"),
          mkState (errors st) (warnings st) (log_warnings st) (dimension_data st) [])
       ∧ date_range_step env project st
         = (Ok tt, mkState (errors st)
                     (warnings st ++ ["Date range error: list index out of range"])
                     (log_warnings st) (dimension_data st) [])).
Proof.
  intros Hs He Hts Hte.
  assert (Hload : load_date_range env project st
    = match expand_range first last with
      | Ok [] => (Raise (OtherError "list index out of range"),
                  mkState (errors st) (warnings st) (log_warnings st) (dimension_data st) [])
      | Ok (t :: r) => (Ok tt, mkState (errors st) (warnings st) (log_warnings st)
                                 (dimension_data st) (t :: r))
      | Raise e => (Raise e, st)
      end).
  { unfold load_date_range. rewrite Hs, He. simpl. rewrite Hts, Hte. simpl.
    unfold bind, lift, set_date_range, modify.
    by destruct (expand_range first last) as [[|t r]|e]. }
  split.
  - intros e Hraise. unfold date_range_step, try_except, bind at 1.
    by rewrite Hload, Hraise.
  - intros sy sm ey em Hsy Hsm Hey Hem Hgt.
    assert (Hexp : expand_range first last = Ok []).
    { unfold expand_range. rewrite Hsy, Hsm, Hey, Hem. f_equal.
      by apply month_loop_nil. }
    rewrite Hexp in Hload. split; [done|].
    unfold date_range_step, try_except, bind at 1. by rewrite Hload.
Qed.

Lemma manual_range_failures_witness :
  date_range_step (example_env []) (manual_project "202603" "202501") initial_state
  = (Ok tt, mkState [] ["Date range error: list index out of range"] [] ∅ []).
Proof.
  refine (proj2 (proj2 (manual_range_failures (example_env [])
                          (manual_project "202603" "202501") "202603" "202501"
                          initial_state eq_refl eq_refl eq_refl eq_refl)
                   2026 3 2025 1 eq_refl eq_refl eq_refl eq_refl _)).
  unfold month_le. lia.
Defined.

(** ** Lookup sheets and the dropdowns that refer to them *)



(** ** Overrides *)

(** X16.  The overrides of a template never raise, add or remove a
    dimension: the dict has the same keys afterwards, a dimension that
    no override names is unchanged, an overridden one differs in its
    filters only, and with distinct names its filters are its own
    updated by the override.  Each override that names no dimension
    adds one warning; errors, loaded dimensions and date range are left
    alone. *)
Theorem overrides_keep_dimensions overrides : ∀ m st,
  ∃ m' st',
    apply_overrides overrides m st = (Ok m', st')
    ∧ dom m' = dom m
    ∧ (∀ k, k ∉ overrides.*1 → m' !! k = m !! k)
    ∧ (∀ k d', m' !! k = Some d' →
         ∃ d, m !! k = Some d ∧ d' = with_filters d (filters d'))
    ∧ (NoDup overrides.*1 → ∀ k o d, (k, o) ∈ overrides → m !! k = Some d →
         m' !! k = Some (with_filters d (update_filters (filters d) o)))
    ∧ errors st' = errors st ∧ dimension_data st' = dimension_data st
    ∧ date_range st' = date_range st
    ∧ warnings st'
      = warnings st
        ++ ((λ name, "Override specified for unknown dimension: " +:+ name)
              <$> filter (λ name, m !! name = None) overrides.*1).
Proof.
  induction overrides as [|[name o] rest IH]; intros m st; simpl.
  - exists m, st. split; [done|]. split; [done|]. split; [done|]. split.
    { intros k d' Hk. exists d'. split; [done|]. by destruct d'. }
    split; [by intros _ k o d ?%elem_of_nil|]. by rewrite app_nil_r.
  - destruct (m !! name) as [d0|] eqn:Hname.
    + destruct (IH (<[name := with_filters d0 (update_filters (filters d0) o)]> m) st)
        as (m' & st' & Hrun & Hdom & Hother & Hsome & Hover & He & Hd & Hr & Hw).
      exists m', st'. split; [done|]. split; [|split; [|split; [|split]]].
      * rewrite Hdom, dom_insert_L. apply elem_of_dom_2 in Hname. set_solver.
      * intros k Hk. apply not_elem_of_cons in Hk as [Hne Hk].
        rewrite Hother by done. by rewrite lookup_insert_ne.
      * intros k d' Hk. destruct (Hsome k d' Hk) as (d & Hd0 & Heq).
        destruct (decide (name = k)) as [<-|Hne].
        -- rewrite lookup_insert_eq in Hd0. injection Hd0 as <-.
           exists d0. split; [done|]. rewrite Heq. by destruct d0.
        -- rewrite lookup_insert_ne in Hd0 by done. by exists d.
      * intros Hnd k o' d Hin Hk. apply NoDup_cons in Hnd as [Hnotin Hnd].
        apply elem_of_cons in Hin as [[= -> ->]|Hin].
        -- rewrite Hother by done. rewrite lookup_insert_eq. congruence.
        -- assert (Hne : name ≠ k).
           { intros ->. apply Hnotin. apply list_elem_of_fmap. by exists (k, o'). }
           apply (Hover Hnd k o' d Hin). by rewrite lookup_insert_ne.
      * split; [done|]. split; [done|]. split; [done|]. rewrite Hw. f_equal. f_equal.
        rewrite filter_cons. destruct (decide (m !! name = None)); [congruence|].
        apply list_filter_iff. intros k.
        destruct (decide (name = k)) as [<-|Hne].
        -- rewrite lookup_insert_eq, Hname. done.
        -- by rewrite lookup_insert_ne.
    + unfold bind at 1. unfold bind at 1, logger_warning, add_warning, modify. simpl.
      destruct (IH m (mkState (errors st)
                        (warnings st ++ ["Override specified for unknown dimension: " +:+ name])
                        (log_warnings st ++ ["Override specified for unknown dimension: " +:+ name])
                        (dimension_data st) (date_range st)))
        as (m' & st' & Hrun & Hdom & Hother & Hsome & Hover & He & Hd & Hr & Hw).
      exists m', st'. split; [done|]. split; [done|]. split.
      { intros k Hk. apply not_elem_of_cons in Hk as [Hne Hk]. by apply Hother. }
      split; [done|]. split.
      { intros Hnd k o' d Hin Hk. apply NoDup_cons in Hnd as [Hnotin Hnd].
        apply elem_of_cons in Hin as [[= -> ->]|Hin]; [congruence|].
        by apply (Hover Hnd k o' d Hin). }
      split; [done|]. split; [done|]. split; [done|]. rewrite Hw. simpl.
      rewrite filter_cons. destruct (decide (m !! name = None)); [|done].
      simpl. by rewrite <- app_assoc.
Qed.

(** ** The report of a run *)

Section Report.

Context (env : Env) (project : Project) (dims : list Dimension).

(** The part of [generate] that follows the selection of the templates. *)
Lemma generate_selected_result ts st :
  ts ≠ [] →
  ∃ r results,
    ((date_range_step env project ;;
      let* results := generate_templates env project dims (mkResults [] [] []) ts in
      summarize results) st).1 = Ok r
    ∧ data r = Some results
    ∧ (length (r_success results) + length (r_failed results) = length ts)%nat
    ∧ (success r = true ↔ r_success results ≠ [])
    ∧ (r_failed results = [] → op_errors r = [])
    ∧ op_errors r = f_error <$> r_failed results.
Proof.
  intros Hne. unfold bind at 1.
  pose proof (date_range_step_never env project st) as Hnever.
  destruct (date_range_step env project st) as [[[]|e] st1]; simpl in Hnever;
    [|by specialize (Hnever e eq_refl)].
  unfold bind at 1.
  destruct (generate_templates_entries env project dims ts (mkResults [] [] []) st1)
    as (results & Hr & Hs & Hf).
  destruct (generate_templates env project dims (mkResults [] [] []) ts st1) as [x st2].
  simpl in Hr, Hs, Hf. subst x. unfold summarize, bind, get_state.
  assert (Hlen : (length (r_success results) + length (r_failed results)
                  = length ts)%nat)
    by (rewrite Hs, Hf; apply entries_length).
  exists (match r_failed results with
          | [] => op_ok ("Generated " +:+ fmt_int (Z.of_nat (length (r_success results)))
                         +:+ " template(s)")
                        (Some results) (r_warnings results ++ warnings st2)
          | _ :: _ =>
              mkResult (match r_success results with [] => ERROR | _ :: _ => WARNING end)
                ("Generated " +:+ fmt_int (Z.of_nat (length (r_success results)))
                 +:+ ", failed " +:+ fmt_int (Z.of_nat (length (r_failed results))))
                (Some results) (f_error <$> r_failed results)
                (r_warnings results ++ warnings st2)
          end), results.
  destruct (r_failed results) as [|f fs] eqn:Hfailed; simpl.
  - split; [done|]. split; [done|]. split; [done|]. split; [|done].
    unfold success, op_ok; simpl.
    assert (r_success results ≠ []).
    { intros Hnil. rewrite Hnil in Hlen. simpl in Hlen. destruct ts; [done|]. simpl in Hlen. lia. }
    by destruct (r_warnings results ++ warnings st2).
  - split; [done|]. split; [done|]. split; [done|]. split; [|done].
    unfold success; simpl. by destruct (r_success results).
Qed.

End Report.

(** X17.  [generate] never raises: it returns a result.  The result is
    successful exactly when it carries results with at least one
    template created, and a result that is not successful carries an
    error.  The results count every selected template once, as created
    or as failed, and the errors of the result are the errors of the
    failed ones. *)
Theorem generate_reports env project dims templates template_name st :
  let selected :=
    if opt_truthy template_name
    then filter (λ t, tpl_name t = template_name) templates else templates in
  ∃ r, (generate env project dims templates template_name st).1 = Ok r
    ∧ (success r = true ↔ ∃ results, data r = Some results ∧ r_success results ≠ [])
    ∧ (success r = false → op_errors r ≠ [])
    ∧ (∀ results, data r = Some results →
         (length (r_success results) + length (r_failed results) = length selected)%nat
         ∧ op_errors r = f_error <$> r_failed results).
Proof.
  cbv zeta. unfold generate. unfold bind at 1, modify at 1.
  set (st0 := mkState [] [] (log_warnings st) (dimension_data st) (date_range st)).
  assert (Hfail : ∀ msg errs,
    ∃ r : OperationResult Results, (ret (op_fail msg errs) st0).1 = Ok r
      ∧ (success r = true ↔ ∃ results, data r = Some results ∧ r_success results ≠ [])
      ∧ (success r = false → op_errors r ≠ [])
      ∧ (∀ results, data r = Some results →
           (length (r_success results) + length (r_failed results)
            = length (if opt_truthy template_name
                      then filter (λ t, tpl_name t = template_name) templates
                      else templates))%nat
           ∧ op_errors r = f_error <$> r_failed results)).
  { intros msg errs. eexists. split; [done|]. split; [|split].
    - split; [done|]. by intros (results & Hd & _).
    - intros _. by destruct errs.
    - done. }
  destruct templates as [|t ts]; [apply Hfail|].
  destruct (if opt_truthy template_name
            then filter (λ t, tpl_name t = template_name) (t :: ts)
            else t :: ts) as [|t0 ts0] eqn:Hsel; [apply Hfail|].
  destruct (generate_selected_result env project dims (t0 :: ts0) st0)
    as (r & results & Hr & Hd & Hlen & Hsucc & _ & Herrs); [done|].
  exists r. split; [done|]. split; [|split].
  - rewrite Hsucc. split.
    + intros Hne. by exists results.
    + intros (results' & Hd' & Hne). congruence.
  - intros Hfalse Hnil. rewrite Herrs in Hnil. apply fmap_nil_inv in Hnil.
    rewrite Hnil in Hlen.
    assert (r_success results ≠ []).
    { intros Hs. rewrite Hs in Hlen. simpl in Hlen. lia. }
    apply Hsucc in H. congruence.
  - intros results' Hd'. assert (results' = results) as -> by congruence. done.
Qed.

(** X18.  [generate] with a template name does what [generate] does
    for the batch of the templates of that name; it fails with
    [Template '<name>' not found] and the list of the available names
    when there is none; the empty name selects all templates; and
    without any template configured it fails whatever name is given.
    The lists of errors and warnings are reset in every case. *)
Theorem generate_by_name env project dims templates name st :
  let selected := filter (λ t, tpl_name t = Some name) templates in
  let st0 := mkState [] [] (log_warnings st) (dimension_data st) (date_range st) in
  (str_truthy name = true → selected ≠ [] →
   generate env project dims templates (Some name) st
   = generate env project dims selected None st)
  ∧ (str_truthy name = true → templates ≠ [] → selected = [] →
     generate env project dims templates (Some name) st
     = (Ok (op_fail ("Template '" +:+ name +:+ "' not found")
                    ["Available templates: " +:+ repr_list env (tpl_name <$> templates)]),
        st0))
  ∧ generate env project dims templates (Some EmptyString) st
    = generate env project dims templates None st
  ∧ generate env project dims [] (Some name) st
    = (Ok (op_fail "No templates configured in config/templates.json" []), st0).
Proof.
  cbv zeta. split; [|split; [|split]].
  - intros Htruthy Hne. unfold generate. simpl opt_truthy. rewrite Htruthy.
    destruct templates as [|t ts]; [done|].
    unfold bind at 1 3, modify.
    by destruct (filter (λ t, tpl_name t = Some name) (t :: ts)).
  - intros Htruthy Hne Hnil. unfold generate. simpl opt_truthy. rewrite Htruthy.
    destruct templates as [|t ts]; [done|].
    unfold bind at 1, modify. by rewrite Hnil.
  - done.
  - done.
Qed.

Lemma generate_by_name_witness :
  generate (example_env sample_files) sample_project [region_dimension; product_dimension]
    [empty_template; sample_template; undefined_template] (Some "Sales") initial_state
  = generate (example_env sample_files) sample_project [region_dimension; product_dimension]
      [sample_template] None initial_state.
Proof.
  apply (generate_by_name (example_env sample_files) sample_project
           [region_dimension; product_dimension]
           [empty_template; sample_template; undefined_template] "Sales" initial_state);
    done.
Defined.

(** ** Downloads *)

(** A hypothesis on the status of a result that its construction refutes. *)
Ltac status_contra :=
  let Hf := fresh "Hf" in
  intros Hf; unfold success, op_ok, op_fail in Hf; cbn [status] in Hf; discriminate Hf.

Lemma build_download_url_cases conn sac h :
  (∃ url, build_download_url conn sac h = Returned url
          ∧ opt_truthy (base_url conn) = true ∧ opt_truthy (model_id conn) = true)
  ∨ (build_download_url conn sac h
     = ConfigurationError "SAC connection not fully configured"
     ∧ (opt_truthy (base_url conn) = false ∨ opt_truthy (model_id conn) = false)).
Proof.
  unfold build_download_url.
  destruct (base_url conn) as [u|], (model_id conn) as [m|]; simpl;
    try (destruct (str_truthy u)); try (destruct (str_truthy m)); simpl; eauto.
Qed.

Lemma path_exists_insert env (disk : gmap string string) p content :
  path_exists (on_disk env (<[p := content]> disk)) p = true.
Proof.
  unfold on_disk. cbn [path_exists]. apply bool_decide_eq_true.
  rewrite lookup_insert_eq. by eexists.
Qed.

(** X19.  A download that returns data has written the file
    [<sac><suffix>.csv] in the downloads folder, at least ten bytes
    long, and is successful; [find_csv_file] with the same source name
    and flag then returns that file. *)
Theorem download_then_find web conn sac h cookies disk r d disk' env st :
  download_dimension web conn sac h cookies disk = (Returned r, disk') →
  data r = Some d →
  success r = true
  ∧ dl_path d = path_join downloads_dir (sac +:+ suffix_of h +:+ ".csv")
  ∧ (∃ content, disk' = <[dl_path d := content]> disk
                ∧ dl_size d = Z.of_nat (String.length content) ∧ 10 ≤ dl_size d)
  ∧ find_csv_file (on_disk env disk') sac h st = (Ok (Some (dl_path d)), st).
Proof.
  unfold download_dimension.
  destruct (build_download_url conn sac h) as [url|m]; [|done].
  destruct (http_get web url cookies) as [code reason content|text|text|text]; try done.
  2-4: by intros [= <- <-].
  destruct (code =? 200).
  2: { destruct (code =? 401); [by intros [= <- <-]|].
       destruct (code =? 403); [by intros [= <- <-]|].
       destruct (code =? 404); by intros [= <- <-]. }
  destruct (Z.ltb_spec (Z.of_nat (String.length content)) 10) as [|Hsize];
    [by intros [= <- <-]|].
  destruct (open_fault web _); [by intros [= <- <-]|].
  intros [= <- <-] [= <-]. simpl. split; [done|]. split; [done|]. split.
  { by exists content. }
  rewrite find_csv_file_eval.
  destruct h; unfold suffix_of; cbn [String.append List.find];
    by rewrite path_exists_insert.
Qed.

Lemma download_then_find_witness :
  find_csv_file
    (on_disk (example_env [])
       (<["downloads/RegionMaster.csv" := "ID,Description,N,North,S,South"]> ∅))
    "Region" false initial_state
  = (Ok (Some "downloads/RegionMaster.csv"), initial_state).
Proof.
  refine (proj2 (proj2 (proj2
            (download_then_find sample_web sample_connection "Region" false
               [("session", "1")] ∅ _ (mkDownloaded "downloads/RegionMaster.csv" 30) _
               (example_env []) initial_state eq_refl eq_refl)))).
Defined.

(** With a tenant and a model configured, [download_dimension] returns. *)
Lemma download_dimension_cases web conn sac h cookies disk :
  opt_truthy (base_url conn) = true → opt_truthy (model_id conn) = true →
  ∃ r disk', download_dimension web conn sac h cookies disk = (Returned r, disk').
Proof.
  intros Hurl Hmodel. unfold download_dimension.
  destruct (build_download_url_cases conn sac h) as [(url & -> & _)|[_ [H|H]]];
    [|congruence..].
  destruct (http_get web url cookies) as [code reason content|text|text|text];
    try by eexists _, _.
  destruct (code =? 200).
  - destruct (_ <? 10); [by eexists _, _|]. destruct (open_fault web _); by eexists _, _.
  - destruct (code =? 401); [by eexists _, _|]. destruct (code =? 403); [by eexists _, _|].
    destruct (code =? 404); by eexists _, _.
Qed.


(** ** Appending strings *)

Lemma list_of_append (a b : string) :
  String.list_ascii_of_string (a +:+ b)
  = String.list_ascii_of_string a ++ String.list_ascii_of_string b.
Proof. induction a as [|c a IH]; simpl; by f_equal. Qed.

Lemma list_of_string_inj (a b : string) :
  String.list_ascii_of_string a = String.list_ascii_of_string b → a = b.
Proof.
  intros H. rewrite <- (String.string_of_list_ascii_of_string a),
    <- (String.string_of_list_ascii_of_string b). by rewrite H.
Qed.

Lemma length_list_of_string (a : string) :
  length (String.list_ascii_of_string a) = String.length a.
Proof. induction a as [|c a IH]; simpl; by f_equal. Qed.

Lemma append_inj_suffix (a b t1 t2 : string) :
  String.length t1 = String.length t2 → a +:+ t1 = b +:+ t2 → a = b ∧ t1 = t2.
Proof.
  intros Hlen Heq. apply (f_equal String.list_ascii_of_string) in Heq.
  rewrite !list_of_append in Heq. apply app_inj_2 in Heq as [Ha Ht].
  - split; by apply list_of_string_inj.
  - by rewrite !length_list_of_string.
Qed.

Lemma append_assoc (a b c : string) : (a +:+ b) +:+ c = a +:+ (b +:+ c).
Proof.
  induction a as [|x a IH]; [done|].
  change (String x ((a +:+ b) +:+ c) = String x (a +:+ (b +:+ c))). by rewrite IH.
Qed.

Lemma download_key_inj sac1 h1 sac2 h2 :
  download_key sac1 h1 = download_key sac2 h2 → sac1 = sac2 ∧ h1 = h2.
Proof.
  unfold download_key. destruct h1, h2; intros Heq.
  - by apply append_inj_suffix in Heq as [-> _].
  - change (sac1 +:+ "_True" = sac2 +:+ ("_" +:+ "False")) in Heq.
    rewrite <- (append_assoc sac2) in Heq.
    by apply append_inj_suffix in Heq as [_ ?].
  - change (sac1 +:+ ("_" +:+ "False") = sac2 +:+ "_True") in Heq.
    rewrite <- (append_assoc sac1) in Heq.
    by apply append_inj_suffix in Heq as [_ ?].
  - by apply append_inj_suffix in Heq as [-> _].
Qed.

(** ** The dimensions to download *)

Lemma collect_downloads_spec dims : ∀ acc ws,
  NoDup acc.*1 →
  (∀ k p, (k, p) ∈ acc → k = download_key p.1 p.2) →
  let out := collect_downloads dims acc ws in
  NoDup out.1.*1
  ∧ (∀ k p, (k, p) ∈ out.1 → k = download_key p.1 p.2)
  ∧ (∀ p, p ∈ out.1.*2 ↔ p ∈ acc.*2 ∨ p ∈ wanted_downloads dims)
  ∧ out.2
    = ws ++ ((λ dim, "Dimension '" +:+ default "unknown" (dim_name dim)
                     +:+ "' has no sac_name")
               <$> filter (λ dim, opt_truthy (sac_name dim) = false) dims).
Proof.
  induction dims as [|dim dims IH]; intros acc ws Hnd Hkeys; cbv zeta; simpl.
  - split; [done|]. split; [done|]. split; [|by rewrite app_nil_r].
    intros p. unfold wanted_downloads. simpl. rewrite elem_of_nil. tauto.
  - unfold wanted_downloads. simpl. rewrite filter_cons.
    destruct (opt_truthy (sac_name dim)) eqn:Hsac; simpl.
    + destruct (decide (true = false)) as [|_]; [done|].
      set (sac := default EmptyString (sac_name dim)).
      set (h := default true (has_hierarchy dim)).
      destruct (bool_decide_reflect (download_key sac h ∈ acc.*1)) as [Hin|Hnotin].
      * destruct (IH acc ws Hnd Hkeys) as (H1 & H2 & H3 & H4).
        split; [done|]. split; [done|]. split; [|done].
        intros p. rewrite H3, elem_of_cons.
        assert ((sac, h) ∈ acc.*2).
        { apply list_elem_of_fmap in Hin as ([k q] & Hk & Hq). simpl in Hk.
          apply list_elem_of_fmap. exists (k, q). split; [|done]. simpl.
          pose proof (Hkeys k q Hq) as Hkq. rewrite <- Hk in Hkq.
          apply download_key_inj in Hkq as [Hs Hh]. destruct q as [s' h'].
          simpl in *. by rewrite Hs, Hh. }
        unfold wanted_downloads. naive_solver.
      * destruct (IH (acc ++ [(download_key sac h, (sac, h))]) ws) as (H1 & H2 & H3 & H4).
        { rewrite fmap_app. simpl. apply NoDup_app. split; [done|].
          split; [|apply NoDup_singleton].
          intros k Hk Heq%list_elem_of_singleton. by subst k. }
        { intros k p [Hin|Heq%list_elem_of_singleton]%elem_of_app; [by apply Hkeys|].
          by injection Heq as -> ->. }
        split; [done|]. split; [done|]. split; [|done].
        intros p. rewrite H3, fmap_app, elem_of_app, elem_of_cons. simpl.
        rewrite list_elem_of_singleton. unfold wanted_downloads. tauto.
    + destruct (decide (false = false)) as [_|]; [|done].
      destruct (IH acc (ws ++ ["Dimension '" +:+ default "unknown" (dim_name dim)
                               +:+ "' has no sac_name"]) Hnd Hkeys) as (H1 & H2 & H3 & H4).
      split; [done|]. split; [done|]. split; [done|].
      rewrite H4. simpl. by rewrite <- app_assoc.
Qed.

Lemma download_each_spec web conn cookies todo : ∀ results disk,
  opt_truthy (base_url conn) = true → opt_truthy (model_id conn) = true →
  ∃ results' disk',
    download_each web conn cookies todo results disk = (Returned results', disk')
    ∧ (length (d_success results') + length (d_failed results')
       = length (d_success results) + length (d_failed results) + length todo)%nat
    ∧ (∀ sac, sac ∈ d_success results' → sac ∈ d_success results ∨ sac ∈ todo.*1)
    ∧ (∀ w, w ∈ d_warnings results → w ∈ d_warnings results').
Proof.
  induction todo as [|[sac h] todo IH]; intros results disk Hurl Hmodel; simpl.
  - exists results, disk. split; [done|]. split; [lia|]. by split; [left|].
  - pose proof (download_dimension_cases web conn sac h cookies disk Hurl Hmodel)
      as (r & disk1 & Hdl).
    rewrite Hdl.
    destruct (IH (if success r
                  then mkDownloads (d_success results ++ [sac]) (d_failed results)
                                   (d_warnings results ++ op_warnings r)
                  else mkDownloads (d_success results)
                                   (d_failed results ++ [(sac, message r)])
                                   (d_warnings results)) disk1 Hurl Hmodel)
      as (results' & disk' & Hrun & Hlen & Hsucc & Hwarn).
    exists results', disk'. split; [done|].
    destruct (success r); simpl in *; rewrite ?length_app in Hlen; simpl in Hlen.
    + split; [lia|]. split.
      * intros s [Hs|Hs]%Hsucc; [|by right; right].
        apply elem_of_app in Hs as [Hs|Heq%list_elem_of_singleton]; [by left|].
        subst s. right. left.
      * intros w Hw. apply Hwarn, elem_of_app. by left.
    + split; [lia|]. split; [|done].
      intros s [Hs|Hs]%Hsucc; [by left|by right; right].
Qed.

Lemma download_version_warnings web conn cookies disk :
  op_warnings (download_version web conn cookies disk).1
  = if opt_truthy (version_model_id conn) then [] else ["version_model_id not set"].
Proof.
  unfold download_version.
  destruct (version_model_id conn) as [v|]; simpl; [|done].
  destruct (str_truthy v); simpl; [|done].
  destruct (http_get web _ cookies) as [code reason content|text|text|text]; try done.
  destruct (code =? 200); [|done]. by destruct (open_fault web _).
Qed.

Lemma get_browser_cookies_configured web conn :
  opt_truthy (base_url conn) = true →
  ∃ found, get_browser_cookies web conn = Returned found.
Proof.
  intros Hurl. unfold get_browser_cookies.
  destruct (browser_cookies_available web); simpl; [|by eexists].
  destruct (base_url conn) as [u|]; simpl in *; [|done]. rewrite Hurl. simpl.
  by eexists.
Qed.

(** X21.  With a model configured, [download_all] returns.  Its result
    is successful exactly when the tenant is configured, a browser
    yields cookies and some dimension has a source name, even if every
    download then fails; a result that is not successful leaves the
    disk as it was.  A successful result tried every pair of source
    name and hierarchy flag once, counts each as a success or a
    failure, lists the failures as its errors, and holds of the Version
    download only the warning that no version model is set. *)
Theorem download_all_reports web conn dims disk :
  opt_truthy (model_id conn) = true →
  ∃ r disk',
    download_all web conn dims disk = (Returned r, disk')
    ∧ (success r = true
       ↔ (str_contains "YOUR-TENANT" (default EmptyString (base_url conn))
          || negb (str_truthy (default EmptyString (base_url conn)))) = false
         ∧ (∃ cookies, get_browser_cookies web conn = Returned (Some cookies))
         ∧ wanted_downloads dims ≠ [])
    ∧ (success r = true ↔ ∃ results, data r = Some results)
    ∧ (success r = false → disk' = disk ∧ op_errors r = [message r])
    ∧ ∀ results, data r = Some results →
        reports_downloads web conn dims disk r disk' results.
Proof.
  intros Hmodel. unfold download_all.
  assert (Hfail : ∀ msg,
    ¬ ((str_contains "YOUR-TENANT" (default EmptyString (base_url conn))
        || negb (str_truthy (default EmptyString (base_url conn)))) = false
       ∧ (∃ cookies, get_browser_cookies web conn = Returned (Some cookies))
       ∧ wanted_downloads dims ≠ []) →
    ∃ (r : OperationResult DownloadResults) disk',
      (Returned (op_fail (D := DownloadResults) msg []), disk) = (Returned r, disk')
      ∧ (success r = true
         ↔ (str_contains "YOUR-TENANT" (default EmptyString (base_url conn))
            || negb (str_truthy (default EmptyString (base_url conn)))) = false
           ∧ (∃ cookies, get_browser_cookies web conn = Returned (Some cookies))
           ∧ wanted_downloads dims ≠ [])
      ∧ (success r = true ↔ ∃ results, data r = Some results)
      ∧ (success r = false → disk' = disk ∧ op_errors r = [message r])
      ∧ ∀ results, data r = Some results →
          reports_downloads web conn dims disk r disk' results).
  { intros msg Hnot. eexists _, _. split; [done|]. split; [by split; [status_contra|]|].
    split; [|split; [done|done]].
    split; [status_contra|]. by intros [results ?]. }
  destruct (str_contains "YOUR-TENANT" (default EmptyString (base_url conn))
            || negb (str_truthy (default EmptyString (base_url conn)))) eqn:Hcheck.
  { apply Hfail. by intros [? _]. }
  assert (Hurl : opt_truthy (base_url conn) = true).
  { apply orb_false_iff in Hcheck as [_ Ht]. apply negb_false_iff in Ht.
    by destruct (base_url conn). }
  destruct (get_browser_cookies_configured web conn Hurl) as [found Hfound].
  rewrite Hfound in Hfail |- *. destruct found as [cookies|].
  2: { apply Hfail. by intros (_ & [cookies ?] & _). }
  destruct (collect_downloads_spec dims [] [] (NoDup_nil_2)) as (Hnd & Hkeys & Hmem & Hws).
  { by intros k p ?%elem_of_nil. }
  destruct (collect_downloads dims [] []) as [to_download ws]. simpl in *.
  destruct to_download as [|entry rest] eqn:Hto.
  { apply Hfail. intros (_ & _ & Hwanted).
    destruct (wanted_downloads dims) as [|p ps]; [done|].
    assert (Hp : p ∈ ([] : list (string * (string * bool))).*2)
      by (apply Hmem; right; left).
    by apply elem_of_nil in Hp. }
  rewrite <- Hto in *.
  assert (Hwanted : wanted_downloads dims ≠ []).
  { intros Hnil. rewrite Hnil in Hmem.
    assert (Hp : entry.2 ∈ to_download.*2).
    { rewrite Hto. simpl. left. }
    apply Hmem in Hp as [Hp|Hp]; by apply elem_of_nil in Hp. }
  destruct (download_each_spec web conn cookies to_download.*2 (mkDownloads [] [] ws) disk
              Hurl Hmodel) as (downloaded & disk1 & Hrun & Hlen & _ & _).
  rewrite Hrun. simpl in Hlen. rewrite length_fmap in Hlen.
  pose proof (download_version_warnings web conn cookies disk1) as Hvw.
  destruct (download_version web conn cookies disk1) as [version_result disk2] eqn:Hdv.
  simpl in Hvw.
  assert (Hnd2 : NoDup to_download.*2).
  { apply NoDup_fmap_2_strong; [|by eapply NoDup_fmap_1].
    intros [k1 p1] [k2 p2] Hin1 Hin2. simpl. intros ->.
    by rewrite (Hkeys k1 p2 Hin1), (Hkeys k2 p2 Hin2). }
  assert (Hshape : ∀ r : OperationResult DownloadResults,
    data r = Some (mkDownloads (d_success downloaded) (d_failed downloaded)
                     (d_warnings downloaded ++ op_warnings version_result)) →
    success r = true →
    op_errors r = (d_failed downloaded).*2 →
    op_warnings r = d_warnings downloaded ++ op_warnings version_result →
    (status r = SUCCESS ↔ d_failed downloaded = []
                          ∧ d_warnings downloaded ++ op_warnings version_result = []) →
    ∃ (r0 : OperationResult DownloadResults) disk',
      (Returned r, disk2) = (Returned r0, disk')
      ∧ (success r0 = true
         ↔ false = false
           ∧ (∃ cookies0, Returned (Some cookies) = Returned (Some cookies0))
           ∧ wanted_downloads dims ≠ [])
      ∧ (success r0 = true ↔ ∃ results, data r0 = Some results)
      ∧ (success r0 = false → disk' = disk ∧ op_errors r0 = [message r0])
      ∧ ∀ results, data r0 = Some results →
          reports_downloads web conn dims disk r0 disk' results).
  { intros r Hdata Hsucc Herrs Hwarns Hstatus. exists r, disk2.
    split; [done|].
    split; [split; [intros _; split; [done|split; [by eexists|done]]|done]|].
    split; [by split; [eexists|]|]. split; [congruence|].
    intros results Hres. rewrite Hdata in Hres. injection Hres as <-.
    exists cookies, to_download.*2, downloaded, disk1. simpl.
    split; [done|]. split; [by rewrite Hto|]. split; [done|].
    split; [intros p; rewrite Hmem, elem_of_nil; tauto|].
    split; [by rewrite <- Hws|]. split; [by rewrite Hdv|].
    split; [done|]. split; [done|]. split; [by rewrite Hvw|].
    split; [rewrite length_fmap; lia|]. split; [done|]. split; [done|]. done. }
  destruct (d_failed downloaded) as [|f fs] eqn:Hfailed; simpl.
  - apply Hshape; [done| |done|done|].
    + unfold success, op_ok; simpl. by destruct (_ ++ _).
    + unfold op_ok; simpl. destruct (_ ++ _); split; (done || by intros [_ ?]).
  - apply Hshape; [done|done|done|done|]. simpl. split; [done|by intros [? _]].
Qed.

(** X22.  [download_all] checks the tenant but not the model: with the
    tenant configured, cookies found and a dimension to download, a
    missing model makes it raise the [ConfigurationError] of
    [build_download_url], with nothing written. *)
Theorem download_all_without_model web conn dims disk cookies :
  (str_contains "YOUR-TENANT" (default EmptyString (base_url conn))
   || negb (str_truthy (default EmptyString (base_url conn)))) = false →
  get_browser_cookies web conn = Returned (Some cookies) →
  wanted_downloads dims ≠ [] →
  opt_truthy (model_id conn) = false →
  download_all web conn dims disk
  = (ConfigurationError "SAC connection not fully configured", disk).
Proof.
  intros Hcheck Hcookies Hwanted Hmodel. unfold download_all.
  rewrite Hcheck, Hcookies.
  destruct (collect_downloads_spec dims [] [] (NoDup_nil_2)) as (_ & _ & Hmem & _).
  { by intros k p ?%elem_of_nil. }
  destruct (collect_downloads dims [] []) as [to_download ws]. simpl in *.
  destruct to_download as [|[k [sac h]] rest].
  { exfalso. destruct (wanted_downloads dims) as [|p ps]; [done|].
    assert (Hp : p ∈ ([] : list (string * (string * bool))).*2)
      by (apply Hmem; right; left).
    by apply elem_of_nil in Hp. }
  simpl. unfold download_dimension.
  destruct (build_download_url_cases conn sac h) as [(url & _ & _ & H)|[-> _]];
    [congruence|done].
Qed.

Lemma download_all_reports_witness :
  ∃ r disk',
    download_all sample_web sample_connection [region_dimension; product_dimension] ∅
    = (Returned r, disk').
Proof.
  destruct (download_all_reports sample_web sample_connection
              [region_dimension; product_dimension] ∅ eq_refl)
    as (r & disk' & Hrun & _).
  by exists r, disk'.
Defined.

Lemma download_all_without_model_witness :
  download_all sample_web (mkConnection (Some "https://t.example") None None)
    [region_dimension] ∅
  = (ConfigurationError "SAC connection not fully configured", ∅).
Proof.
  apply (download_all_without_model sample_web
           (mkConnection (Some "https://t.example") None None)
           [region_dimension] ∅ [("session", "1")]); [reflexivity..|done|reflexivity].
Defined.

Example download_all_sample :
  download_all sample_web sample_connection [region_dimension; product_dimension] ∅
  = (Returned
       (mkResult WARNING "Downloaded 1, failed 1"
          (Some (mkDownloads ["Region"]
                   [("Product",
                     "Dimension Product not found - check dimension name and model ID")]
                   ["version_model_id not set"]))
          ["Dimension Product not found - check dimension name and model ID"]
          ["version_model_id not set"]),
     <["downloads/RegionMaster.csv" := "ID,Description,N,North,S,South"]> ∅).
Proof. by vm_compute. Qed.

(** ** Validation *)

Lemma dict_set_keys {A} k (v : A) d :
  (dict_set k v d).*1 = if bool_decide (k ∈ d.*1) then d.*1 else d.*1 ++ [k].
Proof.
  induction d as [|[k' v'] d IH]; [done|].
  cbn [dict_set]. destruct (String.eqb_spec k' k) as [->|Hne];
    rewrite !fmap_cons; cbn [fst].
  - rewrite bool_decide_eq_true_2; [done|left].
  - rewrite IH. destruct (bool_decide_reflect (k ∈ d.*1)) as [Hin|Hnotin].
    + rewrite bool_decide_eq_true_2; [done|by right].
    + rewrite bool_decide_eq_false_2; [done|].
      intros [?|?]%elem_of_cons; congruence.
Qed.

Lemma dict_set_values {A} k (v : A) d x :
  x ∈ (dict_set k v d).*2 → x = v ∨ x ∈ d.*2.
Proof.
  induction d as [|[k' v'] d IH].
  - intros ?%list_elem_of_singleton. by left.
  - cbn [dict_set]. destruct (String.eqb_spec k' k) as [->|Hne];
      rewrite !fmap_cons; cbn [snd].
    + intros [->|?]%elem_of_cons; [by left|right; by right].
    + intros [->|Hx]%elem_of_cons; [right; left|].
      destruct (IH Hx); [by left|right; by right].
Qed.

(** The dict of [validate_config] has the keys of the dict of
    [create_excel], and every value of it is a dimension with a name. *)
Lemma named_dimensions_dict dims : ∀ acc m,
  (∀ k, k ∈ acc.*1 ↔ is_Some (m !! k)) →
  match named_dimensions dims acc, dimensions_dict dims m with
  | Ok l, Ok m' =>
      (∀ k, k ∈ l.*1 ↔ is_Some (m' !! k))
      ∧ (∀ d, d ∈ l.*2 → d ∈ acc.*2 ∨ (d ∈ dims ∧ is_Some (dim_name d)))
  | Raise e, Raise e' => e = KeyError "name" ∧ e' = KeyError "name"
                         ∧ ∃ d, d ∈ dims ∧ dim_name d = None
  | _, _ => False
  end.
Proof.
  induction dims as [|d dims IH]; intros acc m Hkeys; simpl.
  - split; [done|]. intros d Hd. by left.
  - destruct (dim_name d) as [n|] eqn:Hn.
    2: { split; [done|]. split; [done|]. exists d. split; [left|done]. }
    specialize (IH (dict_set n d acc) (<[n := d]> m)).
    destruct (named_dimensions dims (dict_set n d acc)) as [l|e],
             (dimensions_dict dims (<[n := d]> m)) as [m'|e']; simpl in *.
    + destruct IH as [Hk Hv].
      { intros k. rewrite dict_set_keys.
        destruct (decide (n = k)) as [<-|Hne].
        - rewrite lookup_insert_eq.
          destruct (bool_decide_reflect (n ∈ acc.*1)); [done|].
          rewrite elem_of_app, list_elem_of_singleton. naive_solver.
        - rewrite lookup_insert_ne by done. rewrite <- Hkeys.
          destruct (bool_decide_reflect (n ∈ acc.*1)); [done|].
          rewrite elem_of_app, list_elem_of_singleton. naive_solver. }
      split; [done|]. intros d' Hd'. destruct (Hv d' Hd') as [Hin|[Hin Hname]].
      * apply dict_set_values in Hin as [->|Hin]; [|by left].
        right. split; [left|by rewrite Hn].
      * right. split; [by right|done].
    + apply IH. intros k. rewrite dict_set_keys.
      destruct (decide (n = k)) as [<-|Hne].
      * rewrite lookup_insert_eq.
        destruct (bool_decide_reflect (n ∈ acc.*1)); [done|].
        rewrite elem_of_app, list_elem_of_singleton. naive_solver.
      * rewrite lookup_insert_ne by done. rewrite <- Hkeys.
        destruct (bool_decide_reflect (n ∈ acc.*1)); [done|].
        rewrite elem_of_app, list_elem_of_singleton. naive_solver.
    + apply IH. intros k. rewrite dict_set_keys.
      destruct (decide (n = k)) as [<-|Hne].
      * rewrite lookup_insert_eq.
        destruct (bool_decide_reflect (n ∈ acc.*1)); [done|].
        rewrite elem_of_app, list_elem_of_singleton. naive_solver.
      * rewrite lookup_insert_ne by done. rewrite <- Hkeys.
        destruct (bool_decide_reflect (n ∈ acc.*1)); [done|].
        rewrite elem_of_app, list_elem_of_singleton. naive_solver.
    + destruct IH as (He & He' & d0 & Hd0 & Hnone).
      { intros k. rewrite dict_set_keys.
        destruct (decide (n = k)) as [<-|Hne].
        - rewrite lookup_insert_eq.
          destruct (bool_decide_reflect (n ∈ acc.*1)); [done|].
          rewrite elem_of_app, list_elem_of_singleton. naive_solver.
        - rewrite lookup_insert_ne by done. rewrite <- Hkeys.
          destruct (bool_decide_reflect (n ∈ acc.*1)); [done|].
          rewrite elem_of_app, list_elem_of_singleton. naive_solver. }
      split; [done|]. split; [done|]. exists d0. split; [by right|done].
Qed.

Lemma empty_dict_keys (k : string) :
  k ∈ ([] : list (string * Dimension)).*1 ↔ is_Some ((∅ : gmap string Dimension) !! k).
Proof. rewrite lookup_empty. split; [by intros ?%elem_of_nil|by intros [? ?]]. Qed.

Lemma validate_config_eval env conn dims templates :
  validate_config env conn dims templates
  = match named_dimensions dims [] with
    | Raise e => Raise e
    | Ok dimensions =>
        Ok (mkValidation
              ((if str_contains "YOUR-TENANT" (default EmptyString (base_url conn))
                   || negb (str_truthy (default EmptyString (base_url conn)))
                then ["project.json: base_url not configured"] else [])
               ++ (if str_contains "YOUR_MODEL_ID" (default EmptyString (model_id conn))
                      || negb (str_truthy (default EmptyString (model_id conn)))
                   then ["project.json: model_id not configured"] else [])
               ++ (templates ≫= (λ template,
                     (λ col, "Template '" +:+ default "Unnamed" (tpl_name template)
                             +:+ "': Dimension '" +:+ col
                             +:+ "' not found in dimensions.json")
                       <$> filter (λ col, col ∉ dimensions.*1) (tpl_columns template))))
              ((match dimensions with
                | [] => ["dimensions.json: No dimensions defined"]
                | _ :: _ => []
                end)
               ++ (match templates with
                   | [] => ["templates.json: No templates defined"]
                   | _ :: _ => []
                   end)
               ++ (dimensions.*2 ≫= (λ dim,
                     if path_exists env
                          (path_join downloads_dir
                             (default "None" (sac_name dim)
                              +:+ suffix_of (default true (has_hierarchy dim)) +:+ ".csv"))
                     then []
                     else ["CSV not found: "
                           +:+ (default "None" (sac_name dim)
                                +:+ suffix_of (default true (has_hierarchy dim)) +:+ ".csv")
                           +:+ " (for dimension '"
                           +:+ default EmptyString (dim_name dim) +:+ "')"]))))
    end.
Proof. reflexivity. Qed.

(** X23.  [validate_config] raises only the [KeyError] of a dimension
    without name.  Otherwise the list of errors it prints is empty
    exactly when the tenant and the model are configured and every
    column of every template is a dimension; then no template with
    columns has a structural error, so [create_excel] raises no
    [TemplateError] for it.  The last line says there are errors
    exactly when the list is not empty. *)
Theorem validate_config_errors env conn dims templates :
  match validate_config env conn dims templates with
  | Raise e => e = KeyError "name" ∧ ∃ d, d ∈ dims ∧ dim_name d = None
  | Ok v =>
      ∃ dmap,
        dimensions_dict dims ∅ = Ok dmap
        ∧ (v_errors v = []
           ↔ (str_contains "YOUR-TENANT" (default EmptyString (base_url conn))
              || negb (str_truthy (default EmptyString (base_url conn)))) = false
             ∧ (str_contains "YOUR_MODEL_ID" (default EmptyString (model_id conn))
                || negb (str_truthy (default EmptyString (model_id conn)))) = false
             ∧ ∀ t col, t ∈ templates → col ∈ tpl_columns t → is_Some (dmap !! col))
        ∧ (v_errors v = [] →
           ∀ t, t ∈ templates → tpl_columns t ≠ [] → structural_error env dmap t = None)
        ∧ (verdict v = HasErrors ↔ v_errors v ≠ [])
        ∧ (verdict v = AllValid ↔ v_errors v = [] ∧ v_warnings v = [])
  end.
Proof.
  rewrite validate_config_eval.
  pose proof (named_dimensions_dict dims [] ∅ empty_dict_keys) as Hdict.
  destruct (named_dimensions dims []) as [dimensions|e],
           (dimensions_dict dims ∅) as [dmap|e']; [|done|done|].
  2: { by destruct Hdict as (-> & _ & Hd). }
  destruct Hdict as [Hkeys _].
  exists dmap. split; [done|].
  set (missing := templates ≫= _).
  assert (Hmissing : missing = []
            ↔ ∀ t col, t ∈ templates → col ∈ tpl_columns t → is_Some (dmap !! col)).
  { unfold missing. clear missing. induction templates as [|t ts IH]; simpl.
    - split; [|done]. by intros _ t col ?%elem_of_nil.
    - split.
      + intros [Ht Hts]%app_eq_nil t' col [->|Hin]%elem_of_cons Hcol.
        * apply fmap_nil_inv in Ht. apply Hkeys.
          destruct (decide (col ∈ dimensions.*1)) as [|Hnot]; [done|].
          assert (Hcol' : col ∈ filter (λ col, col ∉ dimensions.*1) (tpl_columns t))
            by (by apply list_elem_of_filter).
          rewrite Ht in Hcol'. by apply elem_of_nil in Hcol'.
        * by apply (proj1 IH Hts t' col).
      + intros Hall. apply app_nil. split.
        * rewrite filter_none_nil; [done|]. intros col Hcol Hnot.
          apply Hnot, Hkeys, (Hall t col); [left|done].
        * apply IH. intros t' col Ht'. apply Hall. by right. }
  simpl. split; [|split; [|split]].
  - rewrite <- Hmissing.
    destruct (_ || _), (_ || _); simpl; split;
      try done; try (by intros (? & ? & ?)); by intros H; repeat split.
  - intros Herrs t Ht Hcols. unfold structural_error.
    destruct (tpl_columns t) as [|c cs] eqn:Hc; [done|].
    assert (Hnil : missing = []).
    { destruct (_ || _), (_ || _); simpl in Herrs; try done. }
    rewrite filter_none_nil; [done|].
    intros col Hcol Hnone. rewrite <- Hc in Hcol.
    destruct (proj1 Hmissing Hnil t col Ht Hcol) as [d Hd]. congruence.
  - unfold verdict; simpl. destruct (_ ++ _ ++ missing); [|by split].
    split; [|done]. by destruct (_ ++ _).
  - unfold verdict; simpl. destruct (_ ++ _ ++ missing); [|by split; [|intros [? _]]].
    destruct (_ ++ _); [by split|by split; [|intros [_ ?]]].
Qed.

(** X24.  For a dimension of the dict with a source name,
    [validate_config] warns [CSV not found] when the file named after
    the hierarchy flag does not exist; hence, when it does not warn,
    [find_csv_file] returns that file.  The validation looks at this
    one name only: it may warn where [find_csv_file] finds a file under
    another of its names. *)
Theorem validate_config_csv_warning env conn dims templates v dimensions dim sac st :
  validate_config env conn dims templates = Ok v →
  named_dimensions dims [] = Ok dimensions →
  dim ∈ dimensions.*2 → sac_name dim = Some sac →
  let h := default true (has_hierarchy dim) in
  let own := sac +:+ suffix_of h +:+ ".csv" in
  let warning :=
    "CSV not found: " +:+ own +:+ " (for dimension '"
    +:+ default EmptyString (dim_name dim) +:+ "')" in
  (path_exists env (path_join downloads_dir own) = false → warning ∈ v_warnings v)
  ∧ (warning ∉ v_warnings v →
     find_csv_file env sac h st = (Ok (Some (path_join downloads_dir own)), st)).
Proof.
  intros Hv Hdims Hdim Hsac. cbv zeta.
  rewrite validate_config_eval, Hdims in Hv. injection Hv as <-. simpl.
  assert (Hwarn : path_exists env
                    (path_join downloads_dir
                       (sac +:+ suffix_of (default true (has_hierarchy dim)) +:+ ".csv"))
                  = false →
    ("CSV not found: "
     +:+ (sac +:+ suffix_of (default true (has_hierarchy dim)) +:+ ".csv")
     +:+ " (for dimension '" +:+ default EmptyString (dim_name dim) +:+ "')")
    ∈ (match dimensions with
       | [] => ["dimensions.json: No dimensions defined"]
       | _ :: _ => []
       end)
      ++ (match templates with
          | [] => ["templates.json: No templates defined"]
          | _ :: _ => []
          end)
      ++ (dimensions.*2 ≫= (λ dim,
            if path_exists env
                 (path_join downloads_dir
                    (default "None" (sac_name dim)
                     +:+ suffix_of (default true (has_hierarchy dim)) +:+ ".csv"))
            then []
            else ["CSV not found: "
                  +:+ (default "None" (sac_name dim)
                       +:+ suffix_of (default true (has_hierarchy dim)) +:+ ".csv")
                  +:+ " (for dimension '"
                  +:+ default EmptyString (dim_name dim) +:+ "')"]))).
  { intros Hmissing. apply elem_of_app. right. apply elem_of_app. right.
    apply list_elem_of_bind. exists dim. split; [|done].
    rewrite Hsac. simpl. rewrite Hmissing. left. }
  split; [done|].
  intros Hnot. rewrite find_csv_file_eval.
  destruct (path_exists env
              (path_join downloads_dir
                 (sac +:+ suffix_of (default true (has_hierarchy dim)) +:+ ".csv")))
    eqn:Hexists; [|by destruct Hnot; apply Hwarn].
  destruct (default true (has_hierarchy dim)); unfold suffix_of in *.
  - change ("MasterWithHierarchy" +:+ ".csv") with "MasterWithHierarchy.csv" in *.
    cbn [List.find]. by rewrite Hexists.
  - change ("Master" +:+ ".csv") with "Master.csv" in *.
    cbn [List.find]. by rewrite Hexists.
Qed.

Lemma validate_config_csv_warning_witness :
  find_csv_file (example_env sample_files) "Region" false initial_state
  = (Ok (Some "downloads/RegionMaster.csv"), initial_state).
Proof.
  refine (proj2 (validate_config_csv_warning (example_env sample_files) sample_connection
                   [region_dimension; product_dimension] [sample_template]
                   _ _ region_dimension "Region" initial_state
                   eq_refl eq_refl _ eq_refl) _).
  - simpl. left.
  - vm_compute. intros Hin.
    repeat (apply elem_of_cons in Hin as [Hin|Hin]; [discriminate Hin|]).
    by apply elem_of_nil in Hin.
Defined.

Example validate_config_sample :
  validate_config (example_env sample_files) sample_connection
    [region_dimension; product_dimension] [sample_template; undefined_template]
  = Ok (mkValidation
          ["Template 'Undefined': Dimension 'Channel' not found in dimensions.json"]
          ["CSV not found: ProductMasterWithHierarchy.csv (for dimension 'Product')"]).
Proof. reflexivity. Qed.

(** A file under a fallback name: the validation warns, the generator
    finds the file. *)
Example validate_warns_although_found :
  let env := example_env [("downloads/Region.csv", sample_flat)] in
  validate_config env sample_connection [region_dimension] []
  = Ok (mkValidation []
          ["templates.json: No templates defined";
           "CSV not found: RegionMaster.csv (for dimension 'Region')"])
  ∧ find_csv_file env "Region" false initial_state
    = (Ok (Some "downloads/Region.csv"), initial_state).
Proof. by vm_compute. Qed.

(** ** Occurrences of a pattern in a string *)

Lemma append_cons c (a b : string) : String c a +:+ b = String c (a +:+ b).
Proof. reflexivity. Qed.

Lemma append_nil_l (b : string) : EmptyString +:+ b = b.
Proof. reflexivity. Qed.

Lemma prefix_nil (s : string) : String.prefix EmptyString s = true.
Proof. by destruct s. Qed.

Lemma prefix_cons c p d s :
  String.prefix (String c p) (String d s) = Ascii.eqb c d && String.prefix p s.
Proof.
  simpl. destruct (Ascii.eqb_spec c d) as [->|Hne].
  - by destruct (ascii_dec d d).
  - by destruct (ascii_dec c d).
Qed.

Lemma str_contains_cons p c s :
  str_contains p (String c s) = String.prefix p (String c s) || str_contains p s.
Proof. reflexivity. Qed.

(** A pattern that begins in [t] and is a prefix of [t +:+ b] lies in
    [t], or runs into [b]: then its character at the length of [t] is
    the first character of [b]. *)
Lemma prefix_append p : ∀ t b,
  String.prefix p (t +:+ b) = true →
  String.prefix p t = true
  ∨ ((String.length t < String.length p)%nat
     ∧ String.get (String.length t) p = String.get 0 b).
Proof.
  induction p as [|d p IH]; intros t b Hp.
  - left. apply prefix_nil.
  - destruct t as [|c t].
    + right. split; [simpl; lia|]. rewrite append_nil_l in Hp.
      destruct b as [|e b]; [done|]. rewrite prefix_cons in Hp.
      apply andb_true_iff in Hp as [He _]. apply Ascii.eqb_eq in He. by subst.
    + rewrite append_cons, prefix_cons in Hp. apply andb_true_iff in Hp as [Hc Hp].
      destruct (IH t b Hp) as [Hin|[Hlen Hget]].
      * left. rewrite prefix_cons. by rewrite Hc, Hin.
      * right. split; [simpl; lia|done].
Qed.

(** A pattern absent from [a] and from [b], none of whose characters
    after the first is the first character of [b], is absent from
    [a +:+ b]. *)
Lemma str_contains_append p b :
  str_contains p b = false →
  (∀ k, (0 < k < String.length p)%nat → String.get k p ≠ String.get 0 b) →
  ∀ a, str_contains p a = false → str_contains p (a +:+ b) = false.
Proof.
  intros Hb Hfirst. induction a as [|c a IH]; intros Ha; [done|].
  rewrite append_cons, str_contains_cons.
  rewrite str_contains_cons in Ha. apply orb_false_iff in Ha as [Hpre Ha].
  rewrite (IH Ha), orb_false_r.
  destruct (String.prefix p (String c (a +:+ b))) eqn:Hp; [|done].
  rewrite <- append_cons in Hp. apply prefix_append in Hp as [Hin|[Hlen Hget]].
  - congruence.
  - exfalso. apply (Hfirst (String.length (String c a))); [simpl in *; lia|done].
Qed.

Lemma str_contains_append_r p b a :
  str_contains p b = true → str_contains p (a +:+ b) = true.
Proof.
  intros Hb. induction a as [|c a IH]; [done|].
  rewrite append_cons, str_contains_cons, IH. apply orb_true_r.
Qed.

Lemma prefix_get p : ∀ s i c,
  String.prefix p s = true → String.get i p = Some c → String.get i s = Some c.
Proof.
  induction p as [|d p IH]; intros s i c Hp Hget; [done|].
  destruct s as [|e s]; [done|]. rewrite prefix_cons in Hp.
  apply andb_true_iff in Hp as [He Hp]. apply Ascii.eqb_eq in He. subst e.
  destruct i as [|i]; [done|]. simpl in *. by eapply IH.
Qed.

Lemma str_contains_get c : ∀ s i,
  String.get i s = Some c → str_contains (String c EmptyString) s = true.
Proof.
  induction s as [|d s IH]; intros i Hget; [done|].
  rewrite str_contains_cons. destruct i as [|i]; simpl in Hget.
  - injection Hget as ->. rewrite prefix_cons, prefix_nil.
    by rewrite (proj2 (Ascii.eqb_eq c c) eq_refl).
  - rewrite (IH i Hget). apply orb_true_r.
Qed.

(** A pattern with a character that [s] lacks is absent from [s]. *)
Lemma str_contains_lacking c p i s :
  String.get i p = Some c →
  str_contains (String c EmptyString) s = false → str_contains p s = false.
Proof.
  intros Hget. induction s as [|d s IH]; intros Hs.
  - by destruct p.
  - pose proof Hs as Hall. rewrite str_contains_cons in Hs |- *.
    apply orb_false_iff in Hs as [_ Hs]. rewrite (IH Hs), orb_false_r.
    destruct (String.prefix p (String d s)) eqn:Hp; [|done].
    pose proof (prefix_get p _ i c Hp Hget) as Hc.
    apply str_contains_get in Hc. congruence.
Qed.

(** ** Replacing a pattern *)

Lemma replace_absent old new : ∀ s,
  str_contains old s = false → str_replace old new s = s.
Proof.
  unfold str_replace. induction s as [|c s IH]; intros Hs; [done|].
  rewrite str_contains_cons in Hs. apply orb_false_iff in Hs as [Hp Hs].
  cbn [replace_from]. rewrite Hp. by rewrite (IH Hs).
Qed.

Lemma replace_skip old new : ∀ t s,
  replace_from old new (String.length t) (t +:+ s) = replace_from old new 0 s.
Proof.
  induction t as [|c t IH]; intros s; [done|].
  rewrite append_cons. cbn [String.length replace_from]. apply IH.
Qed.

Lemma prefix_refl_append p s : String.prefix p (p +:+ s) = true.
Proof.
  induction p as [|c p IH]; [apply prefix_nil|].
  rewrite append_cons, prefix_cons, IH.
  by rewrite (proj2 (Ascii.eqb_eq c c) eq_refl).
Qed.

(** A pattern at the head of a string is removed. *)
Lemma replace_head c old s :
  str_replace (String c old) EmptyString (String c old +:+ s)
  = str_replace (String c old) EmptyString s.
Proof.
  unfold str_replace. rewrite append_cons. cbn [replace_from].
  assert (Hp : String.prefix (String c old) (String c (old +:+ s)) = true)
    by (rewrite <- append_cons; apply prefix_refl_append).
  rewrite Hp, append_nil_l. cbn [String.length].
  replace (S (String.length old) - 1)%nat with (String.length old) by lia.
  apply replace_skip.
Qed.

(** A pattern at the end of a string that holds it nowhere else is
    removed, when none of its characters after the first is its first
    character. *)
Lemma replace_tail c old :
  (∀ k, (0 < k < String.length (String c old))%nat →
        String.get k (String c old) ≠ Some c) →
  ∀ a, str_contains (String c old) a = false →
       str_replace (String c old) EmptyString (a +:+ String c old) = a.
Proof.
  intros Hfirst. induction a as [|d a IH]; intros Ha.
  - rewrite append_nil_l.
    rewrite <- (replace_head c old EmptyString) at 2.
    assert (Hnil : ∀ s : string, s +:+ EmptyString = s).
    { induction s as [|x s IHs]; [done|]. by rewrite append_cons, IHs. }
    by rewrite Hnil.
  - rewrite str_contains_cons in Ha. apply orb_false_iff in Ha as [Hpre Ha].
    rewrite append_cons. unfold str_replace in *. cbn [replace_from].
    destruct (String.prefix (String c old) (String d (a +:+ String c old))) eqn:Hp.
    + exfalso. rewrite <- append_cons in Hp.
      apply prefix_append in Hp as [Hin|[Hlen Hget]]; [congruence|].
      apply (Hfirst (String.length (String d a))); [simpl in *; lia|].
      by rewrite Hget.
    + by rewrite (IH Ha).
Qed.

Lemma substring_all (s : string) : String.substring 0 (String.length s) s = s.
Proof. induction s as [|c s IH]; simpl; by f_equal. Qed.

Lemma ends_with_append (a suffix : string) : ends_with suffix (a +:+ suffix) = true.
Proof.
  unfold ends_with.
  assert (Hlen : ∀ a b : string,
            String.length (a +:+ b) = (String.length a + String.length b)%nat).
  { intros x b. induction x as [|c x IH]; [done|]. rewrite append_cons. simpl.
    by rewrite IH. }
  rewrite Hlen.
  replace (String.length a + String.length suffix - String.length suffix)%nat
    with (String.length a) by lia.
  rewrite (proj2 (Nat.leb_le _ _)) by lia. simpl.
  apply String.eqb_eq.
  induction a as [|c a IH]; [apply substring_all|].
  rewrite append_cons. simpl. exact IH.
Qed.

(** ** Scanning a downloaded file *)

(** X25.  For a source name without dot and without [WithHierarchy],
    [scan_csv_files] reads the source name and the hierarchy flag back
    from the file name [download_dimension] writes, suggests a dimension
    with them when the file is the only one, can be read and the answer
    is [y], and [find_csv_file] for the suggested pair returns the
    file. *)
Theorem scan_recovers_download sac h :
  str_contains "." sac = false → str_contains "WithHierarchy" sac = false →
  let csv_file := sac +:+ suffix_of h +:+ ".csv" in
  scanned_sac_name csv_file = sac
  ∧ sac_name (suggest_dimension csv_file) = Some sac
  ∧ has_hierarchy (suggest_dimension csv_file) = Some h
  ∧ (sac ≠ "Version" → ∀ readable,
       readable (path_join downloads_dir csv_file) = true →
       scan_csv_files [csv_file] readable "y" = Some [suggest_dimension csv_file])
  ∧ (∀ env st, path_exists env (path_join downloads_dir csv_file) = true →
       find_csv_file env sac h st = (Ok (Some (path_join downloads_dir csv_file)), st)).
Proof.
  intros Hdot Hwith. cbv zeta.
  assert (Hname : scanned_sac_name (sac +:+ suffix_of h +:+ ".csv") = sac).
  { unfold scanned_sac_name.
    assert (H3 : str_replace ".csv" EmptyString sac = sac).
    { apply replace_absent. by apply (str_contains_lacking "." ".csv" 0). }
    assert (H2 : str_replace "Master.csv" EmptyString sac = sac).
    { apply replace_absent. by apply (str_contains_lacking "." "Master.csv" 6). }
    destruct h; unfold suffix_of.
    - change ("MasterWithHierarchy" +:+ ".csv") with "MasterWithHierarchy.csv".
      rewrite (replace_tail "M" "asterWithHierarchy.csv").
      + by rewrite H2, H3.
      + intros k Hk. simpl in Hk.
        do 23 (destruct k as [|k]; [by (lia || vm_compute)|]). lia.
      + by apply (str_contains_lacking "." "MasterWithHierarchy.csv" 19).
    - change ("Master" +:+ ".csv") with "Master.csv".
      rewrite (replace_absent "MasterWithHierarchy.csv").
      + rewrite (replace_tail "M" "aster.csv").
        * exact H3.
        * intros k Hk. simpl in Hk.
          do 10 (destruct k as [|k]; [by (lia || vm_compute)|]). lia.
        * by apply (str_contains_lacking "." "Master.csv" 6).
      + apply str_contains_append; [done| |].
        * intros k Hk. simpl in Hk.
          do 23 (destruct k as [|k]; [by (lia || vm_compute)|]). lia.
        * by apply (str_contains_lacking "." "MasterWithHierarchy.csv" 19). }
  assert (Hhier : str_contains "WithHierarchy" (sac +:+ suffix_of h +:+ ".csv") = h).
  { destruct h; unfold suffix_of.
    - by apply str_contains_append_r.
    - apply str_contains_append; [done| |done].
      intros k Hk. simpl in Hk.
      do 13 (destruct k as [|k]; [by (lia || vm_compute)|]). lia. }
  split; [done|]. unfold suggest_dimension. cbn [sac_name has_hierarchy].
  rewrite Hname, Hhier. split; [done|]. split; [done|]. split.
  - intros Hversion readable Hread. unfold scan_csv_files.
    rewrite filter_cons, filter_nil.
    destruct (decide (ends_with ".csv" (sac +:+ suffix_of h +:+ ".csv") = true))
      as [_|Hends].
    2: { destruct Hends. rewrite <- append_assoc. apply ends_with_append. }
    cbn [sort_by foldr insert_sorted omap list_omap]. rewrite Hname, Hread.
    destruct (String.eqb_spec sac "Version"); [done|].
    unfold suggest_dimension. by rewrite Hname, Hhier.
  - intros env st Hexists. rewrite find_csv_file_eval.
    destruct h; unfold suffix_of in *.
    + change ("MasterWithHierarchy" +:+ ".csv") with "MasterWithHierarchy.csv" in *.
      cbn [List.find]. by rewrite Hexists.
    + change ("Master" +:+ ".csv") with "Master.csv" in *.
      cbn [List.find]. by rewrite Hexists.
Qed.

Lemma scan_recovers_download_witness :
  scanned_sac_name "COL_PRODUCTMasterWithHierarchy.csv" = "COL_PRODUCT"
  ∧ has_hierarchy (suggest_dimension "COL_PRODUCTMasterWithHierarchy.csv") = Some true.
Proof.
  destruct (scan_recovers_download "COL_PRODUCT" true eq_refl eq_refl)
    as (Hn & _ & Hh & _).
  by split.
Defined.

Example suggest_dimension_sample :
  suggest_dimension "COL_COST_CENTERMaster.csv"
  = mkDimension (Some "Cost Center") (Some "COL_COST_CENTER") (Some false) no_filters
                None false (Some "tbl_cost_center").
Proof. reflexivity. Qed.

(** ** The cookies of the tenant *)

Lemma before_char_absent c : ∀ s,
  str_contains (String c EmptyString) s = false → before_char c s = s.
Proof.
  induction s as [|d s IH]; intros Hs; [done|].
  rewrite str_contains_cons in Hs. apply orb_false_iff in Hs as [Hp Hs].
  rewrite prefix_cons, prefix_nil, andb_true_r in Hp.
  simpl. rewrite Ascii.eqb_sym, Hp. by rewrite (IH Hs).
Qed.

(** X26.  For a tenant URL made of [https://] or [http://] and a host
    without slash, [get_browser_cookies] asks the browsers for the
    cookies of that host and returns those of the first of Chrome, Edge
    and Firefox that yields some, or [None]; without [browser_cookie3]
    it returns [None]. *)
Theorem cookies_of_the_host web conn host :
  str_contains "/" host = false →
  base_url conn = Some ("https://" +:+ host) ∨ base_url conn = Some ("http://" +:+ host) →
  (browser_cookies_available web = false → get_browser_cookies web conn = Returned None)
  ∧ (browser_cookies_available web = true →
     get_browser_cookies web conn
     = Returned (match browser_cookies web Chrome host with
                 | Some jar => Some jar
                 | None =>
                     match browser_cookies web Edge host with
                     | Some jar => Some jar
                     | None => browser_cookies web Firefox host
                     end
                 end)).
Proof.
  intros Hhost Hurl. unfold get_browser_cookies. split; [by intros ->|].
  intros ->. simpl negb. cbv iota.
  assert (Hs : str_replace "https://" EmptyString host = host).
  { apply replace_absent. by apply (str_contains_lacking "/" "https://" 6). }
  assert (Hp : str_replace "http://" EmptyString host = host).
  { apply replace_absent. by apply (str_contains_lacking "/" "http://" 5). }
  assert (Hdomain : before_char "/"
            (str_replace "http://" EmptyString
               (str_replace "https://" EmptyString
                  (default EmptyString (base_url conn)))) = host
          ∧ str_truthy (default EmptyString (base_url conn)) = true).
  { destruct Hurl as [-> | ->]; simpl default; (split; [|done]).
    - rewrite (replace_head "h" "ttps://"), Hs, Hp. by apply before_char_absent.
    - rewrite (replace_absent "https://").
      + rewrite (replace_head "h" "ttp://"), Hp. by apply before_char_absent.
      + rewrite !append_cons, append_nil_l, !str_contains_cons, !prefix_cons. simpl.
        by apply (str_contains_lacking "/" "https://" 6). }
  destruct Hdomain as [-> ->]. simpl.
  destruct (browser_cookies web Chrome host); [done|].
  destruct (browser_cookies web Edge host); [done|].
  by destruct (browser_cookies web Firefox host).
Qed.

Lemma cookies_of_the_host_witness :
  get_browser_cookies sample_web sample_connection = Returned (Some [("session", "1")]).
Proof.
  refine (proj2 (cookies_of_the_host sample_web sample_connection "t.example" eq_refl _)
                eq_refl).
  by left.
Defined.
